(** * Model-registry maintenance scripts: download, load and drop.

    A shallow embedding of [models/download_models.py],
    [models/load_models.py] and [models/drop_models.py].  The three
    scripts act on two stores: the files next to the scripts (the manifest
    [models.json] and the ONNX artifacts) and the database table
    [USER_MINING_MODELS].  Both stores, the answers of the outside world
    (network, backend failures, the operator at the prompt) and everything
    a script does in order (one log) form the [World] on which the
    scripts run as state-and-exception computations. *)

From Stdlib Require Import Ascii.
From stdpp Require Import gmap strings list fin_maps sorting.

Open Scope string_scope.
Open Scope list_scope.

(** ** Exceptions *)

Inductive Exn :=
| FileNotFoundError | JSONDecodeError | TypeError | KeyError
| DatabaseError                          (* oracledb.Error *)
| URLError | ContentTooShortError | BadZipFile.

(** ** The manifest *)

(** One entry of [models.json].  The scripts index each entry with the six
    keys below and no others; an entry is taken to carry all of them. *)
Record Model := {
  id : string;
  name : string;
  url : string;
  output : string;
  db_model_name : string;
  description : string;
}.

Global Instance Model_eq_dec : EqDecision Model.
Proof. solve_decision. Defined.

(** The manifest document: [config["models"]]. *)
Record Config := { models : list Model }.

(** What [json.load] returns: a manifest, or a document in which
    [config["models"]] raises. *)
Inductive Document :=
| Manifest (config : Config)
| Shapeless (e : Exn).

(** ** Files *)

(** A file that holds well-formed JSON holds a document of the manifest's
    shape ([Json]) or a document that has no [models] at all
    ([OtherJson e]): [json.load] reads both, and on the latter
    [config["models"]] raises [e], a [KeyError] for an object without that
    key and a [TypeError] for a document that is no object (a list, a
    string, a number, [true], [false] or [null]).  Files are the regular
    files, by path; directories are not represented. *)
Inductive content :=
| Json (c : Config)                      (* a JSON document of the manifest's shape *)
| Garbage                                (* text that is no JSON *)
| Binary (data : string)                 (* a complete binary file *)
| Truncated (data : string)              (* what an interrupted transfer left behind *)
| Archive (entries : list (string * string))   (* a zip file: entry names and data *)
| OtherJson (e : Exn).                   (* a JSON document without a list of models *)

Inductive NetOutcome :=
| Served (c : content)                   (* the whole body arrives *)
| Refused                                (* the request fails before a byte is written *)
| Interrupted (partial : string).        (* the transfer breaks after [partial] was written *)

(** ** What a script prints *)

Inductive Line :=
(* get_db_connection *)
| L_password_unset | L_password_hint
(* main, both database scripts *)
| L_connect_failed
| L_unknown_model (model_id : string)          (* Error: model '..' not found *)
(* drop_model *)
| L_dropped (db_name : string)                 (* [DROP] .. *)
(* load_models.load_model *)
| L_skip_file_missing (file : string)          (* [SKIP] .. no such file *)
| L_advise_download (model_id : string)        (* python models/download_models.py .. *)
| L_loaded (db_name : string)                  (* [LOAD] .. *)
(* load_models.list_models *)
| L_available_header | L_rule60
| L_status_row (model_id : string) (loaded : bool) (descr : string)
(* load_models.main *)
| L_load_start (n : nat)
| L_model_header (model_id model_name : string)
| L_skip_already_loaded                        (* [SKIP] already loaded (--force reloads) *)
| L_load_done (loaded skipped : nat)
(* drop_models.list_models *)
| L_none_loaded | L_loaded_header | L_rule70
| L_loaded_row (model_id db_name descr : string)
| L_orphan_row (db_name : string)
| L_total (n : nat)
(* drop_models.confirm_deletion *)
| L_confirm_header (n : nat)
| L_confirm_known (db_name model_id : string)
| L_confirm_orphan (db_name : string)
| L_cancelled
(* drop_models.main *)
| L_help | L_all_with_ids
| L_valid_ids_header | L_valid_id (model_id : string)
| L_warn_not_loaded (model_id db_name : string)
| L_nothing_to_drop
| L_blank
| L_unknown_header (db_name : string)
| L_drop_done (n : nat)
(* download_models *)
| L_skip_exists (file : string)
| L_downloading (model_name : string)
| L_extracting
| L_ok (file : string)
| L_not_found (target : option string)
| L_available_models
| L_available_item (model_id model_name : string)
| L_download_start (n : nat)
| L_done.

Global Instance Line_eq_dec : EqDecision Line.
Proof. solve_decision. Defined.

(** ** Everything a script does to the outside, in order *)

Inductive Event :=
| Print (l : Line)
| Open (path : string)                   (* open(path) for reading *)
| Stat (path : string)                   (* Path.exists *)
| Connect                                (* oracledb.connect *)
| Query                                  (* SELECT MODEL_NAME FROM USER_MINING_MODELS *)
| DropOnnx (db_name : string)            (* DBMS_VECTOR.DROP_ONNX_MODEL(name, force => TRUE) *)
| LoadOnnx (file db_name : string)       (* DBMS_VECTOR.LOAD_ONNX_MODEL('ONNX_MODELS', file, name) *)
| Close                                  (* conn.close *)
| Prompt                                 (* input(..) *)
| Retrieve (from to : string)            (* urllib.request.urlretrieve *)
| Extract (entry : string)               (* ZipFile.extract *)
| Unlink (path : string).                (* Path.unlink *)

Global Instance Event_eq_dec : EqDecision Event.
Proof. solve_decision. Defined.

(** The calls that change the registry. *)
Definition is_mutation (e : Event) : bool :=
  match e with DropOnnx _ | LoadOnnx _ _ => true | _ => false end.

(** The calls that go over the network. *)
Definition is_network (e : Event) : bool :=
  match e with Retrieve _ _ => true | _ => false end.

(** ** The world *)

(** A line of text as Python holds it: the list of its Unicode code
    points. *)
Definition Text : Type := list N.

(** The text of an ASCII literal. *)
Definition text (s : string) : Text :=
  Ascii.N_of_ascii <$> String.list_ascii_of_string s.

Record World := {
  fs : gmap string content;       (* files, by path relative to the scripts' directory *)
  password : option string;       (* the environment variable VCTR_USER_PWD *)
  dotenv : option string;         (* VCTR_USER_PWD as the .env file gives it, if one does *)
  reachable : bool;               (* whether oracledb.connect succeeds *)
  registry : list string;         (* the MODEL_NAME column of USER_MINING_MODELS *)
  faults : list bool;             (* the coming backend calls: true = this one fails *)
  net : string → NetOutcome;      (* what a GET of a URL gives *)
  stdin : option Text;            (* the operator's line at the prompt; None = EOF or Ctrl-C *)
  log : list Event;               (* what was done so far, oldest first *)
}.

Definition set_fs (f : gmap string content) (w : World) : World :=
  {| fs := f; password := password w; dotenv := dotenv w;
     reachable := reachable w;
     registry := registry w; faults := faults w; net := net w;
     stdin := stdin w; log := log w |}.

Definition set_registry (r : list string) (w : World) : World :=
  {| fs := fs w; password := password w; dotenv := dotenv w;
     reachable := reachable w;
     registry := r; faults := faults w; net := net w;
     stdin := stdin w; log := log w |}.

Definition set_faults (f : list bool) (w : World) : World :=
  {| fs := fs w; password := password w; dotenv := dotenv w;
     reachable := reachable w;
     registry := registry w; faults := f; net := net w;
     stdin := stdin w; log := log w |}.

Definition record (e : Event) (w : World) : World :=
  {| fs := fs w; password := password w; dotenv := dotenv w;
     reachable := reachable w;
     registry := registry w; faults := faults w; net := net w;
     stdin := stdin w; log := log w ++ [e] |}.

(** ** Computations: state, exceptions and [sys.exit] *)

Inductive Res (A : Type) :=
| Ok (a : A)
| Raise (e : Exn)
| Exit (code : nat).                     (* SystemExit *)
Arguments Ok {A} a.
Arguments Raise {A} e.
Arguments Exit {A} code.

Definition M (A : Type) : Type := World → Res A * World.

Definition ret {A} (a : A) : M A := λ w, (Ok a, w).

Definition bind {A B} (k : A → M B) (m : M A) : M B := λ w,
  match m w with
  | (Ok a, w') => k a w'
  | (Raise e, w') => (Raise e, w')
  | (Exit c, w') => (Exit c, w')
  end.

Global Instance M_ret : MRet M := @ret.
Global Instance M_bind : MBind M := @bind.

Definition raise {A} (e : Exn) : M A := λ w, (Raise e, w).
Definition sys_exit {A} (code : nat) : M A := λ w, (Exit code, w).
Definition emit (e : Event) : M unit := λ w, (Ok tt, record e w).
Definition print (l : Line) : M unit := emit (Print l).

(** [try: body finally: cleanup]: the cleanup runs on every way out of the
    body, and the body's outcome stands unless the cleanup itself fails. *)
Definition try_finally {A} (body : M A) (cleanup : M unit) : M A := λ w,
  match body w with
  | (r, w') =>
      match cleanup w' with
      | (Ok _, w'') => (r, w'')
      | (Raise e, w'') => (Raise e, w'')
      | (Exit c, w'') => (Exit c, w'')
      end
  end.

(** [try: body except oracledb.Error: handler]. [SystemExit] and the other
    exceptions pass through. *)
Definition except_db {A} (body : M A) (handler : M A) : M A := λ w,
  match body w with
  | (Raise DatabaseError, w') => handler w'
  | other => other
  end.

(** [for x in xs: acc = body x acc]. *)
Fixpoint for_each {A S} (body : A → S → M S) (xs : list A) (acc : S) : M S :=
  match xs with
  | [] => ret acc
  | x :: xs' => acc' ← body x acc; for_each body xs' acc'
  end.

(** The process exit status of a script's run. *)
Definition exit_status {A} (r : Res A) : nat :=
  match r with Ok _ => 0 | Raise _ => 1 | Exit c => c end.

(** Python truthiness of a string and of a string-or-None. *)
Definition truthy (s : string) : bool := negb (String.eqb s "").
Definition truthy_opt (o : option string) : bool :=
  match o with Some s => truthy s | None => false end.

(** [s.endswith(suffix)]. *)
Definition endswith (s suffix : string) : bool :=
  String.prefix (String.rev suffix) (String.rev s).

(** [path.exists()]. *)
Definition exists_file (path : string) : M bool := λ w,
  (Ok (bool_decide (is_Some (fs w !! path))), record (Stat path) w).

(** ** The code shared, copy for copy, by the scripts *)

(** A backend call: it is logged and takes the next pending fault, which
    decides whether it fails before having any effect. *)
Definition issued (call : Event) (w : World) : World :=
  set_faults (tail (faults w)) (record call w).

Definition backend {A} (call : Event) (effect : M A) : M A := λ w,
  match head (faults w) with
  | Some true => (Raise DatabaseError, issued call w)
  | _ => effect (issued call w)
  end.

(** [load_dotenv()] followed by [os.getenv("VCTR_USER_PWD")]: the
    variable of the environment when it is set (be it to the empty string),
    and otherwise the one of the .env file, which never overrides the
    environment. *)
Definition getenv_password (w : World) : option string :=
  match password w with
  | Some value => Some value
  | None => dotenv w
  end.

Arguments getenv_password : simpl never.

(** [get_db_connection]: the password is read first and its absence ends
    the process; then the session is opened. *)
Definition get_db_connection : M unit := λ w,
  if truthy_opt (getenv_password w) then
    if reachable w then emit Connect w else (Raise DatabaseError, record Connect w)
  else (print L_password_unset ;; print L_password_hint ;; sys_exit 1) w.

(** [load_config]: open [models.json] and parse it.  The document is
    returned as it is parsed: nothing is checked beyond its being JSON. *)
Definition load_config : M Document := λ w,
  let w1 := record (Open "models.json") w in
  match fs w1 !! "models.json" with
  | None => (Raise FileNotFoundError, w1)
  | Some (Json c) => (Ok (Manifest c), w1)
  | Some (OtherJson e) => (Ok (Shapeless e), w1)
  | Some _ => (Raise JSONDecodeError, w1)
  end.

(** [get_loaded_models]: the set of registered names. *)
Definition get_loaded_models : M (gset string) :=
  backend Query (λ w, (Ok (list_to_set (registry w)), w)).

(** [drop_model].  On the database side, DROP_ONNX_MODEL removes the
    name; the script always passes [force => TRUE], under which a name
    that is not registered is no error. *)
Definition drop_model (model_name : string) : M unit :=
  backend (DropOnnx model_name)
    (λ w, (Ok tt, set_registry (filter (λ n, n ≠ model_name) (registry w)) w)) ;;
  print (L_dropped model_name).

Definition conn_close : M unit := emit Close.

(** ** load_models.py *)

Module Load.

Record Args := {
  model_id : option string;   (* the optional positional argument *)
  list_flag : bool;           (* --list *)
  force : bool;               (* --force *)
}.

(** The call of LOAD_ONNX_MODEL in [load_model].  On the database side
    (the registry contract), the call fails if a model with that name is
    already registered, and otherwise adds the name. *)
Definition load_onnx (file db_name : string) : M unit :=
  backend (LoadOnnx file db_name)
    (λ w, if decide (db_name ∈ registry w) then (Raise DatabaseError, w)
          else (Ok tt, set_registry (registry w ++ [db_name]) w)).

(** [models_dir / model["output"]], with [models_dir] the directory
    [onnx] next to the script. *)
Definition onnx_file (model : Model) : string := ("onnx/" ++ output model)%string.

(** [load_model]: true when loaded, false when skipped. *)
Definition load_model (model : Model) : M bool :=
  present ← exists_file (onnx_file model);
  if negb present then
    print (L_skip_file_missing (output model)) ;;
    print (L_advise_download (id model)) ;;
    ret false
  else
    load_onnx (output model) (db_model_name model) ;;
    print (L_loaded (db_model_name model)) ;;
    ret true.

Definition list_models (config : Config) (loaded_models : gset string) : M unit :=
  print L_available_header ;;
  print L_rule60 ;;
  for_each (λ model (_ : unit),
      print (L_status_row (id model)
               (bool_decide (db_model_name model ∈ loaded_models))
               (description model)))
    (models config) tt ;;
  print L_rule60.

(** The end of a turn of the loop of [main]: load the model and count
    the outcome. *)
Definition load_and_count (model : Model) (counts : nat * nat) : M (nat * nat) :=
  loaded ← load_model model;
  if (loaded : bool) then ret (S counts.1, counts.2) else ret (counts.1, S counts.2).

(** One turn of the loop of [main]; the accumulator is
    [(loaded_count, skipped_count)]. *)
Definition load_one (force : bool) (loaded_models : gset string)
    (model : Model) (counts : nat * nat) : M (nat * nat) :=
  let db_name := db_model_name model in
  print (L_model_header (id model) (name model)) ;;
  if bool_decide (db_name ∈ loaded_models) then
    if force then
      drop_model db_name ;;
      load_and_count model counts
    else
      print L_skip_already_loaded ;;
      ret (counts.1, S counts.2)
  else load_and_count model counts.

(** The models to load: those of the requested id, or all of them when
    the argument is absent (or empty: [if args.model_id] is a truth test). *)
Definition models_to_load (args : Args) (config : Config) : list Model :=
  if truthy_opt (model_id args)
  then filter (λ m, Some (id m) = model_id args) (models config)
  else models config.

(** The filter step of [main], with its error exit. *)
Definition select_models (args : Args) (config : Config)
    (loaded_models : gset string) : M (list Model) :=
  if truthy_opt (model_id args) && bool_decide (models_to_load args config = []) then
    print (L_unknown_model (default "" (model_id args))) ;;
    list_models config loaded_models ;;
    sys_exit 1
  else ret (models_to_load args config).

(** What the session of [main] does with a document without a list of
    models: the first [config["models"]] raises, in the loop of
    [list_models] after its two header lines under [--list], and in the
    filter step otherwise. *)
Definition session_without_models (args : Args) (e : Exn) : M unit :=
  if list_flag args then print L_available_header ;; print L_rule60 ;; raise e
  else raise e.

Definition main (args : Args) : M unit :=
  document ← load_config;
  except_db get_db_connection (print L_connect_failed ;; sys_exit 1) ;;
  try_finally
    (loaded_models ← get_loaded_models;
     match document with
     | Manifest config =>
         if list_flag args then list_models config loaded_models
         else
           batch ← select_models args config loaded_models;
           print (L_load_start (length batch)) ;;
           counts ← for_each (load_one (force args) loaded_models) batch (0, 0);
           print (L_load_done (fst counts) (snd counts))
     | Shapeless e => session_without_models args e
     end)
    conn_close.

End Load.

(** ** drop_models.py *)

Module Drop.

Record Args := {
  model_ids : list string;    (* zero or more positional arguments *)
  all : bool;                 (* --all *)
  list_flag : bool;           (* --list *)
  yes : bool;                 (* -y / --yes *)
}.

(** [get_model_by_db_name]: the first entry with that registry name. *)
Definition get_model_by_db_name (config : Config) (db_name : string) : option Model :=
  List.find (λ model, bool_decide (db_model_name model = db_name)) (models config).

(** [get_model_by_id]: the first entry with that id. *)
Definition get_model_by_id (config : Config) (model_id : string) : option Model :=
  List.find (λ model, bool_decide (id model = model_id)) (models config).

Definition list_models (config : Config) (loaded_models : gset string) : M unit :=
  if bool_decide (loaded_models = ∅) then print L_none_loaded
  else
    print L_loaded_header ;;
    print L_rule70 ;;
    for_each (λ model (_ : unit),
        if bool_decide (db_model_name model ∈ loaded_models)
        then print (L_loaded_row (id model) (db_model_name model) (description model))
        else ret tt)
      (models config) tt ;;
    let config_db_names : gset string :=
      list_to_set (db_model_name <$> models config) in
    let orphan_models := loaded_models ∖ config_db_names in
    for_each (λ db_name (_ : unit), print (L_orphan_row db_name))
      (merge_sort String.le (elements orphan_models)) tt ;;
    print L_rule70 ;;
    print (L_total (size loaded_models)).

(** [str.isspace] of one code point: the white space of Unicode, which
    [str.strip()] removes.  These are U+0009..U+000D, U+001C..U+0020,
    U+0085, U+00A0, U+1680, U+2000..U+200A, U+2028, U+2029, U+202F, U+205F
    and U+3000. *)
Definition is_space (c : N) : bool :=
  ((9 <=? c) && (c <=? 13) || (28 <=? c) && (c <=? 32) || (c =? 133) || (c =? 160)
   || (c =? 5760) || (8192 <=? c) && (c <=? 8202) || (c =? 8232) || (c =? 8233)
   || (c =? 8239) || (c =? 8287) || (c =? 12288))%N.

Fixpoint lstrip (s : Text) : Text :=
  match s with
  | [] => []
  | c :: s' => if is_space c then lstrip s' else s
  end.

(** [str.strip()]: the white space at both ends goes. *)
Definition strip (s : Text) : Text :=
  reverse (lstrip (reverse (lstrip s))).

(** [str.lower()], of which only the letters A to Z are written out.  The
    other capital letters of Unicode have a lower case too, but none of
    them the letter y, and no code point has an empty lower case; so the
    comparison of the result with [y] in [confirm_deletion] is decided by
    this part of the mapping. *)
Definition lower_code (c : N) : N :=
  if ((65 <=? c) && (c <=? 90))%N then (c + 32)%N else c.

Definition lower (s : Text) : Text := lower_code <$> s.

(** [input(..)]: the operator's line, or None on EOF or Ctrl-C. *)
Definition input : M (option Text) := λ w, (Ok (stdin w), record Prompt w).

(** One entry of [models_to_drop]: the registry name and the id or None. *)
Definition Target : Type := string * option string.

Definition confirm_deletion (models_to_drop : list Target) : M bool :=
  print (L_confirm_header (length models_to_drop)) ;;
  for_each (λ (t : Target) (_ : unit),
      if truthy_opt t.2
      then print (L_confirm_known t.1 (default "" t.2))
      else print (L_confirm_orphan t.1))
    models_to_drop tt ;;
  answer ← input;
  match answer : option Text with
  | Some line => ret (bool_decide (lower (strip line) = text "y"))
  | None => print L_cancelled ;; ret false
  end.

(** The plan of [--all]: every registered name, with the id of its
    manifest entry when it has one.  The script iterates a Python set, in
    an order that it does not determine; [elements] stands for that order,
    of which the properties use nothing but that every name comes
    once. *)
Definition resolve_all (config : Config) (loaded_models : gset string) : list Target :=
  (λ db_name, (db_name, id <$> get_model_by_db_name config db_name))
    <$> elements loaded_models.

(** One turn of the loop over the requested ids. *)
Definition resolve_one (config : Config) (loaded_models : gset string)
    (model_id : string) (models_to_drop : list Target) : M (list Target) :=
  match get_model_by_id config model_id with
  | None =>
      print (L_unknown_model model_id) ;;
      print L_valid_ids_header ;;
      for_each (λ m (_ : unit), print (L_valid_id (id m))) (models config) tt ;;
      sys_exit 1
  | Some model =>
      let db_name := db_model_name model in
      if bool_decide (db_name ∈ loaded_models)
      then ret (models_to_drop ++ [(db_name, Some model_id)])
      else print (L_warn_not_loaded model_id db_name) ;; ret models_to_drop
  end.

(** The list of the models to drop. *)
Definition resolve (args : Args) (config : Config)
    (loaded_models : gset string) : M (list Target) :=
  if all args then ret (resolve_all config loaded_models)
  else for_each (resolve_one config loaded_models) (model_ids args) [].

(** One turn of the loop that drops. *)
Definition drop_one (config : Config) (t : Target) (dropped_count : nat) : M nat :=
  (if truthy_opt t.2 then
     match get_model_by_id config (default "" t.2) with
     | Some model => print (L_model_header (default "" t.2) (name model))
     | None => raise TypeError
     end
   else print (L_unknown_header t.1)) ;;
  drop_model t.1 ;;
  ret (S dropped_count).

(** What [main] does with the list once it is made: nothing when it is
    empty, else confirm (unless [-y]), drop in order, and report. *)
Definition execute (args : Args) (config : Config)
    (models_to_drop : list Target) : M unit :=
  if bool_decide (models_to_drop = []) then print L_nothing_to_drop
  else
    confirmed ← (if yes args then ret true else confirm_deletion models_to_drop);
    if negb confirmed then print L_cancelled
    else
      print L_blank ;;
      dropped_count ← for_each (drop_one config) models_to_drop 0;
      print (L_drop_done dropped_count).

(** The body of the [try] of [main]: what happens inside the session. *)
Definition session (args : Args) (config : Config) : M unit :=
  loaded_models ← get_loaded_models;
  if list_flag args then list_models config loaded_models
  else
    models_to_drop ← resolve args config loaded_models;
    execute args config models_to_drop.

(** The body of the [try] of [main] on a document without a list of
    models: the first [config["models"]] raises.  That is in [list_models]
    after its two header lines, unless nothing is registered; with [--all]
    in the lookup of the first registered name, if there is one; and
    otherwise in the lookup of the first requested id. *)
Definition session_without_models (args : Args) (e : Exn) : M unit :=
  loaded_models ← get_loaded_models;
  if list_flag args then
    if bool_decide (loaded_models = ∅) then print L_none_loaded
    else print L_loaded_header ;; print L_rule70 ;; raise e
  else if all args then
    if bool_decide (loaded_models = ∅) then print L_nothing_to_drop else raise e
  else
    if bool_decide (model_ids args = []) then print L_nothing_to_drop else raise e.

Definition main (args : Args) : M unit :=
  if negb (list_flag args) && negb (all args) && bool_decide (model_ids args = []) then
    print L_help ;; sys_exit 1
  else if all args && negb (bool_decide (model_ids args = [])) then
    print L_all_with_ids ;; sys_exit 1
  else
    document ← load_config;
    except_db get_db_connection (print L_connect_failed ;; sys_exit 1) ;;
    try_finally
      (match document with
       | Manifest config => session args config
       | Shapeless e => session_without_models args e
       end)
      conn_close.

End Drop.

(** ** download_models.py *)

Module Download.

(** [urllib.request.urlretrieve(url, path)]: the body is written to [path]
    as it arrives. *)
Definition urlretrieve (from to : string) : M unit := λ w,
  let w1 := record (Retrieve from to) w in
  match net w1 from with
  | Served c => (Ok tt, set_fs (<[to := c]> (fs w1)) w1)
  | Refused => (Raise URLError, w1)
  | Interrupted partial =>
      (Raise ContentTooShortError, set_fs (<[to := Truncated partial]> (fs w1)) w1)
  end.

(** [zipfile.ZipFile(path, "r")]: the entries of the archive. *)
Definition open_zip (path : string) : M (list (string * string)) := λ w,
  let w1 := record (Open path) w in
  match fs w1 !! path with
  | None => (Raise FileNotFoundError, w1)
  | Some (Archive entries) => (Ok entries, w1)
  | Some _ => (Raise BadZipFile, w1)
  end.

(** [arcname.split("/")]: the parts of a name between its slashes. *)
Fixpoint split_slash (s : string) : list string :=
  match s with
  | EmptyString => [EmptyString]
  | String a s' =>
      if Ascii.eqb a "/"%char then EmptyString :: split_slash s'
      else match split_slash s' with
           | part :: parts => String a part :: parts
           | [] => [String a EmptyString]
           end
  end.

(** The path below the output directory at which [ZipFile.extract] writes
    an entry (on POSIX): the entry name without its empty parts and its
    [.] and [..] parts, so that neither a leading slash nor a [..] leads
    out of the output directory. *)
Definition clean_name (entry : string) : string :=
  String.concat "/" (filter (λ part, part ∉ [""; "."; ".."]) (split_slash entry)).

(** [zf.extract(entry, output_dir)]: the data of the archive's last entry
    of that name is written below the output directory, at the cleaned
    name. *)
Definition extract (entries : list (string * string)) (entry : string) : M unit := λ w,
  let w1 := record (Extract entry) w in
  match List.find (λ e, bool_decide (e.1 = entry)) (reverse entries) with
  | Some e => (Ok tt, set_fs (<[clean_name entry := Binary e.2]> (fs w1)) w1)
  | None => (Raise KeyError, w1)
  end.

(** [path.unlink()]. *)
Definition unlink (path : string) : M unit := λ w,
  let w1 := record (Unlink path) w in
  match fs w1 !! path with
  | None => (Raise FileNotFoundError, w1)
  | Some _ => (Ok tt, set_fs (delete path (fs w1)) w1)
  end.

(** [output_dir / f"{model['id']}_temp.zip"]. *)
Definition zip_path (model : Model) : string := (id model ++ "_temp.zip")%string.

Definition download_model (model : Model) : M unit :=
  let output_file := output model in
  present ← exists_file output_file;
  if (present : bool) then print (L_skip_exists (output model))
  else if endswith (url model) ".zip" then
    print (L_downloading (name model)) ;;
    urlretrieve (url model) (zip_path model) ;;
    print L_extracting ;;
    entries ← open_zip (zip_path model);
    for_each (λ (e : string * string) (_ : unit),
        if endswith e.1 ".onnx" then extract entries e.1 else ret tt)
      entries tt ;;
    unlink (zip_path model) ;;
    print (L_ok (output model))
  else
    print (L_downloading (name model)) ;;
    urlretrieve (url model) output_file ;;
    print (L_ok (output model)).

(** [main], with [target_id] the first command-line argument if any. *)
Definition main (target_id : option string) : M unit :=
  document ← load_config;
  match document with
  | Manifest config =>
      let models_to_download :=
        filter (λ m, target_id = None ∨ Some (id m) = target_id) (models config) in
      if bool_decide (models_to_download = []) then
        print (L_not_found target_id) ;;
        print L_available_models ;;
        for_each (λ m (_ : unit), print (L_available_item (id m) (name m)))
          (models config) tt ;;
        sys_exit 1
      else
        print (L_download_start (length models_to_download)) ;;
        for_each (λ m (_ : unit), download_model m) models_to_download tt ;;
        print L_done
  | Shapeless e => raise e       (* the loop over [config["models"]] *)
  end.

End Download.

(** * The words of the properties *)

(** Whatever way [m] ends, the world it leaves is [R]-related to the
    world it started in. *)
Definition stable (R : relation World) {A} (m : M A) : Prop := ∀ w, R w (m w).2.

(** The world with the events [es] appended to its log. *)
Definition record_all (es : list Event) (w : World) : World :=
  foldl (λ w e, record e w) w es.

(** The world once the manifest is read, the session open and the
    snapshot taken. *)
Definition started (w : World) : World :=
  issued Query (record Connect (record (Open "models.json") w)).

(** The world in which [load_model] is called: after the header, and
    after the drop when the name is in the snapshot and [--force] is on. *)
Inductive load_prepared (force : bool) (loaded_models : gset string)
    (model : Model) (w : World) : World → Prop :=
| prepared_fresh :
    db_model_name model ∉ loaded_models →
    load_prepared force loaded_models model w
      (record (Print (L_model_header (id model) (name model))) w)
| prepared_dropped :
    db_model_name model ∈ loaded_models → force = true →
    head (faults w) ≠ Some true →
    load_prepared force loaded_models model w
      (record (Print (L_dropped (db_model_name model)))
         (set_registry (filter (λ x, x ≠ db_model_name model) (registry w))
            (issued (DropOnnx (db_model_name model))
               (record (Print (L_model_header (id model) (name model))) w)))).

(** The six ways a turn can go. *)
Inductive load_turn (force : bool) (loaded_models : gset string)
    (model : Model) (counts : nat * nat) (w : World) :
    Res (nat * nat) → World → Prop :=
| turn_already_loaded :
    db_model_name model ∈ loaded_models → force = false →
    load_turn force loaded_models model counts w
      (Ok (counts.1, S counts.2))
      (record (Print L_skip_already_loaded)
         (record (Print (L_model_header (id model) (name model))) w))
| turn_drop_fails :
    db_model_name model ∈ loaded_models → force = true →
    head (faults w) = Some true →
    load_turn force loaded_models model counts w
      (Raise DatabaseError)
      (issued (DropOnnx (db_model_name model))
         (record (Print (L_model_header (id model) (name model))) w))
| turn_file_missing w1 :
    load_prepared force loaded_models model w w1 →
    fs w !! Load.onnx_file model = None →
    load_turn force loaded_models model counts w
      (Ok (counts.1, S counts.2))
      (record (Print (L_advise_download (id model)))
         (record (Print (L_skip_file_missing (output model)))
            (record (Stat (Load.onnx_file model)) w1)))
| turn_load_fails w1 :
    load_prepared force loaded_models model w w1 →
    is_Some (fs w !! Load.onnx_file model) →
    head (faults w1) = Some true ∨ db_model_name model ∈ registry w1 →
    load_turn force loaded_models model counts w
      (Raise DatabaseError)
      (issued (LoadOnnx (output model) (db_model_name model))
         (record (Stat (Load.onnx_file model)) w1))
| turn_loaded w1 :
    load_prepared force loaded_models model w w1 →
    is_Some (fs w !! Load.onnx_file model) →
    head (faults w1) ≠ Some true →
    db_model_name model ∉ registry w1 →
    load_turn force loaded_models model counts w
      (Ok (S counts.1, counts.2))
      (record (Print (L_loaded (db_model_name model)))
         (set_registry (registry w1 ++ [db_model_name model])
            (issued (LoadOnnx (output model) (db_model_name model))
               (record (Stat (Load.onnx_file model)) w1)))).

(** Between two worlds: the files are the same, nothing went over the
    network, and no load of [file] was issued if [file] is absent. *)
Definition no_fetch (file : string) : relation World := λ w w',
  fs w' = fs w ∧
  filter is_network (log w') = filter is_network (log w) ∧
  (fs w !! ("onnx/" ++ file)%string = None →
   ∀ n, LoadOnnx file n ∈ log w' → LoadOnnx file n ∈ log w).

(** Between two worlds: the files are the same, the log has only grown,
    and the name [n] has stayed out of the registry if it was out and
    every model of [ms] carrying that name has no artifact file. *)
Definition stays_out (n : string) (ms : list Model) : relation World := λ w w',
  fs w' = fs w ∧
  log w `prefix_of` log w' ∧
  ((∀ m, m ∈ ms → db_model_name m = n → fs w !! Load.onnx_file m = None) →
   n ∉ registry w → n ∉ registry w').

(** The registry calls that name [n]. *)
Definition mentions (n : string) (e : Event) : bool :=
  match e with
  | DropOnnx x | LoadOnnx _ x => bool_decide (x = n)
  | _ => false
  end.

(** Between two worlds: the files are the same, no registry call named
    [n], and [n] is in the registry as often as before. *)
Definition untouched (n : string) : relation World := λ w w',
  fs w' = fs w ∧
  filter (mentions n) (log w') = filter (mentions n) (log w) ∧
  filter (λ x, x = n) (registry w') = filter (λ x, x = n) (registry w).

(** Between two worlds: files, password and reachability are the same,
    and the registry has only gained names, without repeating one. *)
Definition settled : relation World := λ w w',
  fs w' = fs w ∧ getenv_password w' = getenv_password w ∧
  reachable w' = reachable w ∧
  registry w ⊆ registry w' ∧
  (NoDup (registry w) → NoDup (registry w')).

(** Between two worlds: nothing but the log has changed, and the log has
    gained no call that changes the registry. *)
Definition quiet : relation World := λ w w',
  fs w' = fs w ∧ getenv_password w' = getenv_password w ∧
  reachable w' = reachable w ∧
  faults w' = faults w ∧ registry w' = registry w ∧
  filter is_mutation (log w') = filter is_mutation (log w).


(** ** A manifest and worlds to run the scripts on *)

Module Demo.

Definition model_a : Model :=
  {| id := "a"; name := "Model A"; url := "https://models.example/a.onnx";
     output := "a.onnx"; db_model_name := "MODEL_A"; description := "first" |}.

Definition model_b : Model :=
  {| id := "b"; name := "Model B"; url := "https://models.example/b.zip";
     output := "b.onnx"; db_model_name := "MODEL_B"; description := "second" |}.

Definition model_c : Model :=
  {| id := "c"; name := "Model C"; url := "https://models.example/c.onnx";
     output := "c.onnx"; db_model_name := "MODEL_C"; description := "third" |}.

Definition manifest : Config := {| models := [model_a; model_b; model_c] |}.

(** A world with the given manifest, the given artifacts in [onnx/], the
    given registered names and the given pending faults; the network
    serves nothing and nobody answers the prompt. *)
Definition world_of (manifest : Config) (artifacts : list string)
    (registered : list string) (pending : list bool) : World :=
  {| fs := <["models.json" := Json manifest]>
             (list_to_map ((λ f, (("onnx/" ++ f)%string, Binary "onnx")) <$> artifacts));
     password := Some "secret";
     dotenv := None;
     reachable := true;
     registry := registered;
     faults := pending;
     net := λ _, Refused;
     stdin := None;
     log := [] |}.

Definition world := world_of manifest.

Definition load_all : Load.Args :=
  {| Load.model_id := None; Load.list_flag := false; Load.force := false |}.

Definition load_all_force : Load.Args :=
  {| Load.model_id := None; Load.list_flag := false; Load.force := true |}.

Definition load_only (model_id : string) (force : bool) : Load.Args :=
  {| Load.model_id := Some model_id; Load.list_flag := false; Load.force := force |}.

End Demo.

(** A manifest whose two entries share their id and their registry name. *)
Definition twins : Config :=
  {| models :=
       [Demo.model_a;
        {| id := "a"; name := "Model A again"; url := "https://models.example/a2.onnx";
           output := "a2.onnx"; db_model_name := "MODEL_A"; description := "twin" |}] |}.

(** The arguments [--all -y] and [ids... -y] of the drop script. *)
Definition drop_all : Drop.Args :=
  {| Drop.model_ids := []; Drop.all := true; Drop.list_flag := false; Drop.yes := true |}.

Definition drop_ids (model_ids : list string) : Drop.Args :=
  {| Drop.model_ids := model_ids; Drop.all := false;
     Drop.list_flag := false; Drop.yes := true |}.

(** The world [w] with another network. *)
Definition with_net (answers : string → NetOutcome) (w : World) : World :=
  {| fs := fs w; password := password w; dotenv := dotenv w;
     reachable := reachable w;
     registry := registry w; faults := faults w; net := answers;
     stdin := stdin w; log := log w |}.

(** ** Words for what the scripts do and never do *)

(** Between two worlds: the log has gained events, all of them [P]. *)
Definition emits (P : Event → Prop) : relation World := λ w w',
  ∃ es, log w' = log w ++ es ∧ Forall P es.

(** The events of the session of the load script, for a snapshot and the
    files at hand: prints, the query, file checks, drops of names of the
    snapshot under [--force] only, loads of files that are present. *)
Definition load_event (force : bool) (loaded_models : gset string)
    (files : gmap string content) (e : Event) : bool :=
  match e with
  | Print _ | Query | Stat _ => true
  | DropOnnx n => force && bool_decide (n ∈ loaded_models)
  | LoadOnnx file _ => bool_decide (is_Some (files !! ("onnx/" ++ file)%string))
  | _ => false
  end.

(** The events of a whole run of the load script. *)
Definition load_main_event (args : Load.Args) (registered : list string)
    (files : gmap string content) (e : Event) : bool :=
  match e with
  | Open path => bool_decide (path = "models.json")
  | Connect | Close => true
  | _ => load_event (Load.force args) (list_to_set registered) files e
  end.

Definition load_trace (force : bool) (loaded_models : gset string) : relation World :=
  λ w w', fs w' = fs w ∧ emits (load_event force loaded_models (fs w)) w w'.

(** The events of the session of the drop script: prints, the query, the
    prompt, and drops of names of the snapshot. *)
Definition drop_event (loaded_models : gset string) (e : Event) : bool :=
  match e with
  | Print _ | Query | Prompt => true
  | DropOnnx n => bool_decide (n ∈ loaded_models)
  | _ => false
  end.

(** The events of a whole run of the drop script. *)
Definition drop_main_event (registered : list string) (e : Event) : bool :=
  match e with
  | Open path => bool_decide (path = "models.json")
  | Connect | Close => true
  | _ => drop_event (list_to_set registered) e
  end.

Definition drop_trace (loaded_models : gset string) : relation World :=
  λ w w', fs w' = fs w ∧ emits (drop_event loaded_models) w w'.

(** The models of the manifest of a world, when it has one. *)
Definition manifest_models (w : World) : list Model :=
  match fs w !! "models.json" with
  | Some (Json config) => models config
  | _ => []
  end.

(** The events of a run of the download script over the models [ms]:
    prints; opening the manifest or the temporary archive of a model; the
    check for the output file of a model; the download of the URL of a
    model, to its temporary archive when the URL ends in [.zip] and to its
    output file otherwise; the extraction of an entry whose name ends in
    [.onnx]; the deletion of the temporary archive of a model. *)
Definition download_event (ms : list Model) (e : Event) : Prop :=
  match e with
  | Print _ => True
  | Open path => path = "models.json" ∨ ∃ m, m ∈ ms ∧ path = Download.zip_path m
  | Stat path => ∃ m, m ∈ ms ∧ path = output m
  | Retrieve from to =>
      ∃ m, m ∈ ms ∧ from = url m ∧
           to = if endswith (url m) ".zip" then Download.zip_path m else output m
  | Extract entry => endswith entry ".onnx" = true
  | Unlink path => ∃ m, m ∈ ms ∧ path = Download.zip_path m
  | _ => False
  end.

(** Between two worlds of the download script: the database is as it was
    and the log has gained events of the download script only. *)
Definition download_trace (ms : list Model) : relation World := λ w w',
  registry w' = registry w ∧ faults w' = faults w ∧
  emits (download_event ms) w w'.

(** The events a run has added to the log of the world it started in. *)
Definition new_events (w w' : World) : list Event :=
  drop (length (log w)) (log w').

(** Whether [models.json] is there and parses as JSON, whatever it holds. *)
Definition manifest_parses (w : World) : bool :=
  match fs w !! "models.json" with
  | Some (Json _) | Some (OtherJson _) => true
  | _ => false
  end.

(** Whether a run of a database script gets its session: the manifest
    parses, the password is set (in the environment or, the variable being
    unset there, in [.env]) and the database answers. *)
Definition session_opens (w : World) : bool :=
  manifest_parses w && truthy_opt (getenv_password w) && reachable w.

(** Whether the drop script passes its two usage checks. *)
Definition drop_usage_ok (args : Drop.Args) : bool :=
  negb (negb (Drop.list_flag args) && negb (Drop.all args) &&
        bool_decide (Drop.model_ids args = [])) &&
  negb (Drop.all args && negb (bool_decide (Drop.model_ids args = []))).

(** The calls that register a model. *)
Definition is_load (e : Event) : bool :=
  match e with LoadOnnx _ _ => true | _ => false end.

(** The arguments [args] of the load script with [--force] set to [b]. *)
Definition with_force (b : bool) (args : Load.Args) : Load.Args :=
  {| Load.model_id := Load.model_id args; Load.list_flag := Load.list_flag args;
     Load.force := b |}.

(** The line of the confirmation prompt for one entry of the plan. *)
Definition confirm_line (t : Drop.Target) : Line :=
  if truthy_opt t.2 then L_confirm_known t.1 (default "" t.2) else L_confirm_orphan t.1.

(** Whether the operator's line at the prompt is a yes: [y], in either
    case, with white space around it or not. *)
Definition answer_is_yes (w : World) : bool :=
  match stdin w with
  | Some line => bool_decide (Drop.lower (Drop.strip line) = text "y")
  | None => false
  end.

(** Between two worlds: the files, the registry and the operator's line
    are the same, and no call that changes the registry was issued. *)
Definition undisturbed : relation World := λ w w',
  fs w' = fs w ∧ registry w' = registry w ∧ stdin w' = stdin w ∧
  filter is_mutation (log w') = filter is_mutation (log w).

(** The same, for a world whose operator does not say yes. *)
Definition declined : relation World := λ w w',
  answer_is_yes w = false → undisturbed w w'.

(** The summary line of the drop script. *)
Definition is_drop_summary (e : Event) : bool :=
  match e with Print (L_drop_done _) => true | _ => false end.

(** The world [w] with [line] waiting at the prompt. *)
Definition with_stdin (line : option Text) (w : World) : World :=
  {| fs := fs w; password := password w; dotenv := dotenv w;
     reachable := reachable w;
     registry := registry w; faults := faults w; net := net w;
     stdin := line; log := log w |}.


(** The models the download script selects for a target. *)
Definition models_to_download (target : option string) (config : Config) : list Model :=
  filter (λ m, target = None ∨ Some (id m) = target) (models config).

(** What the download script logs when it skips the models [ms]. *)
Definition skipped_downloads (ms : list Model) : list Event :=
  concat ((λ m, [Stat (output m); Print (L_skip_exists (output m))]) <$> ms).

(** Where the download of a model goes: the temporary archive when the
    URL ends in [.zip], the output file otherwise. *)
Definition download_target (m : Model) : string :=
  if endswith (url m) ".zip" then Download.zip_path m else output m.

(** The extractions from an archive. *)
Definition is_extract (e : Event) : bool :=
  match e with Extract _ => true | _ => false end.

(** Between two worlds: the files are the same and the name [n] is still
    registered if it was. *)
Definition keeps (n : string) : relation World := λ w w',
  fs w' = fs w ∧ (n ∈ registry w → n ∈ registry w').

(** * Properties *)

(** ** Running a computation step by step *)

Lemma bind_run {A B} (m : M A) (k : A → M B) w :
  (m ≫= k) w =
  match m w with
  | (Ok a, w') => k a w'
  | (Raise e, w') => (Raise e, w')
  | (Exit c, w') => (Exit c, w')
  end.
Proof. reflexivity. Qed.

Lemma bind_ok {A B} (m : M A) (k : A → M B) w a w' :
  m w = (Ok a, w') → (m ≫= k) w = k a w'.
Proof. intros H. rewrite bind_run, H. reflexivity. Qed.

Lemma bind_raise {A B} (m : M A) (k : A → M B) w e w' :
  m w = (Raise e, w') → (m ≫= k) w = (Raise e, w').
Proof. intros H. rewrite bind_run, H. reflexivity. Qed.

Lemma bind_ok_inv {A B} (m : M A) (k : A → M B) w b w2 :
  (m ≫= k) w = (Ok b, w2) → ∃ a w1, m w = (Ok a, w1) ∧ k a w1 = (Ok b, w2).
Proof.
  rewrite bind_run. destruct (m w) as [[a|e|c] w1]; intros H; try discriminate.
  exists a, w1. split; [reflexivity | exact H].
Qed.

Lemma for_each_cons {A S} (body : A → S → M S) x xs acc :
  for_each body (x :: xs) acc = (body x acc ≫= for_each body xs).
Proof. reflexivity. Qed.

(** A loop over [xs ++ ys] is the loop over [xs] followed by the loop
    over [ys]. *)
Lemma for_each_app {A S} (body : A → S → M S) xs ys acc w :
  for_each body (xs ++ ys) acc w = (for_each body xs acc ≫= for_each body ys) w.
Proof.
  revert acc w. induction xs as [|x xs IH]; intros acc w; [reflexivity|].
  rewrite <- app_comm_cons, !for_each_cons, !bind_run.
  destruct (body x acc w) as [[a|e|c] w1]; try reflexivity.
  rewrite IH, bind_run. reflexivity.
Qed.

(** A loop that ends normally took every one of its turns normally. *)
Lemma for_each_ok_split {A S} (body : A → S → M S) xs x ys acc w acc3 w3 :
  for_each body (xs ++ x :: ys) acc w = (Ok acc3, w3) →
  ∃ acc1 w1 acc2 w2,
    for_each body xs acc w = (Ok acc1, w1) ∧
    body x acc1 w1 = (Ok acc2, w2) ∧
    for_each body ys acc2 w2 = (Ok acc3, w3).
Proof.
  rewrite for_each_app. intros H.
  apply bind_ok_inv in H as (acc1 & w1 & H1 & H).
  rewrite for_each_cons in H.
  apply bind_ok_inv in H as (acc2 & w2 & H2 & H3).
  exists acc1, w1, acc2, w2. auto.
Qed.

(** The session is closed on every way out of the body. *)
Lemma try_finally_close {A} (m : M A) w :
  try_finally m conn_close w = ((m w).1, record Close (m w).2).
Proof. unfold try_finally. by destruct (m w). Qed.

(** ** Relations between the world before and the world after *)

Section Stability.
Context (R : relation World) `{!PreOrder R}.

Lemma stable_ret {A} (a : A) : stable R (mret a).
Proof. intros w. reflexivity. Qed.

Lemma stable_exit {A} c : stable R (@sys_exit A c).
Proof. intros w. reflexivity. Qed.

Lemma stable_raise {A} e : stable R (@raise A e).
Proof. intros w. reflexivity. Qed.

Lemma stable_bind {A B} (m : M A) (k : A → M B) :
  stable R m → (∀ a, stable R (k a)) → stable R (m ≫= k).
Proof.
  intros Hm Hk w. rewrite bind_run. specialize (Hm w).
  destruct (m w) as [[a|e|c] w1]; simpl in *; try exact Hm.
  etrans; [exact Hm | apply Hk].
Qed.

Lemma stable_for_each {A S} (body : A → S → M S) xs acc :
  (∀ x a, x ∈ xs → stable R (body x a)) → stable R (for_each body xs acc).
Proof.
  revert acc. induction xs as [|x xs IH]; intros acc H.
  - apply stable_ret.
  - rewrite for_each_cons. apply stable_bind.
    + apply H. left.
    + intros a. apply IH. intros y b Hy. apply H. right. exact Hy.
Qed.

Lemma stable_try_finally {A} (body : M A) (cleanup : M unit) :
  stable R body → stable R cleanup → stable R (try_finally body cleanup).
Proof.
  intros Hb Hc w. unfold try_finally. specialize (Hb w).
  destruct (body w) as [r w1]. specialize (Hc w1).
  destruct (cleanup w1) as [[[]|e|c] w2]; simpl in *; etrans; eauto.
Qed.

Lemma stable_except_db {A} (body handler : M A) :
  stable R body → stable R handler → stable R (except_db body handler).
Proof.
  intros Hb Hh w. unfold except_db. specialize (Hb w).
  destruct (body w) as [[a|[]|c] w1]; simpl in *; try exact Hb.
  etrans; [exact Hb | apply Hh].
Qed.

Lemma stable_if {A} (b : bool) (m1 m2 : M A) :
  stable R m1 → stable R m2 → stable R (if b then m1 else m2).
Proof. destruct b; auto. Qed.

(** A backend call is stable when issuing it and its effect are. *)
Lemma stable_backend {A} call (effect : M A) :
  (∀ w, R w (issued call w)) → stable R effect → stable R (backend call effect).
Proof.
  intros Hcall He w. unfold backend.
  destruct (head (faults w)) as [[]|]; simpl; try apply Hcall.
  all: etrans; [apply Hcall | apply He].
Qed.
End Stability.

(** ** The primitives, run *)

Lemma print_run l w : print l w = (Ok tt, record (Print l) w).
Proof. reflexivity. Qed.

Lemma backend_fails {A} call (effect : M A) w :
  head (faults w) = Some true →
  backend call effect w = (Raise DatabaseError, issued call w).
Proof. intros H. unfold backend. rewrite H. reflexivity. Qed.

Lemma backend_passes {A} call (effect : M A) w :
  head (faults w) ≠ Some true →
  backend call effect w = effect (issued call w).
Proof.
  intros H. unfold backend. destruct (head (faults w)) as [[]|]; congruence.
Qed.

Lemma drop_model_passes n w :
  head (faults w) ≠ Some true →
  drop_model n w =
    (Ok tt, record (Print (L_dropped n))
              (set_registry (filter (λ x, x ≠ n) (registry w)) (issued (DropOnnx n) w))).
Proof.
  intros H. unfold drop_model. rewrite bind_run, backend_passes by exact H.
  reflexivity.
Qed.

Lemma get_loaded_models_passes w :
  head (faults w) ≠ Some true →
  get_loaded_models w = (Ok (list_to_set (registry w)), issued Query w).
Proof. intros H. unfold get_loaded_models. rewrite backend_passes by exact H. reflexivity. Qed.

Lemma load_config_reads c w :
  fs w !! "models.json" = Some (Json c) →
  load_config w = (Ok (Manifest c), record (Open "models.json") w).
Proof. intros H. unfold load_config. simpl. rewrite H. reflexivity. Qed.

Lemma load_config_world w : (load_config w).2 = record (Open "models.json") w.
Proof. unfold load_config. simpl. by destruct (fs w !! "models.json") as [[]|]. Qed.

Lemma getenv_password_record e w : getenv_password (record e w) = getenv_password w.
Proof. reflexivity. Qed.

Lemma getenv_password_of_environment w :
  truthy_opt (password w) = true → truthy_opt (getenv_password w) = true.
Proof. unfold getenv_password. by destruct (password w). Qed.

Lemma get_db_connection_opens w :
  truthy_opt (getenv_password w) = true → reachable w = true →
  get_db_connection w = (Ok tt, record Connect w).
Proof. intros H1 H2. unfold get_db_connection. rewrite H1, H2. reflexivity. Qed.

(** ** One turn of the load loop *)

Lemma load_model_missing model w :
  fs w !! Load.onnx_file model = None →
  Load.load_model model w =
    (Ok false,
     record (Print (L_advise_download (id model)))
       (record (Print (L_skip_file_missing (output model)))
          (record (Stat (Load.onnx_file model)) w))).
Proof.
  intros H. unfold Load.load_model. rewrite bind_run. unfold exists_file.
  rewrite H. rewrite bool_decide_eq_false_2 by (intros [x Hx]; discriminate).
  reflexivity.
Qed.

Lemma load_model_present model w :
  is_Some (fs w !! Load.onnx_file model) →
  Load.load_model model w =
    (Load.load_onnx (output model) (db_model_name model) ;;
     print (L_loaded (db_model_name model)) ;;
     mret true) (record (Stat (Load.onnx_file model)) w).
Proof.
  intros H. unfold Load.load_model. rewrite bind_run. unfold exists_file.
  rewrite bool_decide_eq_true_2 by exact H. reflexivity.
Qed.

Lemma load_one_already_loaded loaded_models model counts w :
  db_model_name model ∈ loaded_models →
  Load.load_one false loaded_models model counts w =
    (Ok (counts.1, S counts.2),
     record (Print L_skip_already_loaded)
       (record (Print (L_model_header (id model) (name model))) w)).
Proof.
  intros H. unfold Load.load_one. rewrite bind_run, print_run.
  rewrite bool_decide_eq_true_2 by exact H. reflexivity.
Qed.

Lemma load_one_missing force loaded_models model counts w :
  db_model_name model ∉ loaded_models →
  fs w !! Load.onnx_file model = None →
  Load.load_one force loaded_models model counts w =
    (Ok (counts.1, S counts.2),
     record (Print (L_advise_download (id model)))
       (record (Print (L_skip_file_missing (output model)))
          (record (Stat (Load.onnx_file model))
             (record (Print (L_model_header (id model) (name model))) w)))).
Proof.
  intros Hn Hf. unfold Load.load_one. rewrite bind_run, print_run.
  rewrite bool_decide_eq_false_2 by exact Hn. cbv beta iota.
  unfold Load.load_and_count.
  rewrite bind_run, load_model_missing by exact Hf. reflexivity.
Qed.

Lemma load_one_force_missing loaded_models model counts w :
  db_model_name model ∈ loaded_models →
  fs w !! Load.onnx_file model = None →
  head (faults w) ≠ Some true →
  Load.load_one true loaded_models model counts w =
    (Ok (counts.1, S counts.2),
     record (Print (L_advise_download (id model)))
       (record (Print (L_skip_file_missing (output model)))
          (record (Stat (Load.onnx_file model))
             (record (Print (L_dropped (db_model_name model)))
                (set_registry
                   (filter (λ x, x ≠ db_model_name model) (registry w))
                   (issued (DropOnnx (db_model_name model))
                      (record (Print (L_model_header (id model) (name model))) w))))))).
Proof.
  intros Hn Hf Hq. unfold Load.load_one. rewrite bind_run, print_run.
  rewrite bool_decide_eq_true_2 by exact Hn. cbv beta iota.
  rewrite bind_run, drop_model_passes by exact Hq. cbv beta iota.
  unfold Load.load_and_count.
  rewrite bind_run, load_model_missing by exact Hf. reflexivity.
Qed.

(** ** Printing loops *)

Lemma for_each_print {A} (line : A → Line) xs w :
  for_each (λ x (_ : unit), print (line x)) xs tt w =
    (Ok tt, record_all (Print ∘ line <$> xs) w).
Proof.
  revert w. induction xs as [|x xs IH]; intros w; [reflexivity|].
  rewrite for_each_cons, bind_run, print_run. apply IH.
Qed.

Lemma record_all_app es1 es2 w :
  record_all (es1 ++ es2) w = record_all es2 (record_all es1 w).
Proof. unfold record_all. apply foldl_app. Qed.

Lemma log_record_all es w : log (record_all es w) = log w ++ es.
Proof.
  revert w. induction es as [|e es IH]; intros w; simpl.
  - by rewrite app_nil_r.
  - rewrite IH. simpl. by rewrite <- app_assoc.
Qed.

Lemma registry_record_all es w : registry (record_all es w) = registry w.
Proof. revert w. induction es as [|e es IH]; intros w; simpl; [done|by rewrite IH]. Qed.

Lemma fs_record_all es w : fs (record_all es w) = fs w.
Proof. revert w. induction es as [|e es IH]; intros w; simpl; [done|by rewrite IH]. Qed.

Lemma load_list_models_run config loaded_models w :
  Load.list_models config loaded_models w =
    (Ok tt,
     record_all
       (Print <$> [L_available_header; L_rule60] ++
                  ((λ model, L_status_row (id model)
                      (bool_decide (db_model_name model ∈ loaded_models))
                      (description model)) <$> models config) ++
                  [L_rule60]) w).
Proof.
  unfold Load.list_models. do 2 (rewrite bind_run, print_run; cbv beta iota).
  rewrite bind_run, (for_each_print (λ model, L_status_row (id model)
    (bool_decide (db_model_name model ∈ loaded_models)) (description model))).
  rewrite !fmap_app, !record_all_app, list_fmap_compose. reflexivity.
Qed.

(** ** The run of [load_models.main] around its loop *)

Lemma select_models_unknown args config loaded_models w :
  truthy_opt (Load.model_id args) = true →
  Load.models_to_load args config = [] →
  Load.select_models args config loaded_models w =
    (Exit 1,
     record_all
       (Print <$> [L_unknown_model (default "" (Load.model_id args));
                   L_available_header; L_rule60] ++
                  ((λ model, L_status_row (id model)
                      (bool_decide (db_model_name model ∈ loaded_models))
                      (description model)) <$> models config) ++
                  [L_rule60]) w).
Proof.
  intros Ht Hb. unfold Load.select_models.
  rewrite Ht, (bool_decide_eq_true_2 _ Hb). cbn [andb].
  rewrite bind_run, print_run. cbv beta iota.
  rewrite bind_run, load_list_models_run. reflexivity.
Qed.

Lemma select_models_some args config loaded_models w :
  Load.models_to_load args config ≠ [] →
  Load.select_models args config loaded_models w =
    (Ok (Load.models_to_load args config), w).
Proof.
  intros H. unfold Load.select_models.
  rewrite (bool_decide_eq_false_2 _ H), andb_false_r. reflexivity.
Qed.

(** With the manifest in place and the session and snapshot obtained, a
    run that is no [--list] run is its loop, then the summary, with the
    session closed whatever way the loop ends. *)
Lemma load_main_loop args config w :
  fs w !! "models.json" = Some (Json config) →
  truthy_opt (getenv_password w) = true → reachable w = true →
  head (faults w) ≠ Some true →
  Load.list_flag args = false →
  Load.models_to_load args config ≠ [] →
  Load.main args w =
    match for_each (Load.load_one (Load.force args) (list_to_set (registry w)))
            (Load.models_to_load args config) (0, 0)
            (record (Print (L_load_start (length (Load.models_to_load args config))))
               (started w)) with
    | (Ok counts, w2) =>
        (Ok tt, record Close (record (Print (L_load_done counts.1 counts.2)) w2))
    | (Raise e, w2) => (Raise e, record Close w2)
    | (Exit c, w2) => (Exit c, record Close w2)
    end.
Proof.
  intros Hm Hp Hr Hq Hl Hb. unfold Load.main.
  rewrite bind_run, (load_config_reads config) by exact Hm.
  rewrite bind_run. unfold except_db.
  rewrite get_db_connection_opens by assumption.
  unfold try_finally. rewrite bind_run, get_loaded_models_passes by exact Hq.
  rewrite Hl. rewrite bind_run, select_models_some by exact Hb.
  rewrite bind_run, print_run, bind_run. unfold started. simpl registry.
  destruct (for_each _ _ _ _) as [[counts|e|c] w2]; reflexivity.
Qed.

(** On a document without a list of models the load script never ends
    normally. *)
Lemma load_without_models_fails args e w :
  fs w !! "models.json" = Some (OtherJson e) → (Load.main args w).1 ≠ Ok tt.
Proof.
  intros Hm. unfold Load.main. rewrite bind_run. unfold load_config. simpl fs.
  rewrite Hm. cbv beta iota. rewrite bind_run.
  destruct (except_db _ _ _) as [[[]|?|?] w1]; try discriminate.
  rewrite try_finally_close, bind_run.
  destruct (get_loaded_models w1) as [[?|?|?] w2]; try discriminate.
  cbv beta iota. unfold Load.session_without_models.
  destruct (Load.list_flag args); discriminate.
Qed.

(** A run that is no [--list] run and ends normally went through its loop
    normally. *)
Lemma load_main_ok_inv args w w' :
  Load.list_flag args = false →
  Load.main args w = (Ok tt, w') →
  ∃ config counts w2,
    fs w !! "models.json" = Some (Json config) ∧
    head (faults w) ≠ Some true ∧
    for_each (Load.load_one (Load.force args) (list_to_set (registry w)))
      (Load.models_to_load args config) (0, 0)
      (record (Print (L_load_start (length (Load.models_to_load args config))))
         (started w)) = (Ok counts, w2) ∧
    w' = record Close (record (Print (L_load_done counts.1 counts.2)) w2).
Proof.
  intros Hl. unfold Load.main. rewrite bind_run. unfold load_config. simpl.
  destruct (fs w !! "models.json") as [[config| | | | |other]|] eqn:Hm; try discriminate.
  2: { rewrite bind_run.
       destruct (except_db _ _ _) as [[[]|?|?] w1]; try discriminate.
       rewrite try_finally_close, bind_run.
       destruct (get_loaded_models w1) as [[?|?|?] w2]; try discriminate.
       cbv beta iota. unfold Load.session_without_models. rewrite Hl. discriminate. }
  rewrite bind_run. unfold except_db, get_db_connection. simpl.
  rewrite ?getenv_password_record.
  destruct (truthy_opt (getenv_password w)); [|discriminate].
  destruct (reachable w); [|discriminate].
  unfold emit. cbn iota.
  unfold try_finally. rewrite bind_run. unfold get_loaded_models, backend. simpl.
  destruct (head (faults w)) as [[]|] eqn:Hq; try discriminate.
  all: rewrite Hl, bind_run.
  all: destruct (Load.select_models args config (list_to_set (registry w))
                   (issued Query (record Connect (record (Open "models.json") w))))
         as [[batch|e|c] w1] eqn:Hsel; try discriminate.
  all: unfold Load.select_models in Hsel.
  all: destruct (truthy_opt (Load.model_id args) &&
                 bool_decide (Load.models_to_load args config = [])) eqn:Hc;
         [apply andb_prop in Hc as [Ht Hb]; apply bool_decide_eq_true_1 in Hb;
          rewrite <- (andb_diag true) in Hsel at 1;
          pose proof (select_models_unknown args config (list_to_set (registry w))
            (issued Query (record Connect (record (Open "models.json") w))) Ht Hb) as Hx;
          unfold Load.select_models in Hx;
          rewrite Ht, (bool_decide_eq_true_2 _ Hb) in Hx; simpl in Hx, Hsel;
          rewrite Hx in Hsel; discriminate|].
  all: injection Hsel as <- <-.
  all: rewrite bind_run, print_run, bind_run.
  all: destruct (for_each _ _ _ _) as [[counts|e|c] w2] eqn:Hloop; try discriminate.
  all: intros [= <-]; exists config, counts, w2; repeat split; try done.
Qed.

(** ** What a turn of the load loop can do to the world *)

Lemma load_prepared_fs force loaded_models model w w1 :
  load_prepared force loaded_models model w w1 → fs w1 = fs w.
Proof. by intros []. Qed.

Lemma load_model_turn force loaded_models model counts w w1 :
  load_prepared force loaded_models model w w1 →
  load_turn force loaded_models model counts w
    (Load.load_and_count model counts w1).1
    (Load.load_and_count model counts w1).2.
Proof.
  intros Hw1. pose proof (load_prepared_fs _ _ _ _ _ Hw1) as Hfs.
  unfold Load.load_and_count. rewrite bind_run.
  destruct (fs w !! Load.onnx_file model) as [c|] eqn:Hf.
  - rewrite load_model_present by (rewrite Hfs, Hf; eauto).
    rewrite bind_run. unfold Load.load_onnx, backend. simpl faults.
    destruct (head (faults w1)) as [[]|] eqn:Hq; simpl.
    + apply turn_load_fails; eauto.
    + case_decide; simpl.
      * apply turn_load_fails; eauto.
      * apply turn_loaded; eauto. congruence.
    + case_decide; simpl.
      * apply turn_load_fails; eauto.
      * apply turn_loaded; eauto. congruence.
  - rewrite load_model_missing by (rewrite Hfs; exact Hf). simpl.
    apply turn_file_missing; assumption.
Qed.

(** Every turn goes one of the six ways. *)
Lemma load_one_turn force loaded_models model counts w :
  load_turn force loaded_models model counts w
    (Load.load_one force loaded_models model counts w).1
    (Load.load_one force loaded_models model counts w).2.
Proof.
  unfold Load.load_one. rewrite bind_run, print_run. cbv beta iota.
  destruct (decide (db_model_name model ∈ loaded_models)) as [Hin|Hin].
  - rewrite bool_decide_eq_true_2 by exact Hin. destruct force.
    + rewrite bind_run. unfold drop_model. rewrite bind_run. unfold backend.
      simpl faults.
      destruct (head (faults w)) as [[]|] eqn:Hq; cbv beta iota.
      * apply turn_drop_fails; auto.
      * rewrite print_run. cbv beta iota.
        refine (load_model_turn true _ _ _ w _ _).
        refine (prepared_dropped true loaded_models model w Hin eq_refl _).
        congruence.
      * rewrite print_run. cbv beta iota.
        refine (load_model_turn true _ _ _ w _ _).
        refine (prepared_dropped true loaded_models model w Hin eq_refl _).
        congruence.
    + simpl. apply turn_already_loaded; auto.
  - rewrite bool_decide_eq_false_2 by exact Hin.
    refine (load_model_turn force _ _ _ w _ _). apply prepared_fresh; auto.
Qed.

(** ** The load script fetches nothing *)

Global Instance no_fetch_preorder file : PreOrder (no_fetch file).
Proof.
  split.
  - intros w. unfold no_fetch. auto.
  - intros w1 w2 w3 (Hf1 & Hn1 & Hl1) (Hf2 & Hn2 & Hl2). unfold no_fetch.
    split; [congruence|]. split; [congruence|].
    intros Habs n Hin. apply Hl1; [exact Habs|]. apply Hl2; [|exact Hin].
    rewrite Hf1. exact Habs.
Qed.

Lemma no_fetch_record file e w :
  is_network e = false → (∀ n, e ≠ LoadOnnx file n) →
  no_fetch file w (record e w).
Proof.
  intros Hnet Hne. unfold no_fetch. simpl. split; [done|]. split.
  - rewrite filter_app, filter_cons, filter_nil.
    destruct (decide (is_network e)) as [H|H]; [|by rewrite app_nil_r].
    rewrite Hnet in H. done.
  - intros _ n Hin. apply elem_of_app in Hin as [Hin|Hin]; [exact Hin|].
    apply list_elem_of_singleton in Hin. destruct (Hne n). congruence.
Qed.

Lemma no_fetch_load_present file model w :
  is_Some (fs w !! Load.onnx_file model) →
  no_fetch file w (record (LoadOnnx (output model) (db_model_name model)) w).
Proof.
  intros Hpres. unfold no_fetch. simpl. split; [done|]. split.
  - rewrite filter_app, filter_cons, filter_nil. simpl. by rewrite app_nil_r.
  - intros Habs n Hin. apply elem_of_app in Hin as [Hin|Hin]; [exact Hin|].
    apply list_elem_of_singleton in Hin. injection Hin as Hfile _.
    unfold Load.onnx_file in Hpres. rewrite <- Hfile, Habs in Hpres.
    by destruct Hpres.
Qed.

Lemma no_fetch_issued file call w :
  is_network call = false → (∀ n, call ≠ LoadOnnx file n) →
  no_fetch file w (issued call w).
Proof.
  intros H1 H2. unfold issued.
  trans (record call w); [by apply no_fetch_record|].
  unfold no_fetch. simpl. auto.
Qed.

Lemma no_fetch_set_registry file r w : no_fetch file w (set_registry r w).
Proof. unfold no_fetch. simpl. auto. Qed.

Lemma no_fetch_prints file (ls : list Line) w :
  no_fetch file w (record_all (Print <$> ls) w).
Proof.
  revert w. induction ls as [|l ls IH]; intros w; simpl; [reflexivity|].
  etrans; [|apply IH]. by apply no_fetch_record.
Qed.

Lemma no_fetch_print file l : stable (no_fetch file) (print l).
Proof. intros w. by apply no_fetch_record. Qed.

Lemma no_fetch_load_one file force loaded_models model counts :
  stable (no_fetch file) (Load.load_one force loaded_models model counts).
Proof.
  intros w.
  assert (Hprep : ∀ w1, load_prepared force loaded_models model w w1 →
                        no_fetch file w w1).
  { intros w1 [Hfresh|Hin Hforce Hq].
    - by apply no_fetch_record.
    - etrans; [by apply (no_fetch_record file (Print (L_model_header (id model) (name model))))|].
      etrans; [by apply (no_fetch_issued file (DropOnnx (db_model_name model)))|].
      etrans; [apply no_fetch_set_registry|]. by apply no_fetch_record. }
  assert (Hload : ∀ w1, load_prepared force loaded_models model w w1 →
            is_Some (fs w !! Load.onnx_file model) →
            no_fetch file w
              (issued (LoadOnnx (output model) (db_model_name model))
                 (record (Stat (Load.onnx_file model)) w1))).
  { intros w1 Hw1 Hf. etrans; [exact (Hprep w1 Hw1)|].
    etrans; [by apply (no_fetch_record file (Stat (Load.onnx_file model)))|].
    unfold issued. etrans; [apply (no_fetch_load_present file model)|].
    - simpl. rewrite (load_prepared_fs _ _ _ _ _ Hw1). exact Hf.
    - unfold no_fetch. simpl. auto. }
  destruct (load_one_turn force loaded_models model counts w)
    as [Hin Hforce|Hin Hforce Hq|w1 Hw1 Hf|w1 Hw1 Hf Hq|w1 Hw1 Hf Hq Hfree].
  - etrans; by apply no_fetch_record.
  - etrans; [by apply (no_fetch_record file (Print (L_model_header (id model) (name model))))|].
    by apply no_fetch_issued.
  - etrans; [exact (Hprep w1 Hw1)|].
    etrans; [|by apply no_fetch_record].
    etrans; [|by apply no_fetch_record]. by apply no_fetch_record.
  - by apply Hload.
  - etrans; [by apply (Hload w1)|].
    etrans; [apply no_fetch_set_registry|]. by apply no_fetch_record.
Qed.

Lemma no_fetch_load_main file args : stable (no_fetch file) (Load.main args).
Proof.
  assert (Hconn : stable (no_fetch file)
                    (except_db get_db_connection (print L_connect_failed ;; sys_exit 1))).
  { apply stable_except_db; [apply _| |].
    - intros w. unfold get_db_connection.
      destruct (truthy_opt (getenv_password w)); [destruct (reachable w)|]; simpl.
      1,2: by apply no_fetch_record.
      etrans; by apply no_fetch_record.
    - apply stable_bind; [apply _|apply no_fetch_print|intros; apply stable_exit, _]. }
  assert (Hsnap : stable (no_fetch file) get_loaded_models).
  { apply stable_backend; [apply _| |].
    - intros w. by apply no_fetch_issued.
    - intros w. reflexivity. }
  unfold Load.main. apply stable_bind; [apply _| |intros [config|e]].
  { intros w. unfold load_config. simpl.
    destruct (fs w !! "models.json") as [[]|]; simpl; by apply no_fetch_record. }
  2: { apply stable_bind; [apply _|exact Hconn|intros _].
       apply stable_try_finally; [apply _| |intros w; by apply no_fetch_record].
       apply stable_bind; [apply _|exact Hsnap|intros loaded_models].
       unfold Load.session_without_models. apply stable_if; [|apply stable_raise, _].
       apply stable_bind; [apply _|apply no_fetch_print|intros _].
       apply stable_bind; [apply _|apply no_fetch_print|intros _].
       apply stable_raise, _. }
  apply stable_bind; [apply _|exact Hconn|intros _].
  apply stable_try_finally; [apply _| |intros w; by apply no_fetch_record].
  apply stable_bind; [apply _|exact Hsnap|intros loaded_models]. cbv beta iota.
  assert (Hlist : stable (no_fetch file) (Load.list_models config loaded_models)).
  { intros w. rewrite load_list_models_run. apply no_fetch_prints. }
  apply stable_if; [exact Hlist|].
  apply stable_bind; [apply _| |intros batch].
  { unfold Load.select_models. apply stable_if; [|apply stable_ret, _].
    apply stable_bind; [apply _|apply no_fetch_print|intros _].
    apply stable_bind; [apply _|exact Hlist|intros; apply stable_exit, _]. }
  apply stable_bind; [apply _|apply no_fetch_print|intros _].
  apply stable_bind; [apply _| |intros counts; apply no_fetch_print].
  apply stable_for_each; [apply _|]. intros model counts _.
  apply no_fetch_load_one.
Qed.

(** ** A name that stays out of the registry *)

Global Instance stays_out_preorder n ms : PreOrder (stays_out n ms).
Proof.
  split.
  - intros w. unfold stays_out. auto.
  - intros w1 w2 w3 (Hf1 & Hl1 & Hr1) (Hf2 & Hl2 & Hr2). unfold stays_out.
    split; [congruence|]. split; [by etrans|].
    intros Habs Hout. apply Hr2; [|by apply Hr1].
    intros m Hm Hn. rewrite Hf1. by apply Habs.
Qed.

Lemma stays_out_record n ms e w : stays_out n ms w (record e w).
Proof. unfold stays_out. simpl. split; [done|]. split; [by apply prefix_app_r|auto]. Qed.

Lemma stays_out_issued n ms call w : stays_out n ms w (issued call w).
Proof. unfold stays_out. simpl. split; [done|]. split; [by apply prefix_app_r|auto]. Qed.

Lemma stays_out_drop n ms x w :
  stays_out n ms w (set_registry (filter (λ y, y ≠ x) (registry w)) w).
Proof.
  unfold stays_out. simpl. split; [done|]. split; [done|].
  intros _ Hout Hin. apply list_elem_of_filter in Hin as [_ Hin]. by apply Hout.
Qed.

Lemma stays_out_load n ms model w :
  model ∈ ms → is_Some (fs w !! Load.onnx_file model) →
  stays_out n ms w (set_registry (registry w ++ [db_model_name model]) w).
Proof.
  intros Hm Hpres. unfold stays_out. simpl. split; [done|]. split; [done|].
  intros Habs Hout Hin. apply elem_of_app in Hin as [Hin|Hin]; [by apply Hout|].
  apply list_elem_of_singleton in Hin.
  rewrite (Habs model Hm (eq_sym Hin)) in Hpres. by destruct Hpres.
Qed.

Lemma stays_out_load_one n ms force loaded_models model counts :
  model ∈ ms →
  stable (stays_out n ms) (Load.load_one force loaded_models model counts).
Proof.
  intros Hm w.
  assert (Hprep : ∀ w1, load_prepared force loaded_models model w w1 →
                        stays_out n ms w w1).
  { intros w1 [Hfresh|Hin Hforce Hq].
    - apply stays_out_record.
    - etrans; [apply (stays_out_record n ms (Print (L_model_header (id model) (name model))))|].
      etrans; [apply (stays_out_issued n ms (DropOnnx (db_model_name model)))|].
      etrans; [apply (stays_out_drop n ms (db_model_name model))|].
      apply stays_out_record. }
  destruct (load_one_turn force loaded_models model counts w)
    as [Hin Hforce|Hin Hforce Hq|w1 Hw1 Hf|w1 Hw1 Hf Hq|w1 Hw1 Hf Hq Hfree].
  - etrans; apply stays_out_record.
  - etrans; [apply (stays_out_record n ms (Print (L_model_header (id model) (name model))))|].
    apply stays_out_issued.
  - etrans; [exact (Hprep w1 Hw1)|].
    etrans; [|apply stays_out_record].
    etrans; [|apply stays_out_record]. apply stays_out_record.
  - etrans; [exact (Hprep w1 Hw1)|].
    etrans; [apply (stays_out_record n ms (Stat (Load.onnx_file model)))|].
    apply stays_out_issued.
  - etrans; [exact (Hprep w1 Hw1)|].
    etrans; [apply (stays_out_record n ms (Stat (Load.onnx_file model)))|].
    etrans; [apply (stays_out_issued n ms (LoadOnnx (output model) (db_model_name model)))|].
    etrans; [apply (stays_out_load n ms model); [exact Hm|]|apply stays_out_record].
    simpl. rewrite (load_prepared_fs _ _ _ _ _ Hw1). exact Hf.
Qed.

Lemma stays_out_load_loop n ms force loaded_models batch counts w r w' :
  batch ⊆ ms →
  for_each (Load.load_one force loaded_models) batch counts w = (r, w') →
  stays_out n ms w w'.
Proof.
  intros Hsub Hrun.
  change w' with (r, w').2. rewrite <- Hrun. clear Hrun. revert w.
  apply stable_for_each; [apply _|].
  intros model c Hin. apply stays_out_load_one. by apply Hsub.
Qed.

(** ** C4: a missing artifact is skipped, never fetched *)

(** C4. For a descriptor whose registry name is not registered and whose
    artifact file is absent: the turn of the load loop prints the header,
    checks the file, prints the skip for the missing file and the advice
    to download it, and does nothing else, the registry and the files
    being as before.  When the descriptor is in the batch of a run of the
    load script that ends normally, the log of the run holds these four
    events, in this order and with nothing in between, and at the end of
    the run the name is not in the registry (provided no descriptor of the
    batch with the same registry name has its artifact file).  And the
    whole run, whatever its arguments and however it ends, leaves the
    files as they are, issues no network call, and issues no load of that
    artifact file. *)
Theorem missing_artifact_is_skipped_never_fetched args model w :
  fs w !! Load.onnx_file model = None →
  (∀ force loaded_models counts w1,
     fs w1 = fs w → db_model_name model ∉ loaded_models →
     ∃ w2,
       Load.load_one force loaded_models model counts w1 =
         (Ok (counts.1, S counts.2), w2) ∧
       log w2 = log w1 ++
         [Print (L_model_header (id model) (name model));
          Stat (Load.onnx_file model);
          Print (L_skip_file_missing (output model));
          Print (L_advise_download (id model))] ∧
       registry w2 = registry w1 ∧ fs w2 = fs w1) ∧
  (∀ config pre post w',
     Load.list_flag args = false →
     fs w !! "models.json" = Some (Json config) →
     Load.models_to_load args config = pre ++ model :: post →
     db_model_name model ∉ registry w →
     Load.main args w = (Ok tt, w') →
     (∃ before after,
        log w' = before ++
          [Print (L_model_header (id model) (name model));
           Stat (Load.onnx_file model);
           Print (L_skip_file_missing (output model));
           Print (L_advise_download (id model))] ++ after) ∧
     ((∀ m, m ∈ pre ++ model :: post → db_model_name m = db_model_name model →
            fs w !! Load.onnx_file m = None) →
      db_model_name model ∉ registry w')) ∧
  (∀ w', w' = (Load.main args w).2 →
     fs w' = fs w ∧
     filter is_network (log w') = filter is_network (log w) ∧
     ∀ n, LoadOnnx (output model) n ∈ log w' → LoadOnnx (output model) n ∈ log w).
Proof.
  intros Habs. split; [|split].
  - intros force loaded_models counts w1 Hfs Hfree.
    eexists. split; [apply load_one_missing; [exact Hfree|by rewrite Hfs]|].
    simpl. rewrite <- !app_assoc. auto.
  - intros config pre post w' Hlist Hman Hbatch Hreg Hrun.
    apply load_main_ok_inv in Hrun as (config' & counts & w3 & Hman' & Hq & Hloop & ->);
      [|exact Hlist].
    rewrite Hman in Hman'. injection Hman' as <-.
    rewrite Hbatch in Hloop.
    set (n := db_model_name model) in *.
    set (loaded := list_to_set (registry w) : gset string) in *.
    assert (Hout : n ∉ loaded).
    { intros Hin. by apply elem_of_list_to_set in Hin. }
    (* the whole loop keeps the name out *)
    destruct (stays_out_load_loop n (pre ++ model :: post) _ _ _ _ _ _ _
                (reflexivity _) Hloop) as (_ & _ & Hreg3).
    apply for_each_ok_split in Hloop as (c1 & w1 & c2 & w2 & Hpre & Hturn & Hpost).
    (* the turns before leave the files alone *)
    destruct (stays_out_load_loop n pre _ _ _ _ _ _ _ (reflexivity _) Hpre)
      as (Hfs1 & _ & _). simpl in Hfs1.
    assert (Hf1 : fs w1 !! Load.onnx_file model = None) by (by rewrite Hfs1).
    (* the turn of the model *)
    rewrite (load_one_missing _ _ _ _ _ Hout Hf1) in Hturn.
    injection Hturn as _ <-.
    (* the turns after only add to the log *)
    destruct (stays_out_load_loop n post _ _ _ _ _ _ _ (reflexivity _) Hpost)
      as (_ & [after Hlog3] & _).
    simpl in Hlog3. split.
    + exists (log w1), (after ++ [Print (L_load_done counts.1 counts.2); Close]).
      simpl. rewrite Hlog3. rewrite <- !app_assoc. reflexivity.
    + intros Hnone. simpl. apply Hreg3; [exact Hnone|exact Hreg].
  - intros w' ->.
    destruct (no_fetch_load_main (output model) args w) as (Hfs & Hnet & Hload).
    auto.
Qed.

Lemma missing_artifact_is_skipped_never_fetched_witness :
  let w := Demo.world ["a.onnx"] [] [] in
  let w' := (Load.main Demo.load_all w).2 in
  (∃ w2,
     Load.load_one false ∅ Demo.model_b (0, 0) w = (Ok (0, 1), w2) ∧
     log w2 = log w ++
       [Print (L_model_header "b" "Model B"); Stat "onnx/b.onnx";
        Print (L_skip_file_missing "b.onnx"); Print (L_advise_download "b")] ∧
     registry w2 = registry w ∧ fs w2 = fs w) ∧
  ((∃ before after,
      log w' = before ++
        [Print (L_model_header "b" "Model B"); Stat "onnx/b.onnx";
         Print (L_skip_file_missing "b.onnx"); Print (L_advise_download "b")] ++ after) ∧
   "MODEL_B" ∉ registry w') ∧
  fs w' = fs w ∧
  filter is_network (log w') = filter is_network (log w) ∧
  ∀ n, LoadOnnx "b.onnx" n ∈ log w' → LoadOnnx "b.onnx" n ∈ log w.
Proof.
  intros w w'.
  destruct (missing_artifact_is_skipped_never_fetched Demo.load_all Demo.model_b w)
    as (Hturn & Hrun & Hnever); [reflexivity|].
  split; [apply (Hturn false ∅ (0, 0) w); [reflexivity|apply not_elem_of_empty]|].
  split; [|by apply Hnever].
  destruct (Hrun Demo.manifest [Demo.model_a] [Demo.model_c] w') as [Hlog Hreg].
  - reflexivity.
  - reflexivity.
  - reflexivity.
  - apply not_elem_of_nil.
  - vm_compute. reflexivity.
  - split; [exact Hlog|]. apply Hreg. intros m Hm Hname. simpl in Hm.
    repeat (apply elem_of_cons in Hm as [->|Hm]); try discriminate; try reflexivity.
    by apply elem_of_nil in Hm.
Defined.

(** The scenario of the specification: two descriptors, the artifact of
    the first present and of the second absent, nothing registered;
    registering all loads the first, skips the second, and leaves the
    registry with the first name only. *)
Example register_all_scenario :
  let config := {| models := [Demo.model_a; Demo.model_b] |} in
  let r := Load.main Demo.load_all (Demo.world_of config ["a.onnx"] [] []) in
  r.1 = Ok tt ∧ registry r.2 = ["MODEL_A"] ∧
  log r.2 =
    [Open "models.json"; Connect; Query; Print (L_load_start 2);
     Print (L_model_header "a" "Model A"); Stat "onnx/a.onnx";
     LoadOnnx "a.onnx" "MODEL_A"; Print (L_loaded "MODEL_A");
     Print (L_model_header "b" "Model B"); Stat "onnx/b.onnx";
     Print (L_skip_file_missing "b.onnx"); Print (L_advise_download "b");
     Print (L_load_done 1 1); Close].
Proof. vm_compute. repeat split; reflexivity. Qed.

(** ** C10: under [--force] the drop comes before the file check *)

(** A turn under [--force] on a registered name without artifact file,
    when it ends normally, went the one way it can. *)
Lemma load_one_force_missing_inv loaded_models model counts w counts' w' :
  db_model_name model ∈ loaded_models →
  fs w !! Load.onnx_file model = None →
  Load.load_one true loaded_models model counts w = (Ok counts', w') →
  head (faults w) ≠ Some true.
Proof.
  intros Hin Hf Hrun Hq. unfold Load.load_one in Hrun.
  rewrite bind_run, print_run in Hrun. cbv beta iota in Hrun.
  rewrite bool_decide_eq_true_2 in Hrun by exact Hin.
  rewrite bind_run in Hrun. unfold drop_model in Hrun.
  rewrite bind_run, backend_fails in Hrun by exact Hq. discriminate.
Qed.

(** C10. In a run of the load script under [--force] that ends normally,
    for a descriptor of the batch whose registry name is registered at the
    start and whose artifact file is absent, the log shows, in this order
    and with nothing in between: the header, the drop of the name, its
    confirmation, the check of the file, the skip for the missing file and
    the advice to download.  The drop is issued before the file is
    checked, and at the end of the run the name is not in the registry
    (provided no later descriptor of the batch with the same registry name
    has its artifact file). *)
Theorem force_drops_before_file_check args config pre model post w w' :
  Load.force args = true → Load.list_flag args = false →
  fs w !! "models.json" = Some (Json config) →
  Load.models_to_load args config = pre ++ model :: post →
  db_model_name model ∈ registry w →
  (∀ m, m ∈ model :: post → db_model_name m = db_model_name model →
        fs w !! Load.onnx_file m = None) →
  Load.main args w = (Ok tt, w') →
  (∃ before after,
     log w' = before ++
       [Print (L_model_header (id model) (name model));
        DropOnnx (db_model_name model);
        Print (L_dropped (db_model_name model));
        Stat (Load.onnx_file model);
        Print (L_skip_file_missing (output model));
        Print (L_advise_download (id model))] ++ after) ∧
  db_model_name model ∉ registry w'.
Proof.
  intros Hforce Hlist Hman Hbatch Hreg Habs Hrun.
  apply load_main_ok_inv in Hrun as (config' & counts & w3 & Hman' & Hq & Hloop & ->);
    [|exact Hlist].
  rewrite Hman in Hman'. injection Hman' as <-.
  rewrite Hbatch, Hforce in Hloop.
  apply for_each_ok_split in Hloop as (c1 & w1 & c2 & w2 & Hpre & Hturn & Hpost).
  set (n := db_model_name model) in *.
  set (loaded := list_to_set (registry w) : gset string) in *.
  assert (Hin : n ∈ loaded) by (by apply elem_of_list_to_set).
  (* the turns before leave the files alone *)
  destruct (stays_out_load_loop n pre _ _ _ _ _ _ _ (reflexivity _) Hpre)
    as (Hfs1 & _ & _). simpl in Hfs1.
  assert (Hf1 : fs w1 !! Load.onnx_file model = None).
  { rewrite Hfs1. apply Habs; [left|done]. }
  (* the turn of the model *)
  pose proof (load_one_force_missing_inv _ _ _ _ _ _ Hin Hf1 Hturn) as Hq1.
  rewrite (load_one_force_missing _ _ _ _ Hin Hf1 Hq1) in Hturn.
  injection Hturn as _ <-.
  (* the turns after *)
  assert (Hsub : post ⊆ model :: post) by set_solver.
  destruct (stays_out_load_loop n (model :: post) _ _ _ _ _ _ _ Hsub Hpost)
    as (Hfs3 & [after Hlog3] & Hreg3).
  simpl in Hfs3, Hlog3, Hreg3. split.
  - exists (log w1), (after ++ [Print (L_load_done counts.1 counts.2); Close]).
    simpl. rewrite Hlog3. rewrite <- !app_assoc. reflexivity.
  - simpl. apply Hreg3.
    + intros m Hm Hn. rewrite Hfs1. by apply Habs.
    + intros Hx. apply list_elem_of_filter in Hx as [Hx _]. by apply Hx.
Qed.

Lemma force_drops_before_file_check_witness :
  let w := Demo.world [] ["MODEL_A"] [] in
  let w' := (Load.main (Demo.load_only "a" true) w).2 in
  (∃ before after,
     log w' = before ++
       [Print (L_model_header "a" "Model A"); DropOnnx "MODEL_A";
        Print (L_dropped "MODEL_A"); Stat "onnx/a.onnx";
        Print (L_skip_file_missing "a.onnx"); Print (L_advise_download "a")] ++ after) ∧
  "MODEL_A" ∉ registry w'.
Proof.
  intros w w'.
  apply (force_drops_before_file_check (Demo.load_only "a" true) Demo.manifest
           [] Demo.model_a [] w w').
  - reflexivity.
  - reflexivity.
  - reflexivity.
  - reflexivity.
  - left.
  - intros m Hm _. apply list_elem_of_singleton in Hm as ->. reflexivity.
  - vm_compute. reflexivity.
Defined.

(** ** C2: force-replace of a registered model *)

Global Instance untouched_preorder n : PreOrder (untouched n).
Proof.
  split.
  - intros w. unfold untouched. auto.
  - intros w1 w2 w3 (Hf1 & Hl1 & Hr1) (Hf2 & Hl2 & Hr2). unfold untouched.
    repeat split; congruence.
Qed.

Lemma filter_snoc_no {A} (P : A → Prop) `{!∀ x, Decision (P x)} l x :
  ¬ P x → filter P (l ++ [x]) = filter P l.
Proof.
  intros HP. rewrite filter_app, filter_cons, filter_nil.
  destruct (decide (P x)); [done|by rewrite app_nil_r].
Qed.

Lemma untouched_record n e w : mentions n e = false → untouched n w (record e w).
Proof.
  intros H. unfold untouched. simpl. repeat split.
  apply filter_snoc_no. rewrite H. auto.
Qed.

Lemma untouched_issued n call w :
  mentions n call = false → untouched n w (issued call w).
Proof.
  intros H. unfold untouched. simpl. repeat split.
  apply filter_snoc_no. rewrite H. auto.
Qed.

Lemma untouched_drop n x w :
  x ≠ n → untouched n w (set_registry (filter (λ y, y ≠ x) (registry w)) w).
Proof.
  intros H. unfold untouched. simpl. repeat split.
  induction (registry w) as [|y l IH]; [done|].
  rewrite !filter_cons.
  destruct (decide (y ≠ x)) as [Hy|Hy]; destruct (decide (y = n)) as [Hn|Hn];
    rewrite ?filter_cons, ?decide_True by done; rewrite ?decide_False by done;
    try congruence.
  destruct Hy. congruence.
Qed.

Lemma untouched_load n x w :
  x ≠ n → untouched n w (set_registry (registry w ++ [x]) w).
Proof.
  intros H. unfold untouched. simpl. repeat split. by apply filter_snoc_no.
Qed.

Lemma untouched_load_one n force loaded_models model counts :
  db_model_name model ≠ n →
  stable (untouched n) (Load.load_one force loaded_models model counts).
Proof.
  intros Hne w.
  assert (Hm : ∀ f, mentions n (LoadOnnx f (db_model_name model)) = false)
    by (intros f; simpl; by apply bool_decide_eq_false_2).
  assert (Hd : mentions n (DropOnnx (db_model_name model)) = false)
    by (simpl; by apply bool_decide_eq_false_2).
  assert (Hprep : ∀ w1, load_prepared force loaded_models model w w1 →
                        untouched n w w1).
  { intros w1 [Hfresh|Hin Hforce Hq].
    - by apply untouched_record.
    - etrans; [by apply (untouched_record n (Print (L_model_header (id model) (name model))))|].
      etrans; [by apply (untouched_issued n (DropOnnx (db_model_name model)))|].
      etrans; [by apply (untouched_drop n (db_model_name model))|].
      by apply untouched_record. }
  destruct (load_one_turn force loaded_models model counts w)
    as [Hin Hforce|Hin Hforce Hq|w1 Hw1 Hf|w1 Hw1 Hf Hq|w1 Hw1 Hf Hq Hfree].
  - etrans; by apply untouched_record.
  - etrans; [by apply (untouched_record n (Print (L_model_header (id model) (name model))))|].
    by apply untouched_issued.
  - etrans; [exact (Hprep w1 Hw1)|].
    etrans; [|by apply untouched_record].
    etrans; [|by apply untouched_record]. by apply untouched_record.
  - etrans; [exact (Hprep w1 Hw1)|].
    etrans; [by apply (untouched_record n (Stat (Load.onnx_file model)))|].
    by apply untouched_issued.
  - etrans; [exact (Hprep w1 Hw1)|].
    etrans; [by apply (untouched_record n (Stat (Load.onnx_file model)))|].
    etrans; [by apply (untouched_issued n (LoadOnnx (output model) (db_model_name model)))|].
    etrans; [by apply (untouched_load n (db_model_name model))|].
    by apply untouched_record.
Qed.

Lemma untouched_load_loop n force loaded_models batch counts w r w' :
  (∀ m, m ∈ batch → db_model_name m ≠ n) →
  for_each (Load.load_one force loaded_models) batch counts w = (r, w') →
  untouched n w w'.
Proof.
  intros Hne Hrun.
  change w' with (r, w').2. rewrite <- Hrun. clear Hrun. revert w.
  apply stable_for_each; [apply _|].
  intros model c Hin. apply untouched_load_one. by apply Hne.
Qed.

Lemma filter_eq_after_ne (n : string) l :
  filter (λ x, x = n) (filter (λ x, x ≠ n) l) = [].
Proof.
  induction l as [|y l IH]; [done|]. rewrite filter_cons.
  destruct (decide (y ≠ n)) as [Hy|Hy]; [|exact IH].
  rewrite filter_cons, decide_False by done. exact IH.
Qed.

(** A turn under [--force] on a registered name whose artifact file is
    present, when it ends normally, dropped the name and loaded it. *)
Lemma load_one_force_present_inv loaded_models model counts w counts' w' :
  db_model_name model ∈ loaded_models →
  is_Some (fs w !! Load.onnx_file model) →
  Load.load_one true loaded_models model counts w = (Ok counts', w') →
  counts' = (S counts.1, counts.2) ∧
  fs w' = fs w ∧
  log w' = log w ++
    [Print (L_model_header (id model) (name model));
     DropOnnx (db_model_name model);
     Print (L_dropped (db_model_name model));
     Stat (Load.onnx_file model);
     LoadOnnx (output model) (db_model_name model);
     Print (L_loaded (db_model_name model))] ∧
  registry w' =
    filter (λ x, x ≠ db_model_name model) (registry w) ++ [db_model_name model].
Proof.
  intros Hin Hpres Hrun.
  pose proof (load_one_turn true loaded_models model counts w) as Ht.
  rewrite Hrun in Ht. simpl in Ht.
  inversion Ht as [? Hforce|? ? ?|w1 Hw1 Hf|w1 Hw1 Hf Hq|w1 Hw1 Hf Hq Hfree];
    subst; try discriminate.
  - rewrite Hf in Hpres. by destruct Hpres.
  - inversion Hw1 as [Hfresh|? ? Hq0]; subst; [done|].
    simpl. rewrite <- !app_assoc. auto.
Qed.

(** C2, as stated, fails: with [--force], a registered target whose
    artifact file is absent is dropped and not registered again.  Here
    MODEL_A is registered and [onnx/a.onnx] is absent: one drop, no load,
    and the registry is left without the name. *)
Lemma force_without_artifact_only_drops :
  let args := Demo.load_only "a" true in
  let w := Demo.world [] ["MODEL_A"] [] in
  let w' := (Load.main args w).2 in
  Load.force args = true ∧
  Load.models_to_load args Demo.manifest = [Demo.model_a] ∧
  db_model_name Demo.model_a ∈ registry w ∧
  (Load.main args w).1 = Ok tt ∧
  filter (mentions "MODEL_A") (log w') = [DropOnnx "MODEL_A"] ∧
  registry w' = [].
Proof. vm_compute. repeat split; try reflexivity. left. Qed.

(** C2, amended. In a run of the load script under [--force] that ends
    normally, for a descriptor of the batch whose registry name is
    registered at the start, whose artifact file is present, and whose
    registry name no other descriptor of the batch carries, the registry
    calls naming it are exactly one drop followed by one load, and at the
    end the registry holds the name exactly once. *)
Theorem force_replaces_registered_model args config pre model post w w' :
  Load.force args = true → Load.list_flag args = false →
  fs w !! "models.json" = Some (Json config) →
  Load.models_to_load args config = pre ++ model :: post →
  (∀ m, m ∈ pre ++ post → db_model_name m ≠ db_model_name model) →
  db_model_name model ∈ registry w →
  is_Some (fs w !! Load.onnx_file model) →
  Load.main args w = (Ok tt, w') →
  filter (mentions (db_model_name model)) (log w') =
    filter (mentions (db_model_name model)) (log w) ++
    [DropOnnx (db_model_name model);
     LoadOnnx (output model) (db_model_name model)] ∧
  filter (λ x, x = db_model_name model) (registry w') = [db_model_name model].
Proof.
  intros Hforce Hlist Hman Hbatch Huniq Hreg Hpres Hrun.
  apply load_main_ok_inv in Hrun as (config' & counts & w3 & Hman' & Hq & Hloop & ->);
    [|exact Hlist].
  rewrite Hman in Hman'. injection Hman' as <-.
  rewrite Hbatch, Hforce in Hloop.
  apply for_each_ok_split in Hloop as (c1 & w1 & c2 & w2 & Hpre & Hturn & Hpost).
  set (n := db_model_name model) in *.
  assert (Hin : n ∈ (list_to_set (registry w) : gset string))
    by (by apply elem_of_list_to_set).
  destruct (untouched_load_loop n _ _ _ _ _ _ _
              (λ m Hm, Huniq m (proj2 (elem_of_app _ _ _) (or_introl Hm))) Hpre)
    as (Hfs1 & Hlog1 & Hreg1).
  simpl in Hfs1, Hlog1, Hreg1.
  rewrite !filter_snoc_no in Hlog1 by (simpl; auto).
  apply load_one_force_present_inv in Hturn as (_ & Hfs2 & Hlog2 & Hreg2);
    [|exact Hin|by rewrite Hfs1].
  destruct (untouched_load_loop n _ _ _ _ _ _ _
              (λ m Hm, Huniq m (proj2 (elem_of_app _ _ _) (or_intror Hm))) Hpost)
    as (Hfs3 & Hlog3 & Hreg3).
  simpl. rewrite !filter_snoc_no by (simpl; auto).
  rewrite Hlog3, Hreg3, Hlog2, Hreg2. split.
  - rewrite filter_app, Hlog1. f_equal.
    rewrite !filter_cons, filter_nil. simpl. fold n.
    rewrite !decide_True by (by apply bool_decide_pack). reflexivity.
  - rewrite filter_app, filter_eq_after_ne, filter_cons, filter_nil.
    by rewrite decide_True.
Qed.

Lemma force_replaces_registered_model_witness :
  let w := Demo.world ["a.onnx"; "c.onnx"] ["MODEL_A"; "ORPHAN"] [] in
  let w' := (Load.main Demo.load_all_force w).2 in
  filter (mentions "MODEL_A") (log w') =
    filter (mentions "MODEL_A") (log w) ++
    [DropOnnx "MODEL_A"; LoadOnnx "a.onnx" "MODEL_A"] ∧
  filter (λ x, x = "MODEL_A") (registry w') = ["MODEL_A"].
Proof.
  intros w w'.
  apply (force_replaces_registered_model Demo.load_all_force Demo.manifest
           [] Demo.model_a [Demo.model_b; Demo.model_c] w w').
  - reflexivity.
  - reflexivity.
  - reflexivity.
  - reflexivity.
  - intros m Hm. simpl in Hm. apply elem_of_cons in Hm as [->|Hm]; [discriminate|].
    apply list_elem_of_singleton in Hm as ->. discriminate.
  - left.
  - eexists. reflexivity.
  - vm_compute. reflexivity.
Defined.

(** ** C3: registering without [--force] is idempotent *)

(** A run that ends normally had its password and its session. *)
Lemma load_main_ok_session args w w' :
  Load.main args w = (Ok tt, w') →
  truthy_opt (getenv_password w) = true ∧ reachable w = true.
Proof.
  intros Hrun.
  destruct (fs w !! "models.json") as [[config| | | | |other]|] eqn:Hm.
  6: { exfalso. apply (load_without_models_fails args other w Hm). by rewrite Hrun. }
  all: revert Hrun; unfold Load.main; rewrite bind_run; unfold load_config; simpl;
    rewrite Hm; try discriminate.
  rewrite bind_run. unfold except_db, get_db_connection. simpl.
  rewrite ?getenv_password_record.
  destruct (truthy_opt (getenv_password w)); [|discriminate].
  destruct (reachable w); [|discriminate]. auto.
Qed.

Global Instance settled_preorder : PreOrder settled.
Proof.
  split.
  - intros w. unfold settled. auto.
  - intros w1 w2 w3 (Hf1 & Hp1 & Hr1 & Hs1 & Hn1) (Hf2 & Hp2 & Hr2 & Hs2 & Hn2).
    unfold settled. repeat split; try congruence; [by etrans|auto].
Qed.

Lemma settled_record e w : settled w (record e w).
Proof. unfold settled. simpl. auto. Qed.

Lemma settled_issued call w : settled w (issued call w).
Proof. unfold settled. simpl. auto. Qed.

Lemma settled_load x w :
  x ∉ registry w → settled w (set_registry (registry w ++ [x]) w).
Proof.
  intros Hx. unfold settled. simpl. repeat split; [set_solver|].
  intros Hnd. apply NoDup_app. repeat split; [done| |apply NoDup_singleton].
  intros y Hy Hy'. apply list_elem_of_singleton in Hy' as ->. done.
Qed.

Lemma settled_load_one loaded_models model counts :
  stable settled (Load.load_one false loaded_models model counts).
Proof.
  intros w.
  assert (Hprep : ∀ w1, load_prepared false loaded_models model w w1 → settled w w1).
  { intros w1 [Hfresh|Hin Hforce Hq]; [apply settled_record|discriminate]. }
  destruct (load_one_turn false loaded_models model counts w)
    as [Hin Hforce|Hin Hforce Hq|w1 Hw1 Hf|w1 Hw1 Hf Hq|w1 Hw1 Hf Hq Hfree].
  - etrans; apply settled_record.
  - discriminate.
  - etrans; [exact (Hprep w1 Hw1)|].
    etrans; [|apply settled_record].
    etrans; [|apply settled_record]. apply settled_record.
  - etrans; [exact (Hprep w1 Hw1)|].
    etrans; [apply (settled_record (Stat (Load.onnx_file model)))|].
    apply settled_issued.
  - etrans; [exact (Hprep w1 Hw1)|].
    etrans; [apply (settled_record (Stat (Load.onnx_file model)))|].
    etrans; [apply (settled_issued (LoadOnnx (output model) (db_model_name model)))|].
    etrans; [by apply (settled_load (db_model_name model))|apply settled_record].
Qed.

Lemma settled_load_loop loaded_models batch counts w r w' :
  for_each (Load.load_one false loaded_models) batch counts w = (r, w') →
  settled w w'.
Proof.
  intros Hrun. change w' with (r, w').2. rewrite <- Hrun. clear Hrun. revert w.
  apply stable_for_each; [apply _|]. intros model c _. apply settled_load_one.
Qed.

(** After a loop without [--force] that ended normally, every model of
    the batch is in the snapshot, or registered, or without its file. *)
Lemma load_loop_covers loaded_models batch counts w counts' w' :
  for_each (Load.load_one false loaded_models) batch counts w = (Ok counts', w') →
  ∀ m, m ∈ batch →
    db_model_name m ∈ loaded_models ∨ db_model_name m ∈ registry w' ∨
    fs w !! Load.onnx_file m = None.
Proof.
  revert counts w. induction batch as [|x batch IH]; intros counts w Hrun m Hm.
  { by apply elem_of_nil in Hm. }
  rewrite for_each_cons in Hrun.
  apply bind_ok_inv in Hrun as (c1 & w1 & Hturn & Hrest).
  pose proof (settled_load_loop _ _ _ _ _ _ Hrest) as (Hfs & _ & _ & Hsub & _).
  apply elem_of_cons in Hm as [->|Hm].
  - pose proof (load_one_turn false loaded_models x counts w) as Ht.
    rewrite Hturn in Ht. simpl in Ht.
    inversion Ht as [Hin ?|? ? ?|w0 Hw0 Hf|w0 Hw0 Hf Hq|w0 Hw0 Hf Hq Hfree];
      subst; try discriminate; auto.
    right; left. apply Hsub. simpl. set_solver.
  - destruct (IH _ _ Hrest m Hm) as [H|[H|H]]; auto.
    right; right. rewrite <- H.
    pose proof (settled_load_loop loaded_models [x] counts w (Ok c1) w1) as Hs.
    rewrite for_each_cons, bind_run, Hturn in Hs. destruct (Hs eq_refl) as (Hfs1 & _).
    by rewrite Hfs1.
Qed.

Lemma quiet_refl w : quiet w w.
Proof. unfold quiet. repeat split. Qed.

Lemma quiet_trans w1 w2 w3 : quiet w1 w2 → quiet w2 w3 → quiet w1 w3.
Proof.
  intros (?&?&?&?&?&?) (?&?&?&?&?&?). unfold quiet. repeat split; congruence.
Qed.

Lemma quiet_record e w : is_mutation e = false → quiet w (record e w).
Proof.
  intros H. unfold quiet. simpl. repeat split.
  apply filter_snoc_no. rewrite H. auto.
Qed.

(** A loop without [--force] over models that are all in the snapshot or
    without their file ends normally and is quiet. *)
Lemma load_loop_all_skipped loaded_models batch counts w :
  (∀ m, m ∈ batch →
     db_model_name m ∈ loaded_models ∨ fs w !! Load.onnx_file m = None) →
  ∃ counts' w',
    for_each (Load.load_one false loaded_models) batch counts w = (Ok counts', w') ∧
    quiet w w'.
Proof.
  revert counts w. induction batch as [|x batch IH]; intros counts w Hall.
  { exists counts, w. split; [reflexivity|apply quiet_refl]. }
  assert (Hstep : ∃ c1 w1,
    Load.load_one false loaded_models x counts w = (Ok c1, w1) ∧ quiet w w1).
  { destruct (decide (db_model_name x ∈ loaded_models)) as [Hin|Hout].
    - eexists _, _. split; [by apply load_one_already_loaded|].
      eapply quiet_trans; by apply quiet_record.
    - destruct (Hall x) as [Hin|Hf]; [left|done|].
      eexists _, _. split; [by apply load_one_missing|].
      repeat (eapply quiet_trans; [|by apply quiet_record]). apply quiet_refl. }
  destruct Hstep as (c1 & w1 & Hturn & Hq1).
  destruct (IH c1 w1) as (c2 & w2 & Hrest & Hq2).
  { intros m Hm. destruct Hq1 as (Hfs & _). rewrite Hfs. apply Hall. by right. }
  exists c2, w2. split; [|by eapply quiet_trans].
  by rewrite for_each_cons, bind_run, Hturn.
Qed.

Lemma untouched_load_one_registered n loaded_models model counts :
  n ∈ loaded_models →
  stable (untouched n) (Load.load_one false loaded_models model counts).
Proof.
  intros Hin. destruct (decide (db_model_name model = n)) as [<-|Hne].
  - intros w. rewrite load_one_already_loaded by exact Hin.
    etrans; by apply untouched_record.
  - by apply untouched_load_one.
Qed.

(** In a run without [--force] that ends normally, a model of the batch
    whose name is registered at the start is skipped as already loaded,
    no registry call names it, and the registry holds its name as before. *)
Lemma load_run_skips_registered args config model w w1 :
  Load.force args = false → Load.list_flag args = false →
  fs w !! "models.json" = Some (Json config) →
  model ∈ Load.models_to_load args config →
  Load.main args w = (Ok tt, w1) →
  db_model_name model ∈ registry w →
  (∃ before after,
     log w1 = log w ++ before ++
       [Print (L_model_header (id model) (name model));
        Print L_skip_already_loaded] ++ after) ∧
  filter (mentions (db_model_name model)) (log w1) =
    filter (mentions (db_model_name model)) (log w) ∧
  filter (λ x, x = db_model_name model) (registry w1) =
    filter (λ x, x = db_model_name model) (registry w).
Proof.
  intros Hforce Hlist Hman Hmodel Hrun Hreg.
  apply load_main_ok_inv in Hrun as (config' & counts & w3 & Hman' & Hq & Hloop & ->);
    [|exact Hlist].
  rewrite Hman in Hman'. injection Hman' as <-. rewrite Hforce in Hloop.
  set (n := db_model_name model) in *.
  set (loaded := list_to_set (registry w) : gset string) in *.
  assert (Hin : n ∈ loaded) by (by apply elem_of_list_to_set).
  split; [|].
  - apply list_elem_of_split in Hmodel as (pre & post & Hbatch).
    rewrite Hbatch in Hloop.
    apply for_each_ok_split in Hloop as (c1 & wa & c2 & wb & Hpre & Hturn & Hpost).
    rewrite load_one_already_loaded in Hturn by exact Hin. injection Hturn as _ <-.
    destruct (stays_out_load_loop n pre _ _ _ _ _ _ _ (reflexivity _) Hpre)
      as (_ & [es1 Hlog1] & _).
    destruct (stays_out_load_loop n post _ _ _ _ _ _ _ (reflexivity _) Hpost)
      as (_ & [es3 Hlog3] & _).
    simpl in Hlog1, Hlog3.
    exists ([Open "models.json"; Connect; Query;
             Print (L_load_start (length (pre ++ model :: post)))] ++ es1),
           (es3 ++ [Print (L_load_done counts.1 counts.2); Close]).
    simpl. rewrite Hlog3, Hlog1. rewrite <- !app_assoc. reflexivity.
  - assert (Hu : untouched n
              (record (Print (L_load_start (length (Load.models_to_load args config))))
                 (started w)) w3).
    { change w3 with (Ok counts, w3).2. rewrite <- Hloop.
      apply stable_for_each; [apply _|]. intros m c _.
      by apply untouched_load_one_registered. }
    destruct Hu as (_ & Hlog & Hr). simpl in Hlog, Hr. simpl.
    rewrite !filter_snoc_no in Hlog by (simpl; auto).
    rewrite !filter_snoc_no by (simpl; auto). auto.
Qed.

(** C3. Take a run of the load script without [--force] that ends
    normally, and a model of its batch.  A turn of the loop on the model
    with its registry name in the snapshot prints the header and the skip
    for an already loaded model, counts it as skipped, and does nothing
    else.  If the model's registry name is registered at the start, the
    run prints that skip after the model's header, issues no registry call
    naming it, and leaves the name in the registry as often as it was.  A second run in a
    row (whose snapshot query does not fail) ends normally as well, leaves
    the registry exactly as the first run left it, issues no call that
    changes the registry, keeps the registry free of duplicate names, and
    skips the model as already loaded if the first run left it
    registered. *)
Theorem register_without_force_is_idempotent args config model w w1 :
  Load.force args = false → Load.list_flag args = false →
  fs w !! "models.json" = Some (Json config) →
  model ∈ Load.models_to_load args config →
  Load.main args w = (Ok tt, w1) →
  (∀ loaded_models counts w0,
     db_model_name model ∈ loaded_models →
     ∃ w0',
       Load.load_one false loaded_models model counts w0 =
         (Ok (counts.1, S counts.2), w0') ∧
       log w0' = log w0 ++
         [Print (L_model_header (id model) (name model));
          Print L_skip_already_loaded] ∧
       registry w0' = registry w0) ∧
  (db_model_name model ∈ registry w →
     (∃ before after,
        log w1 = log w ++ before ++
          [Print (L_model_header (id model) (name model));
           Print L_skip_already_loaded] ++ after) ∧
     filter (mentions (db_model_name model)) (log w1) =
       filter (mentions (db_model_name model)) (log w) ∧
     filter (λ x, x = db_model_name model) (registry w1) =
       filter (λ x, x = db_model_name model) (registry w)) ∧
  (head (faults w1) ≠ Some true →
   ∃ w2,
     Load.main args w1 = (Ok tt, w2) ∧
     registry w2 = registry w1 ∧
     filter is_mutation (log w2) = filter is_mutation (log w1) ∧
     (NoDup (registry w) → NoDup (registry w2)) ∧
     (db_model_name model ∈ registry w1 →
        ∃ before after,
          log w2 = log w1 ++ before ++
            [Print (L_model_header (id model) (name model));
             Print L_skip_already_loaded] ++ after)).
Proof.
  intros Hforce Hlist Hman Hmodel Hrun. split; [|split].
  { intros loaded_models counts w0 Hin. eexists.
    split; [by apply load_one_already_loaded|].
    simpl. by rewrite <- app_assoc. }
  { intros Hreg. by eapply load_run_skips_registered. }
  intros Hq1.
  pose proof (load_main_ok_session _ _ _ Hrun) as [Hpw Hreach].
  pose proof Hrun as Hrun0.
  apply load_main_ok_inv in Hrun as (config' & counts & w3 & Hman' & Hq & Hloop & Hw1);
    [|exact Hlist].
  rewrite Hman in Hman'. injection Hman' as <-. rewrite Hforce in Hloop.
  pose proof (settled_load_loop _ _ _ _ _ _ Hloop) as (Hfs & Hpw3 & Hreach3 & Hsub & Hnd).
  pose proof (load_loop_covers _ _ _ _ _ _ Hloop) as Hcov.
  simpl in Hfs, Hpw3, Hreach3, Hsub, Hnd, Hcov.
  assert (Hfs1 : fs w1 = fs w) by (by subst w1).
  assert (Hreg1 : registry w1 = registry w3) by (by subst w1).
  assert (Hbatch : Load.models_to_load args config ≠ []).
  { intros Hnil. rewrite Hnil in Hmodel. by apply elem_of_nil in Hmodel. }
  set (loaded2 := list_to_set (registry w1) : gset string).
  destruct (load_loop_all_skipped loaded2 (Load.models_to_load args config) (0, 0)
              (record (Print (L_load_start (length (Load.models_to_load args config))))
                 (started w1)))
    as (c2 & w4 & Hloop2 & Hquiet).
  { intros m Hm. simpl. rewrite Hfs1.
    destruct (Hcov m Hm) as [H|[H|H]]; auto; left; apply elem_of_list_to_set.
    - rewrite Hreg1. apply Hsub. by apply elem_of_list_to_set in H.
    - by rewrite Hreg1. }
  assert (Hrun2 : Load.main args w1 =
            (Ok tt, record Close (record (Print (L_load_done c2.1 c2.2)) w4))).
  { rewrite (load_main_loop args config); try done.
    - rewrite Hforce. fold loaded2. by rewrite Hloop2.
    - by rewrite Hfs1.
    - subst w1. change (truthy_opt (getenv_password w3) = true).
      rewrite Hpw3. exact Hpw.
    - subst w1. simpl. by rewrite Hreach3. }
  eexists. split; [exact Hrun2|].
  destruct Hquiet as (Hfs4 & _ & _ & _ & Hreg4 & Hmut4). simpl in Hfs4, Hreg4, Hmut4.
  split; [exact Hreg4|]. split.
  { simpl. rewrite !filter_snoc_no by (simpl; auto).
    rewrite Hmut4. by rewrite !filter_snoc_no by (simpl; auto). }
  split.
  { intros Hnd0. simpl. rewrite Hreg4, Hreg1. by apply Hnd. }
  intros Hreg.
  destruct (load_run_skips_registered args config model w1 _ Hforce Hlist
              ltac:(by rewrite Hfs1) Hmodel Hrun2 Hreg) as (Hseg & _).
  exact Hseg.
Qed.

Lemma register_without_force_is_idempotent_witness :
  let model := Demo.model_c in
  let w := Demo.world ["a.onnx"] ["MODEL_C"] [] in
  let w1 := (Load.main Demo.load_all w).2 in
  (∃ before after,
     log w1 = log w ++ before ++
       [Print (L_model_header (id model) (name model));
        Print L_skip_already_loaded] ++ after) ∧
  ∃ w2,
    Load.main Demo.load_all w1 = (Ok tt, w2) ∧
    registry w2 = registry w1 ∧
    filter is_mutation (log w2) = filter is_mutation (log w1) ∧
    NoDup (registry w2).
Proof.
  intros model w w1.
  destruct (register_without_force_is_idempotent Demo.load_all Demo.manifest model w w1)
    as (_ & Hfirst & Hsecond).
  - reflexivity.
  - reflexivity.
  - reflexivity.
  - apply (bool_decide_unpack _). by vm_compute.
  - vm_compute. reflexivity.
  - split.
    + apply Hfirst. left.
    + destruct Hsecond as (w2 & Hrun & Hreg & Hmut & Hnd & _); [discriminate|].
      exists w2. repeat split; try assumption.
      apply Hnd. apply NoDup_singleton.
Defined.

(** ** C1: a registry failure ends the batch *)

(** C1, as stated, fails: in a batch of three whose second registry load
    fails, the third model is never attempted and no summary is printed;
    the run ends with the database error. *)
Lemma registry_failure_is_not_isolated :
  let r := Load.main Demo.load_all
             (Demo.world ["a.onnx"; "b.onnx"; "c.onnx"] [] [false; false; true]) in
  r.1 = Raise DatabaseError ∧
  registry r.2 = ["MODEL_A"] ∧
  log r.2 =
    [Open "models.json"; Connect; Query; Print (L_load_start 3);
     Print (L_model_header "a" "Model A"); Stat "onnx/a.onnx";
     LoadOnnx "a.onnx" "MODEL_A"; Print (L_loaded "MODEL_A");
     Print (L_model_header "b" "Model B"); Stat "onnx/b.onnx";
     LoadOnnx "b.onnx" "MODEL_B";
     Close].
Proof. vm_compute. repeat split; reflexivity. Qed.

(** C1, amended. When the turn of one descriptor of the batch fails (a
    registry call raises), the run ends there: the descriptors before it
    have had their turns, the session is closed, the error leaves the
    script, and nothing else happens: no later descriptor is attempted
    and no summary is printed. *)
Theorem registry_failure_ends_the_batch args config pre model post w counts w1 e w2 :
  fs w !! "models.json" = Some (Json config) →
  truthy_opt (password w) = true → reachable w = true →
  head (faults w) ≠ Some true →
  Load.list_flag args = false →
  Load.models_to_load args config = pre ++ model :: post →
  for_each (Load.load_one (Load.force args) (list_to_set (registry w))) pre (0, 0)
    (record (Print (L_load_start (length (pre ++ model :: post)))) (started w)) =
    (Ok counts, w1) →
  Load.load_one (Load.force args) (list_to_set (registry w)) model counts w1 =
    (Raise e, w2) →
  Load.main args w = (Raise e, record Close w2) ∧
  exit_status (Load.main args w).1 = 1.
Proof.
  intros Hman Hpw Hreach Hq Hlist Hbatch Hpre Hturn.
  apply getenv_password_of_environment in Hpw.
  assert (Hmain : Load.main args w = (Raise e, record Close w2)).
  { rewrite (load_main_loop args config) by
      (try done; rewrite Hbatch; by destruct pre).
    rewrite Hbatch, for_each_app, (bind_ok _ _ _ _ _ Hpre).
    rewrite for_each_cons, (bind_raise _ _ _ _ _ Hturn). reflexivity. }
  split; [exact Hmain|]. by rewrite Hmain.
Qed.

Lemma registry_failure_ends_the_batch_witness :
  let w := Demo.world ["a.onnx"; "b.onnx"; "c.onnx"] [] [false; false; true] in
  let w1 := (for_each (Load.load_one false ∅) [Demo.model_a] (0, 0)
               (record (Print (L_load_start 3)) (started w))).2 in
  let w2 := (Load.load_one false ∅ Demo.model_b (1, 0) w1).2 in
  Load.main Demo.load_all w = (Raise DatabaseError, record Close w2) ∧
  exit_status (Load.main Demo.load_all w).1 = 1.
Proof.
  intros w w1 w2.
  apply (registry_failure_ends_the_batch Demo.load_all Demo.manifest
           [Demo.model_a] Demo.model_b [Demo.model_c] w (1, 0) w1 DatabaseError w2).
  - reflexivity.
  - reflexivity.
  - reflexivity.
  - discriminate.
  - reflexivity.
  - reflexivity.
  - vm_compute. reflexivity.
  - vm_compute. reflexivity.
Defined.

(** ** C5: loading the manifest *)



(** A manifest file that holds the empty object: the load script gets as
    far as the snapshot before the missing key is noticed, and
    [drop --all] ends normally when nothing is registered. *)
Example empty_object_reaches_the_database :
  let w0 := Demo.world [] [] [] in
  let w := set_fs (<["models.json" := OtherJson KeyError]> (fs w0)) w0 in
  Load.main Demo.load_all w =
    (Raise KeyError, record_all [Open "models.json"; Connect; Query; Close] w) ∧
  Drop.main drop_all w =
    (Ok tt, record_all [Open "models.json"; Connect; Query;
                        Print L_nothing_to_drop; Close] w) ∧
  Download.main None w = (Raise KeyError, record (Open "models.json") w).
Proof. vm_compute. repeat split; reflexivity. Qed.

(** ** C6: an unknown target id *)

Lemma filter_prints (P : Event → bool) (ls : list Line) :
  (∀ l, P (Print l) = false) → filter P (Print <$> ls) = [].
Proof.
  intros HP. induction ls as [|l ls IH]; [done|].
  rewrite fmap_cons, filter_cons, decide_False; [exact IH|].
  rewrite HP. simpl. tauto.
Qed.

(** X27. With a non-empty id that no manifest entry carries, the load script
    prints the error and the table of the models and exits with status 1;
    apart from the log only the pending faults have moved (by the
    snapshot query): the registry and the files are as before and no call
    that changes the registry was issued. *)
Lemma load_unknown_id_is_fatal args config w :
  fs w !! "models.json" = Some (Json config) →
  truthy_opt (password w) = true → reachable w = true →
  head (faults w) ≠ Some true →
  Load.list_flag args = false →
  truthy_opt (Load.model_id args) = true →
  Load.models_to_load args config = [] →
  ∃ w',
    Load.main args w = (Exit 1, w') ∧
    registry w' = registry w ∧ fs w' = fs w ∧
    filter is_mutation (log w') = filter is_mutation (log w) ∧
    ∀ m, m ∈ models config →
      ∃ loaded, Print (L_status_row (id m) loaded (description m)) ∈ log w'.
Proof.
  intros Hman Hpw Hreach Hq Hlist Hid Hnone.
  apply getenv_password_of_environment in Hpw. eexists. split.
  { unfold Load.main.
    rewrite bind_run, (load_config_reads config) by exact Hman.
    rewrite bind_run. unfold except_db.
    rewrite get_db_connection_opens by assumption.
    unfold try_finally. rewrite bind_run, get_loaded_models_passes by exact Hq.
    rewrite Hlist, bind_run, select_models_unknown by assumption. reflexivity. }
  simpl. rewrite registry_record_all, fs_record_all, log_record_all. simpl.
  split; [done|]. split; [done|]. split.
  - rewrite !filter_snoc_no by (simpl; tauto).
    rewrite filter_app, filter_prints, app_nil_r by done.
    rewrite !filter_snoc_no by (simpl; tauto). reflexivity.
  - intros m Hm.
    eexists. apply elem_of_app. left. apply elem_of_app. right.
    apply (list_elem_of_fmap_2 Print). apply elem_of_app. left.
    apply list_elem_of_fmap. exists m. split; [reflexivity|exact Hm].
Qed.

(** C6, at the input where the load script misses it.  The claim holds
    for every non-empty unknown id and in the drop script (the two lemmas
    on unknown ids), but [if args.model_id] is a truth test: named with
    the empty id, which no entry of the manifest carries, the load script
    takes the id as absent, loads every model of the manifest and ends
    with exit status 0. *)
Lemma empty_id_loads_every_model :
  let w := Demo.world ["a.onnx"; "b.onnx"; "c.onnx"] [] [] in
  let r := Load.main (Demo.load_only "" false) w in
  Forall (λ m, id m ≠ "") (models Demo.manifest) ∧
  r.1 = Ok tt ∧ exit_status r.1 = 0 ∧
  registry r.2 = ["MODEL_A"; "MODEL_B"; "MODEL_C"] ∧
  filter is_mutation (log r.2) =
    [LoadOnnx "a.onnx" "MODEL_A"; LoadOnnx "b.onnx" "MODEL_B";
     LoadOnnx "c.onnx" "MODEL_C"].
Proof.
  intros w r. split; [repeat constructor; discriminate|].
  vm_compute. repeat split; reflexivity.
Qed.

(** ** C8: the plan of [drop --all] *)

Lemma get_model_by_db_name_spec config n :
  match Drop.get_model_by_db_name config n with
  | Some m => m ∈ models config ∧ db_model_name m = n
  | None => ∀ m, m ∈ models config → db_model_name m ≠ n
  end.
Proof.
  unfold Drop.get_model_by_db_name.
  destruct (find _ _) as [m|] eqn:Hfind.
  - apply find_some in Hfind as [Hin Hm]. split.
    + by apply list_elem_of_In.
    + by apply bool_decide_eq_true_1 in Hm.
  - intros m Hm. apply list_elem_of_In in Hm.
    pose proof (find_none _ _ Hfind m Hm) as Hne. simpl in Hne.
    by apply bool_decide_eq_false_1 in Hne.
Qed.

(** C8. With [--all] (and no [--list]), once the snapshot is taken, the
    drop script plans exactly the names of the snapshot, each once, and
    hands that plan on to be confirmed and executed.  Each entry of the
    plan carries the id of the first manifest entry with that registry
    name when there is one, and no id when no manifest entry has that
    registry name (an orphan). *)
Theorem drop_all_covers_registry args config w :
  Drop.all args = true → Drop.list_flag args = false →
  head (faults w) ≠ Some true →
  let plan := Drop.resolve_all config (list_to_set (registry w)) in
  Drop.session args config w = Drop.execute args config plan (issued Query w) ∧
  NoDup plan.*1 ∧
  (∀ n, n ∈ plan.*1 ↔ n ∈ registry w) ∧
  (∀ n i, (n, i) ∈ plan →
     (∃ m, m ∈ models config ∧ db_model_name m = n ∧ i = Some (id m) ∧
           Drop.get_model_by_db_name config n = Some m) ∨
     ((∀ m, m ∈ models config → db_model_name m ≠ n) ∧ i = None)).
Proof.
  intros Hall Hlist Hq plan.
  assert (Hnames : plan.*1 = elements (list_to_set (registry w) : gset string)).
  { unfold plan, Drop.resolve_all. rewrite <- list_fmap_compose.
    apply list_fmap_id. }
  split; [|split; [|split]].
  - unfold Drop.session.
    rewrite bind_run, get_loaded_models_passes by exact Hq.
    rewrite Hlist. unfold Drop.resolve. rewrite Hall. reflexivity.
  - rewrite Hnames. apply NoDup_elements.
  - intros n. rewrite Hnames, elem_of_elements. apply elem_of_list_to_set.
  - intros n i Hin. unfold plan, Drop.resolve_all in Hin.
    apply list_elem_of_fmap in Hin as (n' & [= -> ->] & _).
    pose proof (get_model_by_db_name_spec config n') as Hspec.
    destruct (Drop.get_model_by_db_name config n') as [m|]; [left|right; auto].
    destruct Hspec as [Hm Hn]. exists m. auto.
Qed.

Lemma drop_all_covers_registry_witness :
  let w := Demo.world [] ["MODEL_A"; "ORPHAN"] [] in
  let plan := Drop.resolve_all Demo.manifest (list_to_set (registry w)) in
  Drop.session drop_all Demo.manifest w =
    Drop.execute drop_all Demo.manifest plan (issued Query w) ∧
  NoDup plan.*1 ∧
  (∀ n, n ∈ plan.*1 ↔ n ∈ registry w) ∧
  (∀ n i, (n, i) ∈ plan →
     (∃ m, m ∈ models Demo.manifest ∧ db_model_name m = n ∧ i = Some (id m) ∧
           Drop.get_model_by_db_name Demo.manifest n = Some m) ∨
     ((∀ m, m ∈ models Demo.manifest → db_model_name m ≠ n) ∧ i = None)).
Proof.
  intros w.
  apply (drop_all_covers_registry drop_all Demo.manifest w).
  - reflexivity.
  - reflexivity.
  - discriminate.
Defined.

(** The plan of the witness: the orphan without id, the known model with
    its id. *)
Example drop_all_plan_example :
  Drop.resolve_all Demo.manifest (list_to_set ["MODEL_A"; "ORPHAN"]) ≡ₚ
    [("MODEL_A", Some "a"); ("ORPHAN", None)].
Proof. vm_compute. apply Permutation_swap. Qed.

(** ** C9: ids requested more than once *)

Lemma no_fault_pending l :
  true ∉ l → head l ≠ Some true ∧ true ∉ tail l.
Proof.
  destruct l as [|b l]; simpl; [by split|].
  intros H. split.
  - intros [= ->]. apply H. left.
  - intros Hin. apply H. by right.
Qed.

(** With the manifest in place, the usage checks passed and the session
    obtained, the drop script runs its session and closes it. *)
Lemma drop_main_runs_session args config w :
  negb (Drop.list_flag args) && negb (Drop.all args) &&
    bool_decide (Drop.model_ids args = []) = false →
  Drop.all args && negb (bool_decide (Drop.model_ids args = [])) = false →
  fs w !! "models.json" = Some (Json config) →
  truthy_opt (getenv_password w) = true → reachable w = true →
  Drop.main args w =
    try_finally (Drop.session args config) conn_close
      (record Connect (record (Open "models.json") w)).
Proof.
  intros Hu1 Hu2 Hman Hpw Hreach. unfold Drop.main. rewrite Hu1, Hu2.
  rewrite bind_run, (load_config_reads config) by exact Hman.
  rewrite bind_run. unfold except_db.
  rewrite get_db_connection_opens by assumption. reflexivity.
Qed.

(** The loop over requested ids that are all known and registered appends
    one entry per requested id, in order. *)
Lemma resolve_known_ids config loaded_models (pick : string → Model) ids acc w :
  (∀ i, i ∈ ids → Drop.get_model_by_id config i = Some (pick i) ∧
                  db_model_name (pick i) ∈ loaded_models) →
  for_each (Drop.resolve_one config loaded_models) ids acc w =
    (Ok (acc ++ ((λ i, (db_model_name (pick i), Some i)) <$> ids)), w).
Proof.
  revert acc. induction ids as [|i ids IH]; intros acc Hall.
  { simpl. by rewrite app_nil_r. }
  destruct (Hall i) as [Hget Hin]; [left|].
  rewrite for_each_cons, bind_run. unfold Drop.resolve_one at 1.
  rewrite Hget, bool_decide_eq_true_2 by exact Hin. unfold ret at 1.
  rewrite IH by (intros j Hj; apply Hall; by right).
  by rewrite <- app_assoc.
Qed.

(** The loop that drops, over a plan made of known ids, with no failure
    pending: one drop per entry, in order, all counted. *)
Lemma drop_loop_known_ids config (pick : string → Model) ids k w :
  (∀ i, i ∈ ids → Drop.get_model_by_id config i = Some (pick i)) →
  true ∉ faults w →
  ∃ es w',
    for_each (Drop.drop_one config)
      ((λ i, (db_model_name (pick i), Some i)) <$> ids) k w =
      (Ok (length ids + k), w') ∧
    log w' = log w ++ es ∧
    filter is_mutation es = (λ i, DropOnnx (db_model_name (pick i))) <$> ids.
Proof.
  revert k w. induction ids as [|i ids IH]; intros k w Hall Hnf.
  { exists [], w. simpl. by rewrite app_nil_r. }
  destruct (no_fault_pending _ Hnf) as [Hq Hnf'].
  assert (Hhead : ∃ l,
    Drop.drop_one config (db_model_name (pick i), Some i) k w =
      (Ok (S k),
       record (Print (L_dropped (db_model_name (pick i))))
         (set_registry (filter (λ x, x ≠ db_model_name (pick i)) (registry w))
            (issued (DropOnnx (db_model_name (pick i))) (record (Print l) w))))).
  { unfold Drop.drop_one. simpl. rewrite bind_run.
    destruct (truthy i).
    - rewrite (Hall i) by left. rewrite print_run. cbv beta iota.
      rewrite bind_run, drop_model_passes by exact Hq. eexists. reflexivity.
    - rewrite print_run. cbv beta iota.
      rewrite bind_run, drop_model_passes by exact Hq. eexists. reflexivity. }
  destruct Hhead as [l Hhead].
  edestruct (IH (S k)) as (es & w' & Hrun & Hlog & Hmut);
    [intros j Hj; apply Hall; by right| |].
  2: { exists ([Print l; DropOnnx (db_model_name (pick i));
                Print (L_dropped (db_model_name (pick i)))] ++ es), w'.
       rewrite fmap_cons, for_each_cons, bind_run, Hhead.
       split; [rewrite Hrun; f_equal; f_equal; simpl; lia|].
       split; [rewrite Hlog; simpl; by rewrite <- !app_assoc|].
       rewrite filter_app, Hmut. reflexivity. }
  exact Hnf'.
Qed.

(** C9, as stated, fails: an id requested twice is planned twice, dropped
    twice and counted twice. *)
Lemma repeated_id_is_dropped_twice :
  let r := Drop.main (drop_ids ["a"; "a"]) (Demo.world [] ["MODEL_A"] []) in
  r.1 = Ok tt ∧
  log r.2 =
    [Open "models.json"; Connect; Query; Print L_blank;
     Print (L_model_header "a" "Model A"); DropOnnx "MODEL_A"; Print (L_dropped "MODEL_A");
     Print (L_model_header "a" "Model A"); DropOnnx "MODEL_A"; Print (L_dropped "MODEL_A");
     Print (L_drop_done 2); Close].
Proof. vm_compute. split; reflexivity. Qed.

(** C9, amended. Requested ids are not deduplicated.  When every requested
    id is known and its registry name registered, [-y] is given and no
    backend call fails, the drop script issues one drop per requested id,
    in the order of the request and as often as the id was requested, and
    its summary counts every one of them. *)
Theorem requested_ids_are_not_deduplicated args config (pick : string → Model) w :
  Drop.all args = false → Drop.list_flag args = false → Drop.yes args = true →
  Drop.model_ids args ≠ [] →
  fs w !! "models.json" = Some (Json config) →
  truthy_opt (password w) = true → reachable w = true →
  true ∉ faults w →
  (∀ i, i ∈ Drop.model_ids args →
        Drop.get_model_by_id config i = Some (pick i) ∧
        db_model_name (pick i) ∈ registry w) →
  ∃ es w',
    Drop.main args w = (Ok tt, w') ∧
    log w' = log w ++ es ++
      [Print (L_drop_done (length (Drop.model_ids args))); Close] ∧
    filter is_mutation es =
      (λ i, DropOnnx (db_model_name (pick i))) <$> Drop.model_ids args.
Proof.
  intros Hall Hlist Hyes Hids Hman Hpw Hreach Hnf Hknown.
  apply getenv_password_of_environment in Hpw.
  destruct (no_fault_pending _ Hnf) as [Hq Hnf'].
  set (plan := (λ i, (db_model_name (pick i), Some i)) <$> Drop.model_ids args).
  assert (Hplan : plan ≠ []).
  { unfold plan. destruct (Drop.model_ids args); [done|discriminate]. }
  edestruct (drop_loop_known_ids config pick (Drop.model_ids args) 0
               (record (Print L_blank)
                  (issued Query (record Connect (record (Open "models.json") w)))))
    as (es & w' & Hloop & Hlog & Hmut).
  { intros i Hi. by apply Hknown. }
  { exact Hnf'. }
  exists ([Open "models.json"; Connect; Query; Print L_blank] ++ es),
         (record Close (record (Print (L_drop_done (length (Drop.model_ids args)))) w')).
  split; [|split].
  - rewrite (drop_main_runs_session args config); try done.
    + unfold try_finally, Drop.session.
      rewrite bind_run, get_loaded_models_passes by exact Hq.
      rewrite Hlist. unfold Drop.resolve. rewrite Hall, bind_run.
      rewrite (resolve_known_ids _ _ pick).
      2: { intros i Hi. destruct (Hknown i Hi) as [Hg Hr]. split; [done|].
           by apply elem_of_list_to_set. }
      rewrite app_nil_l. fold plan. unfold Drop.execute.
      rewrite (bool_decide_eq_false_2 _ Hplan), Hyes, bind_run. unfold ret at 1.
      cbn [negb]. rewrite bind_run, print_run. cbv beta iota.
      rewrite bind_run. unfold plan. rewrite Hloop, Nat.add_0_r. reflexivity.
    + rewrite Hlist, Hall. simpl. by apply bool_decide_eq_false_2.
    + by rewrite Hall.
  - simpl. rewrite Hlog. simpl. by rewrite <- !app_assoc.
  - rewrite filter_app, Hmut. reflexivity.
Qed.

Lemma requested_ids_are_not_deduplicated_witness :
  let w := Demo.world [] ["MODEL_A"; "MODEL_B"] [] in
  ∃ es w',
    Drop.main (drop_ids ["a"; "b"; "a"]) w = (Ok tt, w') ∧
    log w' = log w ++ es ++ [Print (L_drop_done 3); Close] ∧
    filter is_mutation es =
      [DropOnnx "MODEL_A"; DropOnnx "MODEL_B"; DropOnnx "MODEL_A"].
Proof.
  intros w.
  apply (requested_ids_are_not_deduplicated (drop_ids ["a"; "b"; "a"]) Demo.manifest
           (λ i, if String.eqb i "a" then Demo.model_a else Demo.model_b) w).
  - reflexivity.
  - reflexivity.
  - reflexivity.
  - discriminate.
  - reflexivity.
  - reflexivity.
  - reflexivity.
  - apply not_elem_of_nil.
  - intros i Hi. simpl in Hi.
    repeat (apply elem_of_cons in Hi as [->|Hi]); try (by apply elem_of_nil in Hi).
    all: split; [reflexivity|]; simpl; set_solver.
Defined.

(** ** C6 in the drop script *)

Lemma resolve_unknown_id config loaded_models ids acc w bad :
  bad ∈ ids → Drop.get_model_by_id config bad = None →
  ∃ ls,
    for_each (Drop.resolve_one config loaded_models) ids acc w =
      (Exit 1, record_all (Print <$> ls) w) ∧
    ∀ m, m ∈ models config → L_valid_id (id m) ∈ ls.
Proof.
  intros Hbad Hnone. revert acc w.
  induction ids as [|i ids IH]; intros acc w; [by apply elem_of_nil in Hbad|].
  rewrite for_each_cons, bind_run. unfold Drop.resolve_one at 1.
  destruct (Drop.get_model_by_id config i) as [m|] eqn:Hget.
  - assert (Htail : bad ∈ ids).
    { apply elem_of_cons in Hbad as [->|Hbad]; [congruence|done]. }
    destruct (bool_decide (db_model_name m ∈ loaded_models)).
    + unfold ret at 1. by apply IH.
    + rewrite bind_run, print_run. cbv beta iota. unfold ret at 1.
      destruct (IH Htail acc (record (Print (L_warn_not_loaded i (db_model_name m))) w))
        as (ls & Hrun & Hvalid).
      exists (L_warn_not_loaded i (db_model_name m) :: ls). split; [exact Hrun|].
      intros m' Hm'. right. by apply Hvalid.
  - exists ([L_unknown_model i; L_valid_ids_header] ++ (L_valid_id ∘ id <$> models config)).
    split.
    + do 2 (rewrite bind_run, print_run; cbv beta iota).
      rewrite bind_run, (for_each_print (λ m, L_valid_id (id m))).
      rewrite fmap_app, record_all_app, list_fmap_compose. reflexivity.
    + intros m Hm. do 2 right. apply list_elem_of_fmap. by exists m.
Qed.

(** X28. When one of the requested ids is unknown, the drop script prints the
    valid ids and exits with status 1 before any drop: the registry and
    the files are as before and no call that changes the registry was
    issued. *)
Lemma drop_unknown_id_is_fatal args config w bad :
  Drop.all args = false → Drop.list_flag args = false →
  fs w !! "models.json" = Some (Json config) →
  truthy_opt (password w) = true → reachable w = true →
  head (faults w) ≠ Some true →
  bad ∈ Drop.model_ids args → Drop.get_model_by_id config bad = None →
  ∃ w',
    Drop.main args w = (Exit 1, w') ∧
    registry w' = registry w ∧ fs w' = fs w ∧
    filter is_mutation (log w') = filter is_mutation (log w) ∧
    ∀ m, m ∈ models config → Print (L_valid_id (id m)) ∈ log w'.
Proof.
  intros Hall Hlist Hman Hpw Hreach Hq Hbad Hnone.
  apply getenv_password_of_environment in Hpw.
  destruct (resolve_unknown_id config (list_to_set (registry w)) (Drop.model_ids args) []
              (issued Query (record Connect (record (Open "models.json") w))) bad
              Hbad Hnone) as (ls & Hrun & Hvalid).
  eexists. split.
  { rewrite (drop_main_runs_session args config); try done.
    - unfold try_finally, Drop.session.
      rewrite bind_run, get_loaded_models_passes by exact Hq.
      rewrite Hlist. unfold Drop.resolve. rewrite Hall, bind_run.
      simpl registry. rewrite Hrun. reflexivity.
    - rewrite Hlist, Hall. simpl. apply bool_decide_eq_false_2.
      intros Hnil. rewrite Hnil in Hbad. by apply elem_of_nil in Hbad.
    - by rewrite Hall. }
  simpl. rewrite registry_record_all, fs_record_all, log_record_all. simpl.
  split; [done|]. split; [done|]. split.
  - rewrite !filter_snoc_no by (simpl; tauto).
    rewrite filter_app, filter_prints, app_nil_r by done.
    rewrite !filter_snoc_no by (simpl; tauto). reflexivity.
  - intros m Hm. apply elem_of_app. left. apply elem_of_app. right.
    apply (list_elem_of_fmap_2 Print). by apply Hvalid.
Qed.

(** ** C7: what a failed fetch leaves behind *)

(** C7, as stated, fails on both counts when a transfer breaks off: the
    direct download has written its partial file to the final artifact
    path, and the archive download has left its temporary archive. *)
Lemma failed_fetch_leaves_files :
  let w := with_net (λ _, Interrupted "partial") (Demo.world [] [] []) in
  let direct := Download.download_model Demo.model_a w in
  let zipped := Download.download_model Demo.model_b w in
  direct.1 = Raise ContentTooShortError ∧
  fs direct.2 !! output Demo.model_a = Some (Truncated "partial") ∧
  zipped.1 = Raise ContentTooShortError ∧
  fs zipped.2 !! Download.zip_path Demo.model_b = Some (Truncated "partial").
Proof. vm_compute. repeat split; reflexivity. Qed.

(** C7, amended. For a fetch of an artifact that is not there yet.  From
    an archive source the download goes to the temporary archive path:
    when the fetch succeeds, the temporary archive is gone afterwards, and
    when the download does not deliver, the fetch fails and the final
    artifact path is still empty (the temporary path taken to differ from
    the final one).  From a direct source the download goes straight to
    the final artifact path: a transfer that breaks off fails the fetch
    and leaves its partial file there. *)
Theorem fetch_temporary_file_only_for_archives model w :
  fs w !! output model = None →
  (endswith (url model) ".zip" = true →
     ((Download.download_model model w).1 = Ok tt →
        fs (Download.download_model model w).2 !! Download.zip_path model = None) ∧
     ((∀ c, net w (url model) ≠ Served c) →
        Download.zip_path model ≠ output model →
        (Download.download_model model w).1 ≠ Ok tt ∧
        fs (Download.download_model model w).2 !! output model = None)) ∧
  (endswith (url model) ".zip" = false →
     ∀ partial, net w (url model) = Interrupted partial →
       (Download.download_model model w).1 = Raise ContentTooShortError ∧
       fs (Download.download_model model w).2 !! output model =
         Some (Truncated partial)).
Proof.
  intros Habs. split; intros Hzip.
  - assert (Hrun : Download.download_model model w =
      (Download.urlretrieve (url model) (Download.zip_path model) ;;
       print L_extracting ;;
       entries ← Download.open_zip (Download.zip_path model);
       for_each (λ (e : string * string) (_ : unit),
           if endswith e.1 ".onnx" then Download.extract entries e.1 else ret tt)
         entries tt ;;
       Download.unlink (Download.zip_path model) ;;
       print (L_ok (output model)))
        (record (Print (L_downloading (name model))) (record (Stat (output model)) w))).
    { unfold Download.download_model. rewrite bind_run. unfold exists_file.
      rewrite Habs, bool_decide_eq_false_2 by (intros [? ?]; discriminate).
      cbv beta iota. rewrite Hzip. rewrite bind_run, print_run. reflexivity. }
    rewrite Hrun. clear Hrun. rewrite bind_run. unfold Download.urlretrieve. simpl net.
    destruct (net w (url model)) as [c| |partial] eqn:Hnet.
    + split; [|intros Hno; by destruct (Hno c)]. cbv beta iota.
      rewrite bind_run, print_run. cbv beta iota. rewrite bind_run.
      unfold Download.open_zip. simpl fs. rewrite lookup_insert_eq.
      destruct c as [| | | |entries|]; try discriminate. cbv beta iota.
      rewrite bind_run.
      destruct (for_each _ entries tt _) as [[[]|e|k] w1]; try discriminate.
      rewrite bind_run. unfold Download.unlink. simpl fs.
      destruct (fs w1 !! Download.zip_path model); [|discriminate].
      cbv beta iota. rewrite print_run. simpl. intros _. apply lookup_delete_eq.
    + split; [discriminate|]. intros _ Hne. simpl. split; [discriminate|exact Habs].
    + split; [discriminate|]. intros _ Hne. simpl. split; [discriminate|].
      rewrite lookup_insert_ne by exact Hne. exact Habs.
  - intros partial Hnet. unfold Download.download_model.
    rewrite bind_run. unfold exists_file.
    rewrite Habs, bool_decide_eq_false_2 by (intros [? ?]; discriminate).
    cbv beta iota. rewrite Hzip. rewrite bind_run, print_run. cbv beta iota.
    rewrite bind_run. unfold Download.urlretrieve. simpl net. rewrite Hnet.
    simpl. split; [reflexivity|apply lookup_insert_eq].
Qed.

Lemma fetch_temporary_file_only_for_archives_witness :
  let served := with_net
    (λ _, Served (Archive [("b.onnx", "weights"); ("README.md", "notes")]))
    (Demo.world [] [] []) in
  let broken := with_net (λ _, Interrupted "partial") (Demo.world [] [] []) in
  fs (Download.download_model Demo.model_b served).2
    !! Download.zip_path Demo.model_b = None ∧
  fs (Download.download_model Demo.model_a broken).2
    !! output Demo.model_a = Some (Truncated "partial").
Proof.
  intros served broken. split.
  - apply (fetch_temporary_file_only_for_archives Demo.model_b served);
      reflexivity.
  - apply (fetch_temporary_file_only_for_archives Demo.model_a broken);
      reflexivity.
Defined.

(** The fetch of the witness succeeds: only the [.onnx] entry is
    extracted and the temporary archive is gone. *)
Example archive_fetch_example :
  let w := with_net
             (λ _, Served (Archive [("b.onnx", "weights"); ("README.md", "notes")]))
             (Demo.world [] [] []) in
  let r := Download.download_model Demo.model_b w in
  r.1 = Ok tt ∧
  fs r.2 !! "b.onnx" = Some (Binary "weights") ∧
  fs r.2 !! "README.md" = None ∧
  fs r.2 !! "b_temp.zip" = None.
Proof. vm_compute. repeat split; reflexivity. Qed.

(** * Further properties of the scripts *)

(** ** Logs that only grow *)

Global Instance emits_preorder P : PreOrder (emits P).
Proof.
  split.
  - intros w. exists []. by rewrite app_nil_r.
  - intros w1 w2 w3 (es1 & H1 & HP1) (es2 & H2 & HP2).
    exists (es1 ++ es2). rewrite H2, H1, app_assoc. split; [done|].
    by apply Forall_app.
Qed.

Lemma emits_record (P : Event → Prop) e w : P e → emits P w (record e w).
Proof. intros He. exists [e]. split; [done|]. by apply Forall_singleton. Qed.

Lemma emits_issued (P : Event → Prop) call w : P call → emits P w (issued call w).
Proof. intros He. exists [call]. split; [done|]. by apply Forall_singleton. Qed.

Lemma emits_same_log (P : Event → Prop) w w' : log w' = log w → emits P w w'.
Proof. intros H. exists []. by rewrite app_nil_r. Qed.

Lemma emits_prints (P : Event → Prop) (ls : list Line) w :
  (∀ l, P (Print l)) → emits P w (record_all (Print <$> ls) w).
Proof.
  intros HP. exists (Print <$> ls). split; [apply log_record_all|].
  apply Forall_fmap, Forall_forall. intros l _. apply HP.
Qed.

Lemma emits_mono (P Q : Event → Prop) w w' :
  (∀ e, P e → Q e) → emits P w w' → emits Q w w'.
Proof.
  intros HPQ (es & Hlog & HP). exists es. split; [done|].
  eapply Forall_impl; eauto.
Qed.

Lemma emits_new_events (P : Event → Prop) w w' :
  emits P w w' → log w' = log w ++ new_events w w' ∧ Forall P (new_events w w').
Proof.
  intros (es & Hlog & HP). unfold new_events.
  rewrite Hlog, drop_app_length. auto.
Qed.

(** ** What the load script does and never does *)


Global Instance load_trace_preorder force loaded_models :
  PreOrder (load_trace force loaded_models).
Proof.
  split.
  - intros w. split; reflexivity.
  - intros w1 w2 w3 [Hf1 H1] [Hf2 H2]. split; [congruence|].
    rewrite Hf1 in H2. by etrans.
Qed.

Lemma load_trace_record force loaded_models e w :
  load_event force loaded_models (fs w) e →
  load_trace force loaded_models w (record e w).
Proof. intros He. split; [done|]. by apply emits_record. Qed.

Lemma load_trace_issued force loaded_models call w :
  load_event force loaded_models (fs w) call →
  load_trace force loaded_models w (issued call w).
Proof. intros He. split; [done|]. by apply emits_issued. Qed.

Lemma load_trace_set_registry force loaded_models r w :
  load_trace force loaded_models w (set_registry r w).
Proof. split; [done|]. by apply emits_same_log. Qed.

Lemma load_trace_prints force loaded_models (ls : list Line) w :
  load_trace force loaded_models w (record_all (Print <$> ls) w).
Proof. split; [apply fs_record_all|]. by apply emits_prints. Qed.

Lemma load_trace_load_one force loaded_models model counts :
  stable (load_trace force loaded_models)
    (Load.load_one force loaded_models model counts).
Proof.
  intros w.
  assert (Hdrop : db_model_name model ∈ loaded_models → force = true →
            load_event force loaded_models (fs w) (DropOnnx (db_model_name model))).
  { intros Hin ->. simpl. by apply bool_decide_pack. }
  assert (Hprep : ∀ w1, load_prepared force loaded_models model w w1 →
                        load_trace force loaded_models w w1).
  { intros w1 [Hfresh|Hin Hforce Hq].
    - by apply load_trace_record.
    - etrans; [by apply (load_trace_record _ _ (Print (L_model_header (id model) (name model))))|].
      etrans; [apply (load_trace_issued _ _ (DropOnnx (db_model_name model))); by apply Hdrop|].
      etrans; [apply load_trace_set_registry|]. by apply load_trace_record. }
  assert (Hload : ∀ w1, load_prepared force loaded_models model w w1 →
            is_Some (fs w !! Load.onnx_file model) →
            load_trace force loaded_models w
              (issued (LoadOnnx (output model) (db_model_name model))
                 (record (Stat (Load.onnx_file model)) w1))).
  { intros w1 Hw1 Hf. etrans; [exact (Hprep w1 Hw1)|].
    etrans; [by apply (load_trace_record _ _ (Stat (Load.onnx_file model)))|].
    apply load_trace_issued. simpl. apply bool_decide_pack.
    rewrite (load_prepared_fs _ _ _ _ _ Hw1). exact Hf. }
  destruct (load_one_turn force loaded_models model counts w)
    as [Hin Hforce|Hin Hforce Hq|w1 Hw1 Hf|w1 Hw1 Hf Hq|w1 Hw1 Hf Hq Hfree].
  - etrans; by apply load_trace_record.
  - etrans; [by apply (load_trace_record _ _ (Print (L_model_header (id model) (name model))))|].
    apply load_trace_issued. by apply Hdrop.
  - etrans; [exact (Hprep w1 Hw1)|].
    etrans; [|by apply load_trace_record].
    etrans; [|by apply load_trace_record]. by apply load_trace_record.
  - by apply Hload.
  - etrans; [by apply (Hload w1)|].
    etrans; [apply load_trace_set_registry|]. by apply load_trace_record.
Qed.

(** What follows the snapshot in the session of the load script. *)
Lemma load_trace_after_snapshot args config loaded_models :
  stable (load_trace (Load.force args) loaded_models)
    (if Load.list_flag args then Load.list_models config loaded_models
     else
       batch ← Load.select_models args config loaded_models;
       print (L_load_start (length batch)) ;;
       counts ← for_each (Load.load_one (Load.force args) loaded_models) batch (0, 0);
       print (L_load_done (fst counts) (snd counts))).
Proof.
  assert (Hp : ∀ l, stable (load_trace (Load.force args) loaded_models) (print l)).
  { intros l w. by apply load_trace_record. }
  assert (Hlist : stable (load_trace (Load.force args) loaded_models)
                    (Load.list_models config loaded_models)).
  { intros w. rewrite load_list_models_run. apply load_trace_prints. }
  apply stable_if; [exact Hlist|].
  apply stable_bind; [apply _| |intros batch].
  { unfold Load.select_models. apply stable_if; [|apply stable_ret, _].
    apply stable_bind; [apply _|apply Hp|intros _].
    apply stable_bind; [apply _|exact Hlist|intros; apply stable_exit, _]. }
  apply stable_bind; [apply _|apply Hp|intros _].
  apply stable_bind; [apply _| |intros counts; apply Hp].
  apply stable_for_each; [apply _|]. intros model counts _.
  apply load_trace_load_one.
Qed.

Lemma load_trace_after_snapshot_any args document loaded_models :
  stable (load_trace (Load.force args) loaded_models)
    (match document with
     | Manifest config =>
         if Load.list_flag args then Load.list_models config loaded_models
         else
           batch ← Load.select_models args config loaded_models;
           print (L_load_start (length batch)) ;;
           counts ← for_each (Load.load_one (Load.force args) loaded_models) batch (0, 0);
           print (L_load_done (fst counts) (snd counts))
     | Shapeless e => Load.session_without_models args e
     end).
Proof.
  destruct document as [config|e]; [apply load_trace_after_snapshot|].
  assert (Hp : ∀ l, stable (load_trace (Load.force args) loaded_models) (print l)).
  { intros l w. by apply load_trace_record. }
  unfold Load.session_without_models. apply stable_if; [|apply stable_raise, _].
  apply stable_bind; [apply _|apply Hp|intros _].
  apply stable_bind; [apply _|apply Hp|intros _]. apply stable_raise, _.
Qed.

(** X4. Whatever its arguments, its world and the way it ends, a run of
    the load script leaves the files as they are and does nothing but:
    open the manifest, connect, query, print, check files, drop (only
    under [--force], and only names registered when the run started), load
    (only artifact files that are present) and close.  In particular it
    never fetches, never writes or deletes a file and never prompts. *)
Theorem load_script_events args w :
  fs (Load.main args w).2 = fs w ∧
  log (Load.main args w).2 = log w ++ new_events w (Load.main args w).2 ∧
  Forall (load_main_event args (registry w) (fs w))
    (new_events w (Load.main args w).2).
Proof.
  assert (H : fs (Load.main args w).2 = fs w ∧
              emits (load_main_event args (registry w) (fs w)) w (Load.main args w).2).
  2: { destruct H as [Hfs Hem]. apply emits_new_events in Hem. tauto. }
  unfold Load.main. rewrite bind_run.
  assert (Hopen : emits (load_main_event args (registry w) (fs w)) w
                    (record (Open "models.json") w)).
  { apply emits_record. by cbn. }
  pose proof (load_config_world w) as Hw1.
  destruct (load_config w) as [[document|e|c] w1]; simpl in Hw1; subst w1;
    try (split; [done|exact Hopen]).
  rewrite bind_run. unfold except_db, get_db_connection. simpl password. simpl reachable.
  rewrite ?getenv_password_record.
  destruct (truthy_opt (getenv_password w)).
  2: { simpl. split; [done|]. etrans; [exact Hopen|].
       etrans; [by apply (emits_record _ (Print L_password_unset))|].
       by apply emits_record. }
  destruct (reachable w).
  2: { simpl. split; [done|]. etrans; [exact Hopen|].
       etrans; [by apply (emits_record _ Connect)|]. by apply emits_record. }
  unfold emit. cbv beta iota. rewrite try_finally_close. cbn [snd].
  rewrite bind_run. unfold get_loaded_models, backend. simpl faults.
  assert (Hstart : emits (load_main_event args (registry w) (fs w)) w
                     (issued Query (record Connect (record (Open "models.json") w)))).
  { etrans; [exact Hopen|].
    etrans; [by apply (emits_record _ Connect)|]. by apply emits_issued. }
  destruct (head (faults w)) as [[]|] eqn:Hq; cbv beta iota.
  1: { simpl. split; [done|]. etrans; [exact Hstart|]. by apply emits_record. }
  all: simpl registry.
  all: pose proof (load_trace_after_snapshot_any args document (list_to_set (registry w))
         (issued Query (record Connect (record (Open "models.json") w)))) as [Hfs Hem].
  all: split; [exact Hfs|].
  all: etrans; [exact Hstart|]; etrans; [|by apply emits_record].
  all: eapply emits_mono; [|exact Hem].
  all: intros [] He; simpl in *; auto; done.
Qed.

(** ** The listing of the drop script *)

Lemma for_each_print_if {A} (P : A → Prop) `{!∀ x, Decision (P x)}
    (line : A → Line) xs w :
  for_each (λ x (_ : unit), if bool_decide (P x) then print (line x) else ret tt) xs tt w =
    (Ok tt, record_all (Print <$> (line <$> filter P xs)) w).
Proof.
  revert w. induction xs as [|x xs IH]; intros w; [reflexivity|].
  rewrite for_each_cons, bind_run, filter_cons.
  destruct (decide (P x)) as [HP|HP].
  - rewrite bool_decide_eq_true_2 by exact HP. rewrite print_run. cbv beta iota.
    rewrite IH. reflexivity.
  - rewrite bool_decide_eq_false_2 by exact HP. unfold ret at 1. apply IH.
Qed.

Lemma drop_list_models_run config (loaded_models : gset string) w :
  loaded_models ≠ ∅ →
  Drop.list_models config loaded_models w =
    (Ok tt,
     record_all
       (Print <$> [L_loaded_header; L_rule70] ++
          ((λ m, L_loaded_row (id m) (db_model_name m) (description m)) <$>
             filter (λ m, db_model_name m ∈ loaded_models) (models config)) ++
          (L_orphan_row <$>
             merge_sort String.le
               (elements (loaded_models ∖ list_to_set (db_model_name <$> models config)))) ++
          [L_rule70; L_total (size loaded_models)]) w).
Proof.
  intros Hne. unfold Drop.list_models.
  rewrite bool_decide_eq_false_2 by exact Hne.
  do 2 (rewrite bind_run, print_run; cbv beta iota).
  rewrite bind_run,
    (for_each_print_if (λ m, db_model_name m ∈ loaded_models)
       (λ m, L_loaded_row (id m) (db_model_name m) (description m))).
  cbv beta iota zeta.
  rewrite bind_run, (for_each_print L_orphan_row). cbv beta iota.
  rewrite bind_run, print_run. cbv beta iota. rewrite print_run.
  rewrite !fmap_app, !record_all_app, list_fmap_compose. reflexivity.
Qed.

Lemma drop_list_models_empty config (loaded_models : gset string) w :
  loaded_models = ∅ →
  Drop.list_models config loaded_models w = (Ok tt, record (Print L_none_loaded) w).
Proof. intros ->. unfold Drop.list_models. by rewrite bool_decide_eq_true_2. Qed.

(** X8. The listing of the drop script ([--list]).  With nothing
    registered it prints the one line saying so.  Otherwise it prints,
    between header and footer: one row for every manifest entry whose
    registry name is registered, in manifest order; then one row for every
    registered name that no manifest entry carries (the orphans), each
    once, in ascending order; and the number of registered names.  Every
    registered name is thus reported, as an orphan or with a manifest
    entry. *)
Theorem drop_listing_reports_every_registered_name config (loaded_models : gset string) w :
  (loaded_models = ∅ →
     Drop.list_models config loaded_models w = (Ok tt, record (Print L_none_loaded) w)) ∧
  (loaded_models ≠ ∅ →
     ∃ known orphans,
       Drop.list_models config loaded_models w =
         (Ok tt,
          record_all
            (Print <$> [L_loaded_header; L_rule70] ++
               ((λ m, L_loaded_row (id m) (db_model_name m) (description m)) <$> known) ++
               (L_orphan_row <$> orphans) ++
               [L_rule70; L_total (size loaded_models)]) w) ∧
       known = filter (λ m, db_model_name m ∈ loaded_models) (models config) ∧
       Sorted String.le orphans ∧ NoDup orphans ∧
       (∀ n, n ∈ orphans ↔
             n ∈ loaded_models ∧ ∀ m, m ∈ models config → db_model_name m ≠ n) ∧
       (∀ n, n ∈ loaded_models →
             n ∈ orphans ∨ ∃ m, m ∈ known ∧ db_model_name m = n)).
Proof.
  split; [apply drop_list_models_empty|].
  - intros Hne.
    set (names := list_to_set (db_model_name <$> models config) : gset string).
    set (orphans := merge_sort String.le (elements (loaded_models ∖ names))).
    assert (Horph : ∀ n, n ∈ orphans ↔
              n ∈ loaded_models ∧ ∀ m, m ∈ models config → db_model_name m ≠ n).
    { intros n. unfold orphans. rewrite merge_sort_Permutation, elem_of_elements.
      rewrite elem_of_difference. unfold names.
      rewrite elem_of_list_to_set, list_elem_of_fmap. split.
      - intros [Hin Hno]. split; [done|]. intros m Hm Heq. apply Hno. by exists m.
      - intros [Hin Hno]. split; [done|]. intros (m & Heq & Hm). by apply (Hno m). }
    exists (filter (λ m, db_model_name m ∈ loaded_models) (models config)), orphans.
    split; [by apply drop_list_models_run|]. split; [done|].
    split; [apply Sorted_merge_sort, _|]. split.
    { unfold orphans. rewrite merge_sort_Permutation. apply NoDup_elements. }
    split; [exact Horph|].
    intros n Hin.
    destruct (decide (n ∈ names)) as [Hn|Hn].
    + right. unfold names in Hn.
      apply elem_of_list_to_set, list_elem_of_fmap in Hn as (m & -> & Hm).
      exists m. split; [|done]. by apply list_elem_of_filter.
    + left. apply Horph. split; [done|]. intros m Hm Heq. apply Hn.
      unfold names. apply elem_of_list_to_set, list_elem_of_fmap. by exists m.
Qed.

Lemma drop_listing_reports_every_registered_name_witness :
  let loaded_models : gset string := {["ZETA"; "MODEL_C"; "ALPHA"; "MODEL_A"]} in
  let w := Demo.world [] [] [] in
  ∃ known orphans,
    Drop.list_models Demo.manifest loaded_models w =
      (Ok tt,
       record_all
         (Print <$> [L_loaded_header; L_rule70] ++
            ((λ m, L_loaded_row (id m) (db_model_name m) (description m)) <$> known) ++
            (L_orphan_row <$> orphans) ++
            [L_rule70; L_total (size loaded_models)]) w) ∧
    known = filter (λ m, db_model_name m ∈ loaded_models) (models Demo.manifest) ∧
    Sorted String.le orphans ∧ NoDup orphans ∧
    (∀ n, n ∈ orphans ↔
          n ∈ loaded_models ∧ ∀ m, m ∈ models Demo.manifest → db_model_name m ≠ n) ∧
    (∀ n, n ∈ loaded_models →
          n ∈ orphans ∨ ∃ m, m ∈ known ∧ db_model_name m = n).
Proof.
  intros loaded_models w.
  apply (proj2 (drop_listing_reports_every_registered_name Demo.manifest loaded_models w)).
  intros Hempty.
  assert (Hin : "ZETA" ∈ loaded_models) by (unfold loaded_models; set_solver).
  rewrite Hempty in Hin. by apply not_elem_of_empty in Hin.
Defined.

(** The listing of the witness: the two known models in manifest order,
    then the two orphans in ascending order. *)
Example drop_listing_example :
  log (Drop.list_models Demo.manifest {["ZETA"; "MODEL_C"; "ALPHA"; "MODEL_A"]}
         (Demo.world [] [] [])).2 =
    Print <$> [L_loaded_header; L_rule70;
               L_loaded_row "a" "MODEL_A" "first"; L_loaded_row "c" "MODEL_C" "third";
               L_orphan_row "ALPHA"; L_orphan_row "ZETA";
               L_rule70; L_total 4].
Proof. vm_compute. reflexivity. Qed.

(** ** What the drop script does and never does *)

Global Instance drop_trace_preorder loaded_models : PreOrder (drop_trace loaded_models).
Proof.
  split.
  - intros w. split; reflexivity.
  - intros w1 w2 w3 [Hf1 H1] [Hf2 H2]. split; [congruence|by etrans].
Qed.

Lemma drop_trace_record loaded_models e w :
  drop_event loaded_models e → drop_trace loaded_models w (record e w).
Proof. intros He. split; [done|]. by apply emits_record. Qed.

Lemma drop_trace_prints loaded_models (ls : list Line) w :
  drop_trace loaded_models w (record_all (Print <$> ls) w).
Proof. split; [apply fs_record_all|]. by apply emits_prints. Qed.

Lemma drop_trace_print loaded_models l : stable (drop_trace loaded_models) (print l).
Proof. intros w. by apply drop_trace_record. Qed.

Lemma drop_trace_drop_model loaded_models n :
  n ∈ loaded_models → stable (drop_trace loaded_models) (drop_model n).
Proof.
  intros Hin. unfold drop_model.
  apply stable_bind; [apply _| |intros _; apply drop_trace_print].
  apply stable_backend; [apply _| |].
  - intros w. split; [done|]. apply emits_issued. simpl. by apply bool_decide_pack.
  - intros w. split; [done|]. by apply emits_same_log.
Qed.

Lemma drop_trace_list_models config loaded_models :
  stable (drop_trace loaded_models) (Drop.list_models config loaded_models).
Proof.
  intros w. destruct (decide (loaded_models = ∅)) as [He|Hne].
  - rewrite drop_list_models_empty by exact He. by apply drop_trace_record.
  - rewrite drop_list_models_run by exact Hne. apply drop_trace_prints.
Qed.

Lemma drop_trace_resolve_one config loaded_models model_id acc :
  stable (drop_trace loaded_models)
    (Drop.resolve_one config loaded_models model_id acc).
Proof.
  unfold Drop.resolve_one. destruct (Drop.get_model_by_id config model_id) as [m|].
  - apply stable_if; [apply stable_ret, _|].
    apply stable_bind; [apply _|apply drop_trace_print|intros; apply stable_ret, _].
  - apply stable_bind; [apply _|apply drop_trace_print|intros _].
    apply stable_bind; [apply _|apply drop_trace_print|intros _].
    apply stable_bind; [apply _| |intros; apply stable_exit, _].
    intros w. rewrite (for_each_print (λ m, L_valid_id (id m))).
    rewrite list_fmap_compose. apply drop_trace_prints.
Qed.

(** Every entry of the list of the models to drop names a model of the
    snapshot. *)
Lemma resolve_names_registered args config (loaded_models : gset string) w plan w' :
  Drop.resolve args config loaded_models w = (Ok plan, w') →
  Forall (λ t : Drop.Target, t.1 ∈ loaded_models) plan.
Proof.
  unfold Drop.resolve. destruct (Drop.all args).
  - intros [= <- <-]. unfold Drop.resolve_all.
    apply Forall_fmap, Forall_forall. intros n Hn. simpl.
    by apply elem_of_elements in Hn.
  - assert (Hgen : ∀ ids acc w,
      Forall (λ t : Drop.Target, t.1 ∈ loaded_models) acc →
      for_each (Drop.resolve_one config loaded_models) ids acc w = (Ok plan, w') →
      Forall (λ t : Drop.Target, t.1 ∈ loaded_models) plan).
    { induction ids as [|i ids IH]; intros acc w0 Hacc Hrun.
      - injection Hrun as <- <-. exact Hacc.
      - rewrite for_each_cons in Hrun.
        apply bind_ok_inv in Hrun as (acc1 & w1 & Hone & Hrest).
        apply (IH acc1 w1); [|exact Hrest].
        unfold Drop.resolve_one in Hone.
        destruct (Drop.get_model_by_id config i) as [m|].
        + destruct (decide (db_model_name m ∈ loaded_models)) as [Hin|Hout].
          * rewrite bool_decide_eq_true_2 in Hone by exact Hin.
            injection Hone as <- <-. apply Forall_app. split; [exact Hacc|].
            by apply Forall_singleton.
          * rewrite bool_decide_eq_false_2 in Hone by exact Hout.
            rewrite bind_run, print_run in Hone. injection Hone as <- <-. exact Hacc.
        + do 2 (rewrite bind_run, print_run in Hone; cbv beta iota in Hone).
          rewrite bind_run, (for_each_print (λ m, L_valid_id (id m))) in Hone.
          discriminate. }
    apply Hgen. constructor.
Qed.

Lemma drop_trace_resolve args config loaded_models :
  stable (drop_trace loaded_models) (Drop.resolve args config loaded_models).
Proof.
  unfold Drop.resolve. apply stable_if; [apply stable_ret, _|].
  apply stable_for_each; [apply _|]. intros i acc _. apply drop_trace_resolve_one.
Qed.

Lemma drop_trace_confirm loaded_models plan :
  stable (drop_trace loaded_models) (Drop.confirm_deletion plan).
Proof.
  unfold Drop.confirm_deletion.
  apply stable_bind; [apply _|apply drop_trace_print|intros _].
  apply stable_bind; [apply _| |intros _].
  { apply stable_for_each; [apply _|]. intros t [] _.
    apply stable_if; apply drop_trace_print. }
  apply stable_bind; [apply _| |intros [line|]].
  - intros w. by apply drop_trace_record.
  - apply stable_ret, _.
  - apply stable_bind; [apply _|apply drop_trace_print|intros; apply stable_ret, _].
Qed.

Lemma drop_trace_drop_one config loaded_models (t : Drop.Target) k :
  t.1 ∈ loaded_models → stable (drop_trace loaded_models) (Drop.drop_one config t k).
Proof.
  intros Hin. unfold Drop.drop_one.
  apply stable_bind; [apply _| |intros _].
  { apply stable_if; [|apply drop_trace_print].
    destruct (Drop.get_model_by_id config (default "" t.2));
      [apply drop_trace_print|intros w; reflexivity]. }
  apply stable_bind; [apply _|by apply drop_trace_drop_model|intros; apply stable_ret, _].
Qed.

Lemma drop_trace_execute args config loaded_models plan :
  Forall (λ t : Drop.Target, t.1 ∈ loaded_models) plan →
  stable (drop_trace loaded_models) (Drop.execute args config plan).
Proof.
  intros Hplan. unfold Drop.execute.
  apply stable_if; [apply drop_trace_print|].
  apply stable_bind; [apply _| |intros confirmed].
  { apply stable_if; [apply stable_ret, _|apply drop_trace_confirm]. }
  apply stable_if; [apply drop_trace_print|].
  apply stable_bind; [apply _|apply drop_trace_print|intros _].
  apply stable_bind; [apply _| |intros; apply drop_trace_print].
  apply stable_for_each; [apply _|]. intros t k Ht.
  apply drop_trace_drop_one. rewrite Forall_forall in Hplan. by apply Hplan.
Qed.

(** What follows the snapshot in the session of the drop script. *)
Lemma drop_trace_after_snapshot args config loaded_models :
  stable (drop_trace loaded_models)
    (if Drop.list_flag args then Drop.list_models config loaded_models
     else
       models_to_drop ← Drop.resolve args config loaded_models;
       Drop.execute args config models_to_drop).
Proof.
  apply stable_if; [apply drop_trace_list_models|].
  intros w. rewrite bind_run.
  pose proof (drop_trace_resolve args config loaded_models w) as Hres.
  destruct (Drop.resolve args config loaded_models w) as [[plan|e|c] w1] eqn:Hrun;
    simpl in Hres; try exact Hres.
  etrans; [exact Hres|]. apply drop_trace_execute.
  by eapply resolve_names_registered.
Qed.

Lemma drop_trace_after_snapshot_without args e loaded_models :
  stable (drop_trace loaded_models)
    (if Drop.list_flag args then
       if bool_decide (loaded_models = ∅) then print L_none_loaded
       else print L_loaded_header ;; print L_rule70 ;; raise e
     else if Drop.all args then
       if bool_decide (loaded_models = ∅) then print L_nothing_to_drop else raise e
     else
       if bool_decide (Drop.model_ids args = []) then print L_nothing_to_drop
       else raise e).
Proof.
  repeat apply stable_if; try apply drop_trace_print; try apply stable_raise, _.
  apply stable_bind; [apply _|apply drop_trace_print|intros _].
  apply stable_bind; [apply _|apply drop_trace_print|intros _]. apply stable_raise, _.
Qed.

(** X5. Whatever its arguments, its world and the way it ends, a run of
    the drop script leaves the files as they are and does nothing but:
    open the manifest, connect, query, print, prompt, drop and close; and
    every drop it issues is of a name that was registered when the run
    started.  In particular it never loads a model and never checks,
    fetches, writes or deletes an artifact file. *)
Theorem drop_script_events args w :
  fs (Drop.main args w).2 = fs w ∧
  log (Drop.main args w).2 = log w ++ new_events w (Drop.main args w).2 ∧
  Forall (drop_main_event (registry w)) (new_events w (Drop.main args w).2).
Proof.
  assert (H : fs (Drop.main args w).2 = fs w ∧
              emits (drop_main_event (registry w)) w (Drop.main args w).2).
  2: { destruct H as [Hfs Hem]. apply emits_new_events in Hem. tauto. }
  unfold Drop.main.
  destruct (negb (Drop.list_flag args) && negb (Drop.all args) &&
            bool_decide (Drop.model_ids args = [])).
  { simpl. split; [done|]. by apply emits_record. }
  destruct (Drop.all args && negb (bool_decide (Drop.model_ids args = []))).
  { simpl. split; [done|]. by apply emits_record. }
  rewrite bind_run.
  assert (Hopen : emits (drop_main_event (registry w)) w
                    (record (Open "models.json") w)).
  { apply emits_record. by cbn. }
  pose proof (load_config_world w) as Hw1.
  destruct (load_config w) as [[document|e|c] w1]; simpl in Hw1; subst w1;
    try (split; [done|exact Hopen]).
  rewrite bind_run. unfold except_db, get_db_connection. simpl password. simpl reachable.
  rewrite ?getenv_password_record.
  destruct (truthy_opt (getenv_password w)).
  2: { simpl. split; [done|]. etrans; [exact Hopen|].
       etrans; [by apply (emits_record _ (Print L_password_unset))|].
       by apply emits_record. }
  destruct (reachable w).
  2: { simpl. split; [done|]. etrans; [exact Hopen|].
       etrans; [by apply (emits_record _ Connect)|]. by apply emits_record. }
  unfold emit. cbv beta iota. rewrite try_finally_close. cbn [snd].
  assert (Hstart : emits (drop_main_event (registry w)) w
                     (issued Query (record Connect (record (Open "models.json") w)))).
  { etrans; [exact Hopen|].
    etrans; [by apply (emits_record _ Connect)|]. by apply emits_issued. }
  destruct document as [config|other];
    unfold Drop.session, Drop.session_without_models.
  all: rewrite bind_run; unfold get_loaded_models, backend; simpl faults.
  all: destruct (head (faults w)) as [[]|] eqn:Hq; cbv beta iota.
  all: try (simpl; split; [done|]; etrans; [exact Hstart|]; by apply emits_record).
  all: simpl registry.
  all: first
    [ pose proof (drop_trace_after_snapshot args config (list_to_set (registry w))
        (issued Query (record Connect (record (Open "models.json") w)))) as [Hfs Hem]
    | pose proof (drop_trace_after_snapshot_without args other
        (list_to_set (registry w))
        (issued Query (record Connect (record (Open "models.json") w)))) as [Hfs Hem] ].
  all: split; [exact Hfs|].
  all: etrans; [exact Hstart|]; etrans; [|by apply emits_record].
  all: eapply emits_mono; [|exact Hem].
  all: intros [] He; simpl in *; auto; done.
Qed.

(** ** Getting and releasing the session *)

(** The password comes from the environment and, when the variable is
    unset there, from [.env]; a variable that is set but empty is not
    overridden. *)
Example password_from_dotenv :
  let w0 := Demo.world [] [] [] in
  let w p d :=
    {| fs := fs w0; password := p; dotenv := d; reachable := true;
       registry := []; faults := []; net := net w0; stdin := None; log := [] |} in
  get_db_connection (w None (Some "secret")) =
    (Ok tt, record Connect (w None (Some "secret"))) ∧
  (get_db_connection (w (Some "") (Some "secret"))).1 = Exit 1 ∧
  (get_db_connection (w None None)).1 = Exit 1 ∧
  (get_db_connection (w None (Some ""))).1 = Exit 1.
Proof. vm_compute. repeat split; reflexivity. Qed.

Lemma drop_usage_ok_checks args :
  drop_usage_ok args = true →
  negb (Drop.list_flag args) && negb (Drop.all args) &&
    bool_decide (Drop.model_ids args = []) = false ∧
  Drop.all args && negb (bool_decide (Drop.model_ids args = [])) = false.
Proof.
  unfold drop_usage_ok. intros H. apply andb_prop in H as [H1 H2].
  split; by apply negb_true_iff.
Qed.

(** X1. When no password is found, the load script and the drop script
    (its usage checks passed) read the manifest, print the two lines about
    the missing variable and exit with status 1: no connection is
    attempted and nothing else happens.  The password is the value of
    [VCTR_USER_PWD] in the environment and, only when the variable is unset
    there, its value in [.env]; it is not found when that value is missing
    or empty, so [.env] does not help against a variable that is set but
    empty. *)
Theorem missing_password_ends_before_connecting config w :
  fs w !! "models.json" = Some (Json config) →
  truthy_opt (getenv_password w) = false →
  (∀ args,
     Load.main args w =
       (Exit 1, record_all [Open "models.json"; Print L_password_unset;
                            Print L_password_hint] w)) ∧
  (∀ args, drop_usage_ok args = true →
     Drop.main args w =
       (Exit 1, record_all [Open "models.json"; Print L_password_unset;
                            Print L_password_hint] w)).
Proof.
  intros Hman Hpw.
  assert (Hconn : except_db get_db_connection (print L_connect_failed ;; sys_exit 1)
                    (record (Open "models.json") w) =
                  (Exit 1, record_all [Open "models.json"; Print L_password_unset;
                                       Print L_password_hint] w)).
  { unfold except_db, get_db_connection.
    rewrite getenv_password_record, Hpw. reflexivity. }
  split.
  - intros args. unfold Load.main.
    rewrite bind_run, (load_config_reads config) by exact Hman.
    rewrite bind_run, Hconn. reflexivity.
  - intros args Hu. destruct (drop_usage_ok_checks args Hu) as [H1 H2].
    unfold Drop.main. rewrite H1, H2.
    rewrite bind_run, (load_config_reads config) by exact Hman.
    rewrite bind_run, Hconn. reflexivity.
Qed.

Lemma missing_password_ends_before_connecting_witness :
  let w := Demo.world [] ["MODEL_A"] [] in
  let w0 :=
    {| fs := fs w; password := Some ""; dotenv := Some "secret"; reachable := true;
       registry := registry w;
       faults := []; net := net w; stdin := None; log := [] |} in
  Load.main Demo.load_all w0 =
    (Exit 1, record_all [Open "models.json"; Print L_password_unset;
                         Print L_password_hint] w0) ∧
  Drop.main drop_all w0 =
    (Exit 1, record_all [Open "models.json"; Print L_password_unset;
                         Print L_password_hint] w0).
Proof.
  intros w w0.
  destruct (missing_password_ends_before_connecting Demo.manifest w0) as [Hl Hd].
  - reflexivity.
  - reflexivity.
  - split; [apply Hl|apply Hd; reflexivity].
Defined.

(** X2. When the database cannot be reached (the password being set), the
    load script and the drop script (its usage checks passed) catch the
    error of the connection attempt, print the failure and exit with
    status 1: nothing is queried, and there is no session to close. *)
Theorem connection_failure_exits_with_status_1 config w :
  fs w !! "models.json" = Some (Json config) →
  truthy_opt (password w) = true → reachable w = false →
  (∀ args,
     Load.main args w =
       (Exit 1, record_all [Open "models.json"; Connect; Print L_connect_failed] w)) ∧
  (∀ args, drop_usage_ok args = true →
     Drop.main args w =
       (Exit 1, record_all [Open "models.json"; Connect; Print L_connect_failed] w)).
Proof.
  intros Hman Hpw Hreach.
  apply getenv_password_of_environment in Hpw.
  assert (Hconn : except_db get_db_connection (print L_connect_failed ;; sys_exit 1)
                    (record (Open "models.json") w) =
                  (Exit 1, record_all [Open "models.json"; Connect;
                                       Print L_connect_failed] w)).
  { unfold except_db, get_db_connection. simpl reachable.
    rewrite getenv_password_record, Hpw, Hreach. reflexivity. }
  split.
  - intros args. unfold Load.main.
    rewrite bind_run, (load_config_reads config) by exact Hman.
    rewrite bind_run, Hconn. reflexivity.
  - intros args Hu. destruct (drop_usage_ok_checks args Hu) as [H1 H2].
    unfold Drop.main. rewrite H1, H2.
    rewrite bind_run, (load_config_reads config) by exact Hman.
    rewrite bind_run, Hconn. reflexivity.
Qed.

Lemma connection_failure_exits_with_status_1_witness :
  let w := Demo.world [] ["MODEL_A"] [] in
  let w0 :=
    {| fs := fs w; password := password w; dotenv := None; reachable := false;
       registry := registry w;
       faults := []; net := net w; stdin := None; log := [] |} in
  Load.main Demo.load_all_force w0 =
    (Exit 1, record_all [Open "models.json"; Connect; Print L_connect_failed] w0) ∧
  Drop.main drop_all w0 =
    (Exit 1, record_all [Open "models.json"; Connect; Print L_connect_failed] w0).
Proof.
  intros w w0.
  destruct (connection_failure_exits_with_status_1 Demo.manifest w0) as [Hl Hd].
  - reflexivity.
  - reflexivity.
  - reflexivity.
  - split; [apply Hl|apply Hd; reflexivity].
Defined.

Lemma new_events_eq w w' es : log w' = log w ++ es → new_events w w' = es.
Proof. intros H. unfold new_events. by rewrite H, drop_app_length. Qed.

Lemma filter_none {A} (P : A → Prop) `{!∀ x, Decision (P x)} l :
  Forall (λ x, ¬ P x) l → filter P l = [].
Proof.
  induction 1 as [|x l Hx _ IH]; [done|].
  by rewrite filter_cons, decide_False.
Qed.

(** The session of the load script issues no close of its own. *)
Lemma load_session_never_closes args document w :
  emits (λ e, e ≠ Close) w
    ((loaded_models ← get_loaded_models;
      match document with
      | Manifest config =>
          if Load.list_flag args then Load.list_models config loaded_models
          else
            batch ← Load.select_models args config loaded_models;
            print (L_load_start (length batch)) ;;
            counts ← for_each (Load.load_one (Load.force args) loaded_models) batch (0, 0);
            print (L_load_done (fst counts) (snd counts))
      | Shapeless e => Load.session_without_models args e
      end) w).2.
Proof.
  rewrite bind_run. unfold get_loaded_models, backend.
  destruct (head (faults w)) as [[]|]; cbv beta iota.
  1: by apply emits_issued.
  all: etrans; [by apply (emits_issued _ Query)|].
  all: destruct (load_trace_after_snapshot_any args document
                   (list_to_set (registry (issued Query w))) (issued Query w)) as [_ Hem].
  all: eapply emits_mono; [|exact Hem].
  all: by intros [].
Qed.

(** The session of the drop script issues no close of its own. *)
Lemma drop_session_never_closes args document w :
  emits (λ e, e ≠ Close) w
    (match document with
     | Manifest config => Drop.session args config
     | Shapeless e => Drop.session_without_models args e
     end w).2.
Proof.
  destruct document as [config|other];
    unfold Drop.session, Drop.session_without_models.
  all: rewrite bind_run; unfold get_loaded_models, backend.
  all: destruct (head (faults w)) as [[]|]; cbv beta iota.
  all: try by apply emits_issued.
  all: (etrans; [by apply (emits_issued _ Query)|]).
  all: first
    [ destruct (drop_trace_after_snapshot args config
                  (list_to_set (registry (issued Query w))) (issued Query w)) as [_ Hem]
    | destruct (drop_trace_after_snapshot_without args other
                  (list_to_set (registry (issued Query w))) (issued Query w)) as [_ Hem] ].
  all: eapply emits_mono; [|exact Hem].
  all: by intros [].
Qed.

Lemma closed_once_at_the_end w w0 w1 :
  log w0 = log w ++ [Open "models.json"; Connect] →
  emits (λ e, e ≠ Close) w0 w1 →
  last (new_events w (record Close w1)) = Some Close ∧
  filter (λ e, e = Close) (new_events w (record Close w1)) = [Close].
Proof.
  intros Hw0 (es & Hlog & Hes).
  rewrite (new_events_eq w (record Close w1)
             ([Open "models.json"; Connect] ++ es ++ [Close])).
  2: { simpl. rewrite Hlog, Hw0. by rewrite <- !app_assoc. }
  split.
  - by rewrite !app_assoc, last_snoc.
  - rewrite !filter_app, (filter_none _ es) by exact Hes.
    rewrite !filter_cons, filter_nil.
    rewrite !decide_False by done. by rewrite decide_True.
Qed.

Lemma load_config_parses w :
  manifest_parses w = true →
  ∃ document, load_config w = (Ok document, record (Open "models.json") w).
Proof.
  unfold manifest_parses, load_config. simpl fs.
  destruct (fs w !! "models.json") as [[config| | | | |other]|]; try discriminate;
    intros _; eauto.
Qed.

Lemma load_config_fails w :
  manifest_parses w = false →
  ∃ e, load_config w = (Raise e, record (Open "models.json") w).
Proof.
  unfold manifest_parses, load_config. simpl fs.
  destruct (fs w !! "models.json") as [[config| | | | |other]|]; try discriminate;
    intros _; eauto.
Qed.

Lemma session_not_opened {A} (k : Document → M A) w :
  session_opens w = false →
  ∃ es,
    log ((document ← load_config;
          except_db get_db_connection (print L_connect_failed ;; sys_exit 1) ;;
          k document) w).2 = log w ++ es ∧
    Close ∉ es.
Proof.
  unfold session_opens. rewrite bind_run.
  destruct (manifest_parses w) eqn:Hp.
  2: { destruct (load_config_fails w Hp) as [e ->]. intros _.
       exists [Open "models.json"]. split; [done|by apply (bool_decide_unpack _)]. }
  destruct (load_config_parses w Hp) as [document ->]. cbv beta iota.
  rewrite bind_run. unfold except_db, get_db_connection. simpl reachable.
  rewrite ?getenv_password_record.
  destruct (truthy_opt (getenv_password w)); simpl.
  - destruct (reachable w); [discriminate|]. intros _. simpl.
    exists [Open "models.json"; Connect; Print L_connect_failed].
    split; [by rewrite <- !app_assoc|by apply (bool_decide_unpack _)].
  - intros _. exists [Open "models.json"; Print L_password_unset; Print L_password_hint].
    split; [by rewrite <- !app_assoc|by apply (bool_decide_unpack _)].
Qed.

Lemma session_opened {A} (body : Document → M A) w :
  session_opens w = true →
  ∃ document,
    (document ← load_config;
     except_db get_db_connection (print L_connect_failed ;; sys_exit 1) ;;
     try_finally (body document) conn_close) w =
    ((body document (record Connect (record (Open "models.json") w))).1,
     record Close (body document (record Connect (record (Open "models.json") w))).2).
Proof.
  unfold session_opens.
  intros [[Hp Hpw]%andb_prop Hreach]%andb_prop.
  destruct (load_config_parses w Hp) as [document Hload]. exists document.
  rewrite bind_run, Hload. cbv beta iota.
  rewrite bind_run. unfold except_db.
  rewrite get_db_connection_opens by assumption.
  apply try_finally_close.
Qed.

(** X3. The database session is closed exactly when it was opened.  When
    [models.json] parses as JSON (whatever it holds), a password is found
    (in the environment or, the variable being unset there, in [.env]) and
    the database answers (and, for the drop script, the usage checks
    pass), the close is the last thing the run does, whatever way the run
    ends, and it happens once; otherwise no close happens at all. *)
Theorem session_closed_exactly_when_opened w :
  (∀ args,
     if session_opens w then
       last (new_events w (Load.main args w).2) = Some Close ∧
       filter (λ e, e = Close) (new_events w (Load.main args w).2) = [Close]
     else Close ∉ new_events w (Load.main args w).2) ∧
  (∀ args,
     if session_opens w && drop_usage_ok args then
       last (new_events w (Drop.main args w).2) = Some Close ∧
       filter (λ e, e = Close) (new_events w (Drop.main args w).2) = [Close]
     else Close ∉ new_events w (Drop.main args w).2).
Proof.
  assert (Hnone : ∀ es w', log w' = log w ++ es → Close ∉ es →
                            Close ∉ new_events w w').
  { intros es w' Hlog Hes. by rewrite (new_events_eq _ _ _ Hlog). }
  split.
  - intros args. destruct (session_opens w) eqn:Hs.
    + destruct (session_opened (λ document,
          loaded_models ← get_loaded_models;
          match document with
          | Manifest config =>
              if Load.list_flag args then Load.list_models config loaded_models
              else
                batch ← Load.select_models args config loaded_models;
                print (L_load_start (length batch)) ;;
                counts ← for_each (Load.load_one (Load.force args) loaded_models)
                           batch (0, 0);
                print (L_load_done (fst counts) (snd counts))
          | Shapeless e => Load.session_without_models args e
          end) w Hs) as [document Hrun].
      unfold Load.main. rewrite Hrun. cbn [snd].
      apply (closed_once_at_the_end w (record Connect (record (Open "models.json") w)));
        [simpl; by rewrite <- app_assoc|].
      apply load_session_never_closes.
    + destruct (session_not_opened (λ document, try_finally
          (loaded_models ← get_loaded_models;
           match document with
           | Manifest config =>
               if Load.list_flag args then Load.list_models config loaded_models
               else
                 batch ← Load.select_models args config loaded_models;
                 print (L_load_start (length batch)) ;;
                 counts ← for_each (Load.load_one (Load.force args) loaded_models)
                            batch (0, 0);
                 print (L_load_done (fst counts) (snd counts))
           | Shapeless e => Load.session_without_models args e
           end) conn_close) w Hs)
        as (es & Hlog & Hes).
      by apply (Hnone es).
  - intros args. unfold Drop.main, drop_usage_ok.
    destruct (negb (Drop.list_flag args) && negb (Drop.all args) &&
              bool_decide (Drop.model_ids args = [])).
    { rewrite andb_false_r. apply (Hnone [Print L_help]); [done|].
      by apply (bool_decide_unpack _). }
    destruct (Drop.all args && negb (bool_decide (Drop.model_ids args = []))).
    { rewrite andb_false_r. apply (Hnone [Print L_all_with_ids]); [done|].
      by apply (bool_decide_unpack _). }
    cbn [negb andb]. rewrite andb_true_r.
    destruct (session_opens w) eqn:Hs.
    + destruct (session_opened (λ document,
          match document with
          | Manifest config => Drop.session args config
          | Shapeless e => Drop.session_without_models args e
          end) w Hs) as [document Hrun].
      rewrite Hrun. cbn [snd].
      apply (closed_once_at_the_end w (record Connect (record (Open "models.json") w)));
        [simpl; by rewrite <- app_assoc|].
      apply drop_session_never_closes.
    + destruct (session_not_opened
                  (λ document, try_finally
                     (match document with
                      | Manifest config => Drop.session args config
                      | Shapeless e => Drop.session_without_models args e
                      end) conn_close) w Hs)
        as (es & Hlog & Hes).
      by apply (Hnone es).
Qed.

(** ** What the download script does and never does *)

Global Instance download_trace_preorder ms : PreOrder (download_trace ms).
Proof.
  split.
  - intros w. repeat split; reflexivity.
  - intros w1 w2 w3 (Hr1 & Hf1 & H1) (Hr2 & Hf2 & H2).
    split; [congruence|]. split; [congruence|by etrans].
Qed.

Lemma download_trace_record ms e w :
  download_event ms e → download_trace ms w (record e w).
Proof. intros He. split; [done|]. split; [done|]. by apply emits_record. Qed.

Lemma download_trace_set_fs ms f w : download_trace ms w (set_fs f w).
Proof. split; [done|]. split; [done|]. by apply emits_same_log. Qed.

Lemma download_trace_print ms l : stable (download_trace ms) (print l).
Proof. intros w. by apply download_trace_record. Qed.

Lemma download_trace_primitive ms e f w :
  download_event ms e → download_trace ms w (set_fs f (record e w)).
Proof.
  intros He. etrans; [by apply download_trace_record|apply download_trace_set_fs].
Qed.

Lemma download_trace_urlretrieve ms from to :
  download_event ms (Retrieve from to) →
  stable (download_trace ms) (Download.urlretrieve from to).
Proof.
  intros He w. unfold Download.urlretrieve. simpl net.
  destruct (net w from); simpl;
    [by apply download_trace_primitive|by apply download_trace_record|
     by apply download_trace_primitive].
Qed.

Lemma download_trace_open_zip ms path :
  download_event ms (Open path) → stable (download_trace ms) (Download.open_zip path).
Proof.
  intros He w. unfold Download.open_zip. simpl fs.
  destruct (fs w !! path) as [[]|]; simpl; by apply download_trace_record.
Qed.

Lemma download_trace_extract ms entries entry :
  download_event ms (Extract entry) →
  stable (download_trace ms) (Download.extract entries entry).
Proof.
  intros He w. unfold Download.extract.
  destruct (find _ _); simpl;
    [by apply download_trace_primitive|by apply download_trace_record].
Qed.

Lemma download_trace_unlink ms path :
  download_event ms (Unlink path) → stable (download_trace ms) (Download.unlink path).
Proof.
  intros He w. unfold Download.unlink. simpl fs.
  destruct (fs w !! path); simpl;
    [by apply download_trace_primitive|by apply download_trace_record].
Qed.

Lemma download_trace_download_model ms m :
  m ∈ ms → stable (download_trace ms) (Download.download_model m).
Proof.
  intros Hm. unfold Download.download_model.
  apply stable_bind; [apply _| |intros present].
  { intros w. apply download_trace_record. simpl. eauto. }
  destruct present; [apply download_trace_print|].
  destruct (endswith (url m) ".zip") eqn:Hz.
  - apply stable_bind; [apply _|apply download_trace_print|intros _].
    apply stable_bind; [apply _| |intros _].
    { apply download_trace_urlretrieve. simpl. exists m. by rewrite Hz. }
    apply stable_bind; [apply _|apply download_trace_print|intros _].
    apply stable_bind; [apply _| |intros entries].
    { apply download_trace_open_zip. simpl. eauto. }
    apply stable_bind; [apply _| |intros _].
    { apply stable_for_each; [apply _|]. intros e [] _.
      destruct (endswith e.1 ".onnx") eqn:He; [|apply stable_ret, _].
      by apply download_trace_extract. }
    apply stable_bind; [apply _| |intros _; apply download_trace_print].
    apply download_trace_unlink. simpl. eauto.
  - apply stable_bind; [apply _|apply download_trace_print|intros _].
    apply stable_bind; [apply _| |intros _; apply download_trace_print].
    apply download_trace_urlretrieve. simpl. exists m. by rewrite Hz.
Qed.

(** What follows the reading of the manifest in the download script. *)
Lemma download_trace_after_manifest target config :
  stable (download_trace (models config))
    (if bool_decide
          (filter (λ m, target = None ∨ Some (id m) = target) (models config) = [])
     then
       print (L_not_found target) ;;
       print L_available_models ;;
       for_each (λ m (_ : unit), print (L_available_item (id m) (name m)))
         (models config) tt ;;
       sys_exit 1
     else
       print (L_download_start
                (length (filter (λ m, target = None ∨ Some (id m) = target)
                           (models config)))) ;;
       for_each (λ m (_ : unit), Download.download_model m)
         (filter (λ m, target = None ∨ Some (id m) = target) (models config)) tt ;;
       print L_done).
Proof.
  apply stable_if.
  - apply stable_bind; [apply _|apply download_trace_print|intros _].
    apply stable_bind; [apply _|apply download_trace_print|intros _].
    apply stable_bind; [apply _| |intros; apply stable_exit, _].
    apply stable_for_each; [apply _|]. intros m [] _. apply download_trace_print.
  - apply stable_bind; [apply _|apply download_trace_print|intros _].
    apply stable_bind; [apply _| |intros _; apply download_trace_print].
    apply stable_for_each; [apply _|]. intros m [] Hm.
    apply download_trace_download_model.
    by apply list_elem_of_filter in Hm as [_ Hm].
Qed.

(** X6. Whatever its argument, its world and the way it ends, a run of
    the download script leaves the registry alone and does nothing but:
    open the manifest, print, check for the output file of a manifest
    model, download the URL of a manifest model (to the model's temporary
    archive when the URL ends in [.zip], to its output file otherwise),
    open such a temporary archive, extract entries whose names end in
    [.onnx], and delete such a temporary archive.  In particular it never
    connects to the database, never prompts, and deletes no file but a
    temporary archive. *)
Theorem download_script_events target w :
  registry (Download.main target w).2 = registry w ∧
  log (Download.main target w).2 = log w ++ new_events w (Download.main target w).2 ∧
  Forall (download_event (manifest_models w)) (new_events w (Download.main target w).2).
Proof.
  assert (H : download_trace (manifest_models w) w (Download.main target w).2).
  2: { destruct H as (Hr & _ & Hem). apply emits_new_events in Hem. tauto. }
  unfold Download.main, manifest_models. rewrite bind_run. unfold load_config. simpl fs.
  destruct (fs w !! "models.json") as [[config| | | | |other]|] eqn:Hm;
    try (apply download_trace_record; by left).
  etrans; [apply (download_trace_record _ (Open "models.json")); by left|].
  apply (download_trace_after_manifest target config).
Qed.

(** ** The listing, the summary and [--force] of the load script *)

(** X7. The listing of the load script ([--list]), with the session
    obtained and the snapshot taken: whatever the other arguments (an id,
    [--force]), the run prints, between header and rule, one status row
    for every manifest entry, in manifest order, flagged as loaded exactly
    when the entry's registry name is registered; then it closes the
    session and ends normally.  The registry and the files are as before:
    only the log has grown, and the snapshot query is the one backend
    call. *)
Theorem load_listing_shows_registration_status args config w :
  Load.list_flag args = true →
  fs w !! "models.json" = Some (Json config) →
  truthy_opt (password w) = true → reachable w = true →
  head (faults w) ≠ Some true →
  Load.main args w =
    (Ok tt,
     record_all
       ((Print <$> [L_available_header; L_rule60] ++
           ((λ m, L_status_row (id m) (bool_decide (db_model_name m ∈ registry w))
                    (description m)) <$> models config) ++
           [L_rule60]) ++ [Close])
       (started w)).
Proof.
  intros Hlist Hman Hpw Hreach Hq.
  apply getenv_password_of_environment in Hpw. unfold Load.main.
  rewrite bind_run, (load_config_reads config) by exact Hman.
  rewrite bind_run. unfold except_db.
  rewrite get_db_connection_opens by assumption.
  rewrite try_finally_close.
  rewrite bind_run, get_loaded_models_passes by exact Hq.
  rewrite Hlist, load_list_models_run. cbn [fst snd].
  rewrite (record_all_app _ [Close]). unfold started. simpl registry.
  do 6 f_equal.
  apply list_fmap_ext. intros _ m _. f_equal.
  apply bool_decide_ext, elem_of_list_to_set.
Qed.

Lemma load_listing_shows_registration_status_witness :
  let w := Demo.world ["a.onnx"] ["MODEL_B"; "ORPHAN"] [] in
  Load.main {| Load.model_id := Some "nobody"; Load.list_flag := true;
               Load.force := true |} w =
    (Ok tt,
     record_all
       ((Print <$> [L_available_header; L_rule60] ++
           ((λ m, L_status_row (id m) (bool_decide (db_model_name m ∈ registry w))
                    (description m)) <$> models Demo.manifest) ++
           [L_rule60]) ++ [Close])
       (started w)).
Proof.
  intros w.
  apply (load_listing_shows_registration_status _ Demo.manifest w).
  - reflexivity.
  - reflexivity.
  - reflexivity.
  - reflexivity.
  - discriminate.
Defined.

(** The rows of the witness. *)
Example load_listing_example :
  log (Load.main {| Load.model_id := Some "nobody"; Load.list_flag := true;
                    Load.force := true |}
         (Demo.world ["a.onnx"] ["MODEL_B"; "ORPHAN"] [])).2 =
    [Open "models.json"; Connect; Query;
     Print L_available_header; Print L_rule60;
     Print (L_status_row "a" false "first");
     Print (L_status_row "b" true "second");
     Print (L_status_row "c" false "third");
     Print L_rule60; Close].
Proof. vm_compute. reflexivity. Qed.

(** A normal turn of the load loop counts itself once, as loaded when it
    issued its load call and as skipped when it issued none. *)
Lemma load_one_counts force loaded_models model counts w counts' w' :
  Load.load_one force loaded_models model counts w = (Ok counts', w') →
  ∃ es,
    log w' = log w ++ es ∧
    counts'.1 = counts.1 + length (filter is_load es) ∧
    counts'.1 + counts'.2 = S (counts.1 + counts.2).
Proof.
  intros Hrun.
  pose proof (load_one_turn force loaded_models model counts w) as Hturn.
  rewrite Hrun in Hturn. cbn [fst snd] in Hturn.
  inversion Hturn as [Hin Hforce|Hin Hforce Hq|w1 Hw1 Hf|w1 Hw1 Hf Hq|w1 Hw1 Hf Hq Hfree];
    subst; try (inversion Hw1; subst);
    (eexists; split; [simpl; rewrite <- ?app_assoc; reflexivity|]);
    simpl; lia.
Qed.

Lemma load_loop_counts force loaded_models batch counts w counts' w' :
  for_each (Load.load_one force loaded_models) batch counts w = (Ok counts', w') →
  ∃ es,
    log w' = log w ++ es ∧
    counts'.1 = counts.1 + length (filter is_load es) ∧
    counts'.1 + counts'.2 = counts.1 + counts.2 + length batch.
Proof.
  revert counts w. induction batch as [|m batch IH]; intros counts w Hrun.
  - injection Hrun as <- <-. exists []. rewrite app_nil_r. split; [done|simpl; lia].
  - rewrite for_each_cons in Hrun.
    apply bind_ok_inv in Hrun as (c1 & w1 & Hone & Hrest).
    apply load_one_counts in Hone as (es1 & Hlog1 & Hl1 & Hs1).
    apply IH in Hrest as (es2 & Hlog2 & Hl2 & Hs2).
    exists (es1 ++ es2). rewrite Hlog2, Hlog1, app_assoc. split; [done|].
    rewrite filter_app, length_app. simpl. lia.
Qed.

(** X9. The summary of the load script is right.  A run that is no
    listing and ends normally ends by printing its summary and closing
    the session; the two counts of the summary add up to the number of
    models of the batch, and the count of loaded models is the number of
    load calls the run issued. *)
Theorem load_summary_counts_the_batch args w w' :
  Load.list_flag args = false →
  Load.main args w = (Ok tt, w') →
  ∃ config es loaded skipped,
    fs w !! "models.json" = Some (Json config) ∧
    new_events w w' = es ++ [Print (L_load_done loaded skipped); Close] ∧
    loaded + skipped = length (Load.models_to_load args config) ∧
    loaded = length (filter is_load es).
Proof.
  intros Hlist Hrun.
  apply load_main_ok_inv in Hrun as (config & counts & w2 & Hman & Hq & Hloop & ->);
    [|exact Hlist].
  apply load_loop_counts in Hloop as (es & Hlog & Hl & Hs).
  exists config,
    ([Open "models.json"; Connect; Query;
      Print (L_load_start (length (Load.models_to_load args config)))] ++ es),
    counts.1, counts.2.
  split; [exact Hman|]. split; [|split].
  - apply new_events_eq. simpl. rewrite Hlog. simpl.
    by rewrite <- !app_assoc.
  - simpl in Hs. lia.
  - rewrite filter_app. simpl in *. by rewrite Hl.
Qed.

Lemma load_summary_counts_the_batch_witness :
  let w := Demo.world ["a.onnx"; "c.onnx"] ["MODEL_C"] [] in
  ∃ config es loaded skipped,
    fs w !! "models.json" = Some (Json config) ∧
    new_events w (Load.main Demo.load_all w).2 =
      es ++ [Print (L_load_done loaded skipped); Close] ∧
    loaded + skipped = length (Load.models_to_load Demo.load_all config) ∧
    loaded = length (filter is_load es).
Proof.
  intros w.
  apply (load_summary_counts_the_batch Demo.load_all w (Load.main Demo.load_all w).2).
  - reflexivity.
  - vm_compute. reflexivity.
Defined.

Lemma for_each_ext {A S} (body1 body2 : A → S → M S) xs acc w :
  (∀ x a w, x ∈ xs → body1 x a w = body2 x a w) →
  for_each body1 xs acc w = for_each body2 xs acc w.
Proof.
  revert acc w. induction xs as [|x xs IH]; intros acc w H; [reflexivity|].
  rewrite !for_each_cons, !bind_run, H by left.
  destruct (body2 x acc w) as [[a|e|c] w1]; try reflexivity.
  apply IH. intros y b w2 Hy. apply H. by right.
Qed.

(** X10. [--force] matters for registered models only.  When no model of
    the batch has its registry name registered, the run with [--force] is
    the run without it: the same outcome, the same world, the same log. *)
Theorem force_only_matters_for_registered_models args config w :
  fs w !! "models.json" = Some (Json config) →
  (∀ m, m ∈ Load.models_to_load args config → db_model_name m ∉ registry w) →
  Load.main (with_force true args) w = Load.main (with_force false args) w.
Proof.
  intros Hman Hfree. unfold Load.main.
  rewrite !bind_run, !(load_config_reads config) by exact Hman.
  rewrite !bind_run.
  destruct (except_db get_db_connection (print L_connect_failed ;; sys_exit 1)
              (record (Open "models.json") w)) as [[[]|e|c] w1] eqn:Hconn;
    try reflexivity.
  assert (Hreg : registry w1 = registry w).
  { unfold except_db, get_db_connection in Hconn. simpl in Hconn.
    rewrite ?getenv_password_record in Hconn.
    destruct (truthy_opt (getenv_password w)); [|discriminate].
    destruct (reachable w); [|discriminate].
    by injection Hconn as <-. }
  rewrite !try_finally_close.
  match goal with
  | |- (?a.1, record Close ?a.2) = (?b.1, record Close ?b.2) =>
      assert (Hbody : a = b); [|by rewrite Hbody]
  end.
  rewrite !bind_run. unfold get_loaded_models, backend.
  destruct (head (faults w1)) as [[]|]; cbv beta iota; try reflexivity.
  all: change (Load.list_flag (with_force true args)) with (Load.list_flag args).
  all: change (Load.list_flag (with_force false args)) with (Load.list_flag args).
  all: destruct (Load.list_flag args); [reflexivity|].
  all: rewrite !bind_run.
  all: change (Load.select_models (with_force true args))
         with (Load.select_models (with_force false args)).
  all: destruct (Load.select_models _ _ _ _) as [[batch|e|c] w2] eqn:Hsel;
         try reflexivity.
  all: rewrite !bind_run, !print_run; cbv beta iota.
  all: rewrite !bind_run.
  all: rewrite (for_each_ext (Load.load_one (Load.force (with_force true args)) _)
                  (Load.load_one (Load.force (with_force false args))
                     (list_to_set (registry (issued Query w1))))); [reflexivity|].
  all: intros m counts w3 Hm; unfold Load.load_one; simpl Load.force.
  all: rewrite !bind_run, !print_run; cbv beta iota.
  all: rewrite bool_decide_eq_false_2; [reflexivity|].
  all: simpl registry; rewrite Hreg, elem_of_list_to_set; apply Hfree.
  all: unfold Load.select_models in Hsel.
  all: destruct (_ && _) in Hsel.
  all: try (by injection Hsel as <- _).
  all: rewrite bind_run, print_run in Hsel; cbv beta iota in Hsel.
  all: rewrite bind_run, load_list_models_run in Hsel; discriminate.
Qed.

Lemma force_only_matters_for_registered_models_witness :
  let w := Demo.world ["a.onnx"; "b.onnx"] ["ORPHAN"] [false; false; true] in
  Load.main (with_force true Demo.load_all) w =
  Load.main (with_force false Demo.load_all) w.
Proof.
  intros w.
  apply (force_only_matters_for_registered_models Demo.load_all Demo.manifest w).
  - reflexivity.
  - intros m Hm. simpl in Hm.
    repeat (apply elem_of_cons in Hm as [->|Hm]); try (by apply elem_of_nil in Hm).
    all: by apply (bool_decide_unpack _).
Defined.


(** ** Confirming and declining a drop *)

Lemma stdin_record_all es w : stdin (record_all es w) = stdin w.
Proof. revert w. induction es as [|e es IH]; intros w; simpl; [done|by rewrite IH]. Qed.

Lemma faults_record_all es w : faults (record_all es w) = faults w.
Proof. revert w. induction es as [|e es IH]; intros w; simpl; [done|by rewrite IH]. Qed.

Lemma confirm_rows_run plan w :
  for_each (λ (t : Drop.Target) (_ : unit),
      if truthy_opt t.2 then print (L_confirm_known t.1 (default "" t.2))
      else print (L_confirm_orphan t.1)) plan tt w =
    (Ok tt, record_all (Print <$> (confirm_line <$> plan)) w).
Proof.
  rewrite (for_each_ext _ (λ t (_ : unit), print (confirm_line t))).
  - rewrite (for_each_print confirm_line). by rewrite list_fmap_compose.
  - intros t [] w1 _. unfold confirm_line. by destruct (truthy_opt t.2).
Qed.

(** The confirmation prompt, run: the header, one line per entry of the
    plan, the prompt, and the verdict on the operator's line; on EOF or
    Ctrl-C a line saying that the drop is cancelled. *)
Lemma confirm_deletion_run plan w :
  Drop.confirm_deletion plan w =
    (Ok (answer_is_yes w),
     record_all
       ((Print <$> L_confirm_header (length plan) :: (confirm_line <$> plan)) ++
        Prompt :: match stdin w with Some _ => [] | None => [Print L_cancelled] end) w).
Proof.
  unfold Drop.confirm_deletion. rewrite bind_run, print_run. cbv beta iota.
  rewrite bind_run, confirm_rows_run. cbv beta iota.
  rewrite bind_run. unfold Drop.input. rewrite stdin_record_all. cbn [stdin record].
  rewrite record_all_app. unfold answer_is_yes.
  destruct (stdin w) as [line|]; reflexivity.
Qed.

Global Instance undisturbed_preorder : PreOrder undisturbed.
Proof.
  split.
  - intros w. by repeat split.
  - intros w1 w2 w3 (?&?&?&?) (?&?&?&?). repeat split; congruence.
Qed.

Lemma undisturbed_record e w : is_mutation e = false → undisturbed w (record e w).
Proof.
  intros He. repeat split; try done. simpl. apply filter_snoc_no.
  rewrite He. simpl. tauto.
Qed.

Lemma undisturbed_issued call w :
  is_mutation call = false → undisturbed w (issued call w).
Proof.
  intros He. repeat split; try done. simpl. apply filter_snoc_no.
  rewrite He. simpl. tauto.
Qed.

Lemma undisturbed_record_all es w :
  Forall (λ e, is_mutation e = false) es → undisturbed w (record_all es w).
Proof.
  intros Hes. revert w. induction Hes as [|e es He _ IH]; intros w; [reflexivity|].
  simpl. etrans; [by apply undisturbed_record|apply IH].
Qed.

Lemma prints_change_nothing (ls : list Line) :
  Forall (λ e, is_mutation e = false) (Print <$> ls).
Proof. apply Forall_fmap, Forall_forall. by intros l _. Qed.

Lemma undisturbed_print l : stable undisturbed (print l).
Proof. intros w. by apply undisturbed_record. Qed.

Lemma undisturbed_load_config : stable undisturbed load_config.
Proof.
  intros w. unfold load_config. simpl fs.
  destruct (fs w !! "models.json") as [[]|]; by apply undisturbed_record.
Qed.

Lemma undisturbed_connect :
  stable undisturbed
    (except_db get_db_connection (print L_connect_failed ;; sys_exit 1)).
Proof.
  apply stable_except_db; [apply _| |].
  - intros w. unfold get_db_connection.
    rewrite ?getenv_password_record.
  destruct (truthy_opt (getenv_password w)).
    + destruct (reachable w); by apply undisturbed_record.
    + simpl. etrans; by apply undisturbed_record.
  - apply stable_bind; [apply _|apply undisturbed_print|intros; apply stable_exit, _].
Qed.

Lemma undisturbed_get_loaded_models : stable undisturbed get_loaded_models.
Proof.
  apply stable_backend; [apply _| |].
  - intros w. by apply undisturbed_issued.
  - intros w. reflexivity.
Qed.

Lemma undisturbed_drop_list_models config loaded_models :
  stable undisturbed (Drop.list_models config loaded_models).
Proof.
  intros w. destruct (decide (loaded_models = ∅)) as [He|Hne].
  - rewrite drop_list_models_empty by exact He. by apply undisturbed_record.
  - rewrite drop_list_models_run by exact Hne.
    apply undisturbed_record_all, prints_change_nothing.
Qed.

Lemma undisturbed_resolve args config loaded_models :
  stable undisturbed (Drop.resolve args config loaded_models).
Proof.
  unfold Drop.resolve. apply stable_if; [apply stable_ret, _|].
  apply stable_for_each; [apply _|]. intros i acc _.
  unfold Drop.resolve_one. destruct (Drop.get_model_by_id config i) as [m|].
  - apply stable_if; [apply stable_ret, _|].
    apply stable_bind; [apply _|apply undisturbed_print|intros; apply stable_ret, _].
  - apply stable_bind; [apply _|apply undisturbed_print|intros _].
    apply stable_bind; [apply _|apply undisturbed_print|intros _].
    apply stable_bind; [apply _| |intros; apply stable_exit, _].
    intros w. rewrite (for_each_print (λ m, L_valid_id (id m))).
    rewrite list_fmap_compose. apply undisturbed_record_all, prints_change_nothing.
Qed.

Global Instance declined_preorder : PreOrder declined.
Proof.
  split.
  - intros w _. reflexivity.
  - intros w1 w2 w3 H12 H23 Hd. pose proof (H12 Hd) as Hu.
    etrans; [exact Hu|]. apply H23. unfold answer_is_yes in *.
    destruct Hu as (_ & _ & Hs & _). by rewrite Hs.
Qed.

Lemma declined_of_undisturbed {A} (m : M A) : stable undisturbed m → stable declined m.
Proof. intros H w _. apply H. Qed.

Lemma declined_execute args config plan :
  Drop.yes args = false → stable declined (Drop.execute args config plan).
Proof.
  intros Hyes w Hd. unfold Drop.execute.
  destruct (bool_decide (plan = [])); [by apply undisturbed_record|].
  rewrite Hyes, bind_run, confirm_deletion_run, Hd. cbn [negb].
  rewrite print_run. cbn [snd]. etrans; [|by apply undisturbed_record].
  apply undisturbed_record_all, Forall_app. split; [apply prints_change_nothing|].
  destruct (stdin w); repeat constructor.
Qed.

Lemma declined_main args : Drop.yes args = false → stable declined (Drop.main args).
Proof.
  intros Hyes. unfold Drop.main.
  assert (Husage : ∀ l, stable declined (print l ;; @sys_exit unit 1)).
  { intros l. apply declined_of_undisturbed.
    apply stable_bind; [apply _|apply undisturbed_print|intros; apply stable_exit, _]. }
  apply stable_if; [apply Husage|].
  apply stable_if; [apply Husage|].
  apply stable_bind;
    [apply _|apply declined_of_undisturbed, undisturbed_load_config|intros document].
  apply stable_bind;
    [apply _|apply declined_of_undisturbed, undisturbed_connect|intros _].
  apply stable_try_finally; [apply _| |].
  2: { apply declined_of_undisturbed. intros w. by apply undisturbed_record. }
  destruct document as [config|other].
  2: { apply declined_of_undisturbed. unfold Drop.session_without_models.
       apply stable_bind; [apply _|apply undisturbed_get_loaded_models|intros ls].
       repeat apply stable_if; try apply undisturbed_print; try apply stable_raise, _.
       apply stable_bind; [apply _|apply undisturbed_print|intros _].
       apply stable_bind; [apply _|apply undisturbed_print|intros _].
       apply stable_raise, _. }
  unfold Drop.session.
  apply stable_bind;
    [apply _|apply declined_of_undisturbed, undisturbed_get_loaded_models|intros ls].
  apply stable_if; [apply declined_of_undisturbed, undisturbed_drop_list_models|].
  apply stable_bind;
    [apply _|apply declined_of_undisturbed, undisturbed_resolve|intros plan].
  by apply declined_execute.
Qed.

(** X11. Without [-y], nothing is dropped unless the operator says yes.
    When the line at the prompt, a text of Unicode code points, is
    anything but [y] in either case, with or without white space around
    it (the white space of Unicode, as [str.strip] removes it), or when
    there is no line at all (EOF, Ctrl-C), then whatever the other
    arguments, the world and the way the run ends, the drop script issues
    no call that changes the registry: the registry and the files are as
    before. *)
Theorem declined_drop_changes_nothing args w :
  Drop.yes args = false → answer_is_yes w = false →
  registry (Drop.main args w).2 = registry w ∧
  fs (Drop.main args w).2 = fs w ∧
  filter is_mutation (log (Drop.main args w).2) = filter is_mutation (log w).
Proof.
  intros Hyes Hd. destruct (declined_main args Hyes w Hd) as (?&?&?&?). auto.
Qed.

Lemma declined_drop_changes_nothing_witness :
  let args := {| Drop.model_ids := ["a"; "b"]; Drop.all := false;
                 Drop.list_flag := false; Drop.yes := false |} in
  let w := with_stdin (Some (text "yes")) (Demo.world [] ["MODEL_A"; "MODEL_B"] []) in
  registry (Drop.main args w).2 = registry w ∧
  fs (Drop.main args w).2 = fs w ∧
  filter is_mutation (log (Drop.main args w).2) = filter is_mutation (log w).
Proof.
  intros args w. apply (declined_drop_changes_nothing args w); reflexivity.
Defined.

(** The run of the witness: the plan is shown, the operator is asked, and
    the answer [yes], which is not [y], cancels the drop; the script ends
    normally. *)
Example declined_drop_example :
  let r := Drop.main {| Drop.model_ids := ["a"; "b"]; Drop.all := false;
                        Drop.list_flag := false; Drop.yes := false |}
             (with_stdin (Some (text "yes")) (Demo.world [] ["MODEL_A"; "MODEL_B"] [])) in
  r.1 = Ok tt ∧
  log r.2 =
    [Open "models.json"; Connect; Query;
     Print (L_confirm_header 2);
     Print (L_confirm_known "MODEL_A" "a"); Print (L_confirm_known "MODEL_B" "b");
     Prompt; Print L_cancelled; Close].
Proof. vm_compute. split; reflexivity. Qed.

(** White space of any kind is stripped: [y] followed by a no-break space
    (U+00A0) and an ideographic space (U+3000) is a yes, and the models
    are dropped. *)
Example no_break_space_is_stripped :
  let line := (text " y" ++ [160; 12288])%N in
  let r := Drop.main {| Drop.model_ids := ["a"; "b"]; Drop.all := false;
                        Drop.list_flag := false; Drop.yes := false |}
             (with_stdin (Some line) (Demo.world [] ["MODEL_A"; "MODEL_B"] [])) in
  Drop.strip line = text "y" ∧
  r.1 = Ok tt ∧ registry r.2 = [] ∧
  filter is_mutation (log r.2) = [DropOnnx "MODEL_A"; DropOnnx "MODEL_B"].
Proof. vm_compute. repeat split; reflexivity. Qed.

(** ** The lookups of the drop script *)

(** A search gives the first element that passes, or fails when none
    passes. *)
Lemma find_first {A} (f : A → bool) l :
  match find f l with
  | Some x =>
      ∃ pre post, l = pre ++ x :: post ∧ f x = true ∧ ∀ y, y ∈ pre → f y = false
  | None => ∀ y, y ∈ l → f y = false
  end.
Proof.
  induction l as [|a l IH]; simpl.
  - intros y Hy. by apply elem_of_nil in Hy.
  - destruct (f a) eqn:Ha.
    + exists [], l. split; [done|]. split; [done|].
      intros y Hy. by apply elem_of_nil in Hy.
    + destruct (find f l) as [x|].
      * destruct IH as (pre & post & -> & Hx & Hpre).
        exists (a :: pre), post. split; [done|]. split; [done|].
        intros y Hy. apply elem_of_cons in Hy as [->|Hy]; auto.
      * intros y Hy. apply elem_of_cons in Hy as [->|Hy]; auto.
Qed.

(** X12. The two lookups of the drop script take the first match.
    Looking a model up by its id (or by its registry name) gives the
    first manifest entry that carries this id (this registry name), so an
    entry that repeats the id (the name) of an earlier one is never found;
    the lookup gives nothing exactly when no entry carries it. *)
Theorem lookups_take_the_first_match config :
  (∀ model_id,
     match Drop.get_model_by_id config model_id with
     | Some m =>
         ∃ pre post, models config = pre ++ m :: post ∧ id m = model_id ∧
                     ∀ m', m' ∈ pre → id m' ≠ model_id
     | None => ∀ m, m ∈ models config → id m ≠ model_id
     end) ∧
  (∀ db_name,
     match Drop.get_model_by_db_name config db_name with
     | Some m =>
         ∃ pre post, models config = pre ++ m :: post ∧ db_model_name m = db_name ∧
                     ∀ m', m' ∈ pre → db_model_name m' ≠ db_name
     | None => ∀ m, m ∈ models config → db_model_name m ≠ db_name
     end).
Proof.
  split.
  - intros model_id. unfold Drop.get_model_by_id.
    pose proof (find_first (λ model, bool_decide (id model = model_id)) (models config))
      as Hfind.
    destruct (find _ _) as [m|].
    + destruct Hfind as (pre & post & Hsplit & Hm & Hpre).
      exists pre, post. split; [done|]. split; [by apply bool_decide_eq_true_1 in Hm|].
      intros m' Hm'. specialize (Hpre m' Hm'). by apply bool_decide_eq_false_1 in Hpre.
    + intros m Hm. specialize (Hfind m Hm). by apply bool_decide_eq_false_1 in Hfind.
  - intros db_name. unfold Drop.get_model_by_db_name.
    pose proof (find_first (λ model, bool_decide (db_model_name model = db_name))
                  (models config)) as Hfind.
    destruct (find _ _) as [m|].
    + destruct Hfind as (pre & post & Hsplit & Hm & Hpre).
      exists pre, post. split; [done|]. split; [by apply bool_decide_eq_true_1 in Hm|].
      intros m' Hm'. specialize (Hpre m' Hm'). by apply bool_decide_eq_false_1 in Hpre.
    + intros m Hm. specialize (Hfind m Hm). by apply bool_decide_eq_false_1 in Hfind.
Qed.

(** With the manifest of the twins, both lookups give the first twin. *)
Example lookups_on_twins :
  Drop.get_model_by_id twins "a" = Some Demo.model_a ∧
  Drop.get_model_by_db_name twins "MODEL_A" = Some Demo.model_a.
Proof. split; reflexivity. Qed.

(** The id of a manifest entry is always found. *)
Lemma get_model_by_id_finds config m :
  m ∈ models config → is_Some (Drop.get_model_by_id config (id m)).
Proof.
  intros Hm. unfold Drop.get_model_by_id.
  pose proof (find_first (λ model, bool_decide (id model = id m)) (models config))
    as Hfind.
  destruct (find _ _) as [m'|]; [eauto|].
  specialize (Hfind m Hm). simpl in Hfind.
  by rewrite bool_decide_eq_true_2 in Hfind.
Qed.

(** ** Dropping the plan *)

Lemma filter_all {A} (P : A → Prop) `{!∀ x, Decision (P x)} l :
  Forall P l → filter P l = l.
Proof.
  induction 1 as [|x l Hx _ IH]; [done|].
  by rewrite filter_cons, decide_True, IH.
Qed.

(** A turn of the drop loop whose drop passes. *)
Lemma drop_one_passes config (t : Drop.Target) k w :
  (truthy_opt t.2 = true →
   is_Some (Drop.get_model_by_id config (default "" t.2))) →
  head (faults w) ≠ Some true →
  ∃ l, is_drop_summary (Print l) = false ∧
    Drop.drop_one config t k w =
      (Ok (S k),
       record (Print (L_dropped t.1))
         (set_registry (filter (λ x, x ≠ t.1) (registry w))
            (issued (DropOnnx t.1) (record (Print l) w)))).
Proof.
  intros Hknown Hq. unfold Drop.drop_one. rewrite bind_run.
  destruct (truthy_opt t.2).
  - destruct Hknown as [m Hm]; [done|]. rewrite Hm, print_run. cbv beta iota.
    rewrite bind_run, drop_model_passes by exact Hq. eexists. split; [|reflexivity]. done.
  - rewrite print_run. cbv beta iota.
    rewrite bind_run, drop_model_passes by exact Hq. eexists. split; [|reflexivity]. done.
Qed.

(** A turn of the drop loop whose drop fails. *)
Lemma drop_one_fails config (t : Drop.Target) k w :
  (truthy_opt t.2 = true →
   is_Some (Drop.get_model_by_id config (default "" t.2))) →
  head (faults w) = Some true →
  ∃ l, is_drop_summary (Print l) = false ∧
    Drop.drop_one config t k w =
      (Raise DatabaseError, issued (DropOnnx t.1) (record (Print l) w)).
Proof.
  intros Hknown Hq. unfold Drop.drop_one, drop_model. rewrite bind_run.
  destruct (truthy_opt t.2).
  - destruct Hknown as [m Hm]; [done|]. rewrite Hm, print_run. cbv beta iota.
    rewrite !bind_run, backend_fails by exact Hq. eexists. split; [|reflexivity]. done.
  - rewrite print_run. cbv beta iota.
    rewrite !bind_run, backend_fails by exact Hq. eexists. split; [|reflexivity]. done.
Qed.

(** The drop loop over a plan whose drops all pass: one drop per entry, in
    order; the names of the plan leave the registry. *)
Lemma drop_loop_run config plan k w :
  (∀ t : Drop.Target, t ∈ plan → truthy_opt t.2 = true →
     is_Some (Drop.get_model_by_id config (default "" t.2))) →
  (∀ i, i < length plan → faults w !! i ≠ Some true) →
  ∃ es w',
    for_each (Drop.drop_one config) plan k w = (Ok (length plan + k), w') ∧
    log w' = log w ++ es ∧
    filter is_mutation es = DropOnnx <$> plan.*1 ∧
    filter is_drop_summary es = [] ∧
    registry w' = filter (λ n, n ∉ plan.*1) (registry w) ∧
    faults w' = drop (length plan) (faults w) ∧
    fs w' = fs w.
Proof.
  revert k w. induction plan as [|t plan IH]; intros k w Hknown Hnf.
  { exists [], w. rewrite app_nil_r. repeat split; try done.
    symmetry. apply filter_all, Forall_forall. intros n _. apply not_elem_of_nil. }
  destruct (drop_one_passes config t k w) as (l & Hl & Hone).
  { intros Ht. apply Hknown; [left|done]. }
  { rewrite head_lookup. apply Hnf. simpl. lia. }
  remember (record (Print (L_dropped t.1))
              (set_registry (filter (λ x, x ≠ t.1) (registry w))
                 (issued (DropOnnx t.1) (record (Print l) w)))) as w1 eqn:Hw1.
  destruct (IH (S k) w1) as (es & w' & Hrun & Hlog & Hmut & Hsum & Hreg & Hfl & Hfs).
  { intros t' Ht'. apply Hknown. by right. }
  { intros i Hi. rewrite Hw1. simpl faults. rewrite lookup_tail. apply Hnf. simpl. lia. }
  exists ([Print l; DropOnnx t.1; Print (L_dropped t.1)] ++ es), w'.
  rewrite for_each_cons, bind_run, Hone, Hrun.
  split; [f_equal; f_equal; simpl; lia|].
  split; [rewrite Hlog, Hw1; simpl; by rewrite <- !app_assoc|].
  split; [rewrite filter_app, Hmut; reflexivity|].
  split.
  { rewrite filter_app, Hsum, app_nil_r.
    rewrite filter_cons_False by (rewrite Hl; simpl; tauto). reflexivity. }
  split.
  { rewrite Hreg, Hw1. simpl registry. rewrite list_filter_filter.
    apply list_filter_iff. intros n. rewrite fmap_cons, not_elem_of_cons. simpl. tauto. }
  split.
  { rewrite Hfl, Hw1. simpl faults. destruct (faults w); simpl; [by rewrite drop_nil|done]. }
  rewrite Hfs, Hw1. reflexivity.
Qed.

(** The plan goes to the drop loop when [-y] is given or the operator
    says yes at the prompt; what happens before the loop is prints and,
    without [-y], the prompt. *)
Lemma execute_confirmed args config plan w :
  plan ≠ [] → Drop.yes args = true ∨ answer_is_yes w = true →
  ∃ es,
    filter is_mutation es = [] ∧ filter is_drop_summary es = [] ∧
    Drop.execute args config plan w =
      (dropped_count ← for_each (Drop.drop_one config) plan 0;
       print (L_drop_done dropped_count)) (record_all (es ++ [Print L_blank]) w).
Proof.
  intros Hne Hconf. unfold Drop.execute.
  rewrite bool_decide_eq_false_2 by exact Hne.
  destruct (Drop.yes args) eqn:Hyes.
  - exists []. split; [done|]. split; [done|].
    rewrite bind_run. unfold ret at 1. cbn [negb].
    rewrite bind_run, print_run. reflexivity.
  - destruct Hconf as [?|Hans]; [discriminate|].
    exists ((Print <$> L_confirm_header (length plan) :: (confirm_line <$> plan)) ++ [Prompt]).
    split; [|split].
    + rewrite filter_app, filter_prints by done. reflexivity.
    + rewrite filter_app, app_nil_r. apply filter_none, Forall_fmap, Forall_forall.
      intros l Hl. apply elem_of_cons in Hl as [->|Hl]; [simpl; tauto|].
      apply list_elem_of_fmap in Hl as (t & -> & _).
      unfold confirm_line. destruct (truthy_opt t.2); simpl; tauto.
    + rewrite bind_run, confirm_deletion_run, Hans. cbn [negb].
      rewrite bind_run, print_run. cbv beta iota.
      unfold answer_is_yes in Hans. destruct (stdin w); [|discriminate].
      rewrite (record_all_app _ [Print L_blank]). reflexivity.
Qed.

(** Every entry of the plan of [--all] that carries an id carries the id
    of a manifest entry. *)
Lemma resolve_all_known config loaded_models (t : Drop.Target) :
  t ∈ Drop.resolve_all config loaded_models → truthy_opt t.2 = true →
  is_Some (Drop.get_model_by_id config (default "" t.2)).
Proof.
  unfold Drop.resolve_all. intros (n & -> & _)%list_elem_of_fmap. simpl.
  pose proof (get_model_by_db_name_spec config n) as Hspec.
  destruct (Drop.get_model_by_db_name config n) as [m|]; simpl; [|discriminate].
  intros _. apply get_model_by_id_finds. by destruct Hspec.
Qed.

(** With [--all], the manifest in place and the session and the snapshot
    obtained, the run is the execution of the plan of [--all], then the
    close. *)
Lemma drop_all_session args config w :
  Drop.all args = true → Drop.list_flag args = false → Drop.model_ids args = [] →
  fs w !! "models.json" = Some (Json config) →
  truthy_opt (getenv_password w) = true → reachable w = true →
  head (faults w) ≠ Some true →
  Drop.main args w =
    ((Drop.execute args config
        (Drop.resolve_all config (list_to_set (registry w))) (started w)).1,
     record Close
       (Drop.execute args config
          (Drop.resolve_all config (list_to_set (registry w))) (started w)).2).
Proof.
  intros Hall Hlist Hids Hman Hpw Hreach Hq.
  rewrite (drop_main_runs_session args config); try done.
  - rewrite try_finally_close. unfold Drop.session.
    rewrite bind_run, get_loaded_models_passes by exact Hq.
    rewrite Hlist. unfold Drop.resolve. rewrite Hall. reflexivity.
  - rewrite Hall. simpl. by rewrite andb_false_r.
  - by rewrite Hall, Hids.
Qed.

(** X13. [drop --all], confirmed by [-y] or by a yes at the prompt, with
    no backend failure, empties the registry: the run ends normally, it
    has issued exactly one drop for every registered name, and no name is
    registered afterwards. *)
Theorem drop_all_empties_the_registry args config w :
  Drop.all args = true → Drop.list_flag args = false → Drop.model_ids args = [] →
  Drop.yes args = true ∨ answer_is_yes w = true →
  fs w !! "models.json" = Some (Json config) →
  truthy_opt (password w) = true → reachable w = true →
  true ∉ faults w →
  ∃ names w',
    Drop.main args w = (Ok tt, w') ∧
    registry w' = [] ∧
    filter is_mutation (new_events w w') = DropOnnx <$> names ∧
    NoDup names ∧ (∀ n, n ∈ names ↔ n ∈ registry w).
Proof.
  intros Hall Hlist Hids Hconf Hman Hpw Hreach Hnf.
  apply getenv_password_of_environment in Hpw.
  destruct (no_fault_pending _ Hnf) as [Hq Hnf'].
  rewrite (drop_all_session args config) by done.
  remember (Drop.resolve_all config (list_to_set (registry w))) as plan eqn:Hplan.
  assert (Hnames : plan.*1 = elements (list_to_set (registry w) : gset string)).
  { rewrite Hplan. unfold Drop.resolve_all. rewrite <- list_fmap_compose.
    apply list_fmap_id. }
  assert (Hcover : ∀ n, n ∈ plan.*1 ↔ n ∈ registry w).
  { intros n. rewrite Hnames, elem_of_elements. apply elem_of_list_to_set. }
  assert (Hnodup : NoDup plan.*1).
  { rewrite Hnames. apply NoDup_elements. }
  destruct (decide (plan = [])) as [Hempty|Hne].
  - assert (Hreg : registry w = []).
    { apply elem_of_nil_inv. intros n Hn. apply Hcover in Hn.
      rewrite Hempty in Hn. by apply elem_of_nil in Hn. }
    exists plan.*1, (record Close (record (Print L_nothing_to_drop) (started w))).
    unfold Drop.execute. rewrite bool_decide_eq_true_2 by exact Hempty.
    split; [reflexivity|]. split; [exact Hreg|]. split; [|done].
    rewrite Hempty.
    by rewrite (new_events_eq w _
                  [Open "models.json"; Connect; Query; Print L_nothing_to_drop; Close])
      by (simpl; by rewrite <- !app_assoc).
  - destruct (execute_confirmed args config plan (started w) Hne Hconf)
      as (es0 & Hm0 & Hs0 & Hexec).
    destruct (drop_loop_run config plan 0
                (record_all (es0 ++ [Print L_blank]) (started w)))
      as (es & w2 & Hrun & Hlog & Hmut & Hsum & Hreg & Hfl & Hfs).
    { intros t Ht. rewrite Hplan in Ht. exact (resolve_all_known _ _ _ Ht). }
    { intros i _ Hi. rewrite faults_record_all in Hi. simpl in Hi.
      apply Hnf'. by eapply list_elem_of_lookup_2. }
    exists plan.*1, (record Close (record (Print (L_drop_done (length plan + 0))) w2)).
    split. { rewrite Hexec, bind_run, Hrun. reflexivity. }
    split.
    { simpl. rewrite Hreg, registry_record_all. simpl.
      apply filter_none, Forall_forall. intros n Hn Hnot. by apply Hnot, Hcover. }
    split; [|done].
    rewrite (new_events_eq w _
               ([Open "models.json"; Connect; Query] ++ es0 ++ [Print L_blank] ++ es ++
                [Print (L_drop_done (length plan + 0)); Close])).
    + rewrite !filter_app, Hm0, Hmut. simpl. by rewrite app_nil_r.
    + simpl. rewrite Hlog, log_record_all. simpl. by rewrite <- !app_assoc.
Qed.

Lemma drop_all_empties_the_registry_witness :
  let args := {| Drop.model_ids := []; Drop.all := true;
                 Drop.list_flag := false; Drop.yes := false |} in
  let w := with_stdin (Some (text " Y ")) (Demo.world [] ["MODEL_B"; "ORPHAN"; "MODEL_A"] []) in
  ∃ names w',
    Drop.main args w = (Ok tt, w') ∧
    registry w' = [] ∧
    filter is_mutation (new_events w w') = DropOnnx <$> names ∧
    NoDup names ∧ (∀ n, n ∈ names ↔ n ∈ registry w).
Proof.
  intros args w.
  apply (drop_all_empties_the_registry args Demo.manifest w).
  - reflexivity.
  - reflexivity.
  - reflexivity.
  - right. reflexivity.
  - reflexivity.
  - reflexivity.
  - reflexivity.
  - apply not_elem_of_nil.
Defined.

(** X14. A drop that fails ends the run of [drop --all].  When the
    snapshot query and the first [j] drops pass and the next drop fails
    (more than [j] names being registered), the run ends there with the
    database error.  Which names come first is not determined by the
    script (it iterates a set); whatever the order, [j] different
    registered names have left the registry and all the others are still
    registered, among them the name of the failing drop; the calls that
    were issued are the drops of those [j] names and then the failing
    drop, which is the last call; no summary is printed; and the session
    is closed. *)
Theorem failed_drop_ends_the_run args config w j rest :
  Drop.all args = true → Drop.list_flag args = false → Drop.model_ids args = [] →
  Drop.yes args = true ∨ answer_is_yes w = true →
  fs w !! "models.json" = Some (Json config) →
  truthy_opt (password w) = true → reachable w = true →
  faults w = replicate (S j) false ++ true :: rest →
  j < size (list_to_set (registry w) : gset string) →
  ∃ dropped failing w',
    Drop.main args w = (Raise DatabaseError, w') ∧
    length dropped = j ∧ NoDup (dropped ++ [failing]) ∧
    (∀ n, n ∈ dropped ++ [failing] → n ∈ registry w) ∧
    registry w' = filter (λ n, n ∉ dropped) (registry w) ∧
    filter is_mutation (new_events w w') = DropOnnx <$> dropped ++ [failing] ∧
    filter is_drop_summary (new_events w w') = [] ∧
    last (new_events w w') = Some Close.
Proof.
  intros Hall Hlist Hids Hconf Hman Hpw Hreach Hf Hj.
  apply getenv_password_of_environment in Hpw.
  set (names := elements (list_to_set (registry w) : gset string)).
  change (j < length names) in Hj.
  assert (Hq : head (faults w) ≠ Some true) by (by rewrite Hf).
  rewrite (drop_all_session args config) by done.
  remember (Drop.resolve_all config (list_to_set (registry w))) as plan eqn:Hplan.
  assert (Hnames : plan.*1 = names).
  { rewrite Hplan. unfold Drop.resolve_all. rewrite <- list_fmap_compose.
    apply list_fmap_id. }
  assert (Hlen : length plan = length names) by (by rewrite <- Hnames, length_fmap).
  destruct (lookup_lt_is_Some_2 plan j) as [t Ht]; [lia|].
  assert (Hne : plan ≠ []) by (by intros ->).
  assert (Hknown : ∀ t : Drop.Target, t ∈ plan → truthy_opt t.2 = true →
            is_Some (Drop.get_model_by_id config (default "" t.2))).
  { intros t' Ht'. rewrite Hplan in Ht'. exact (resolve_all_known _ _ _ Ht'). }
  destruct (execute_confirmed args config plan (started w) Hne Hconf)
    as (es0 & Hm0 & Hs0 & Hexec).
  remember (record_all (es0 ++ [Print L_blank]) (started w)) as w0 eqn:Hw0.
  assert (Hf0 : faults w0 = replicate j false ++ true :: rest).
  { rewrite Hw0, faults_record_all. simpl. by rewrite Hf. }
  destruct (drop_loop_run config (take j plan) 0 w0)
    as (es & w1 & Hrun & Hlog & Hmut & Hsum & Hreg & Hfl & Hfs).
  { intros t' Ht'. apply Hknown. apply elem_of_take in Ht' as (i & Hi & _).
    by eapply list_elem_of_lookup_2. }
  { intros i Hi. rewrite length_take in Hi.
    rewrite Hf0, lookup_app_l by (rewrite length_replicate; lia).
    rewrite lookup_replicate_2 by lia. discriminate. }
  destruct (drop_one_fails config t (length (take j plan) + 0) w1) as (l & Hl & Hone).
  { apply Hknown. by eapply list_elem_of_lookup_2. }
  { rewrite Hfl, Hf0, length_take_le by lia.
    by rewrite drop_app_length' by (by rewrite length_replicate). }
  assert (Hloop : for_each (Drop.drop_one config) plan 0 w0 =
                    (Raise DatabaseError, issued (DropOnnx t.1) (record (Print l) w1))).
  { rewrite <- (take_drop_middle plan j t Ht).
    rewrite for_each_app, bind_run, Hrun. rewrite for_each_cons, bind_run, Hone.
    reflexivity. }
  assert (Hfirst : take (S j) names = take j names ++ [t.1]).
  { apply take_S_r. rewrite <- Hnames, list_lookup_fmap. exact (fmap_Some_2 fst _ _ Ht). }
  exists (take j names), t.1,
    (record Close (issued (DropOnnx t.1) (record (Print l) w1))).
  assert (Hev : new_events w (record Close (issued (DropOnnx t.1) (record (Print l) w1))) =
                  [Open "models.json"; Connect; Query] ++ es0 ++ [Print L_blank] ++ es ++
                  [Print l; DropOnnx t.1; Close]).
  { apply new_events_eq. simpl. rewrite Hlog, Hw0, log_record_all. simpl.
    by rewrite <- !app_assoc. }
  rewrite Hev. split; [|split; [|split; [|split; [|split; [|split; [|split]]]]]].
  - rewrite Hexec, bind_run, Hloop. reflexivity.
  - rewrite length_take. lia.
  - rewrite <- Hfirst.
    eapply sublist_NoDup; [|apply sublist_take]. unfold names. apply NoDup_elements.
  - intros n Hn. rewrite <- Hfirst in Hn. apply elem_of_take in Hn as (i & Hi & _).
    apply list_elem_of_lookup_2 in Hi. unfold names in Hi.
    apply elem_of_elements in Hi. by apply elem_of_list_to_set in Hi.
  - simpl. rewrite Hreg, Hw0, registry_record_all. simpl.
    by rewrite fmap_take, Hnames.
  - rewrite !filter_app, Hm0, Hmut. simpl.
    by rewrite fmap_app, fmap_take, Hnames.
  - rewrite !filter_app, Hs0, Hsum.
    by rewrite (filter_cons_False _ (Print l)) by (rewrite Hl; simpl; tauto).
  - by rewrite !last_app.
Qed.

Lemma failed_drop_ends_the_run_witness :
  let w := Demo.world [] ["MODEL_A"; "MODEL_B"; "MODEL_C"] [false; false; true] in
  ∃ dropped failing w',
    Drop.main drop_all w = (Raise DatabaseError, w') ∧
    length dropped = 1 ∧ NoDup (dropped ++ [failing]) ∧
    (∀ n, n ∈ dropped ++ [failing] → n ∈ registry w) ∧
    registry w' = filter (λ n, n ∉ dropped) (registry w) ∧
    filter is_mutation (new_events w w') = DropOnnx <$> dropped ++ [failing] ∧
    filter is_drop_summary (new_events w w') = [] ∧
    last (new_events w w') = Some Close.
Proof.
  intros w.
  apply (failed_drop_ends_the_run drop_all Demo.manifest w 1 []).
  - reflexivity.
  - reflexivity.
  - reflexivity.
  - left. reflexivity.
  - reflexivity.
  - reflexivity.
  - reflexivity.
  - reflexivity.
  - vm_compute. lia.
Defined.

(** ** Nothing to drop *)

(** The loop over requested ids that are all known and not registered
    warns about each and plans nothing. *)
Lemma resolve_unregistered_ids config loaded_models (pick : string → Model) ids acc w :
  (∀ i, i ∈ ids → Drop.get_model_by_id config i = Some (pick i) ∧
                  db_model_name (pick i) ∉ loaded_models) →
  for_each (Drop.resolve_one config loaded_models) ids acc w =
    (Ok acc,
     record_all
       (Print <$> ((λ i, L_warn_not_loaded i (db_model_name (pick i))) <$> ids)) w).
Proof.
  revert w. induction ids as [|i ids IH]; intros w Hall; [reflexivity|].
  destruct (Hall i) as [Hget Hout]; [left|].
  rewrite for_each_cons, bind_run. unfold Drop.resolve_one at 1.
  rewrite Hget, bool_decide_eq_false_2 by exact Hout.
  rewrite bind_run, print_run. cbv beta iota. unfold ret at 1.
  rewrite IH by (intros j Hj; apply Hall; by right). reflexivity.
Qed.

(** X15. Having nothing to drop is no error and needs no confirmation.
    With the session obtained and the snapshot taken: [drop --all] on an
    empty registry, and a drop of ids that are all known but none of them
    registered (each gets a warning), print that there is nothing to drop
    and end normally, without a prompt even when [-y] is not given, and
    without a backend call other than the snapshot query. *)
Theorem nothing_to_drop_is_no_error config w :
  fs w !! "models.json" = Some (Json config) →
  truthy_opt (password w) = true → reachable w = true →
  head (faults w) ≠ Some true →
  (∀ args,
     Drop.all args = true → Drop.list_flag args = false → Drop.model_ids args = [] →
     registry w = [] →
     Drop.main args w =
       (Ok tt, record_all [Print L_nothing_to_drop; Close] (started w))) ∧
  (∀ args (pick : string → Model),
     Drop.all args = false → Drop.list_flag args = false → Drop.model_ids args ≠ [] →
     (∀ i, i ∈ Drop.model_ids args →
           Drop.get_model_by_id config i = Some (pick i) ∧
           db_model_name (pick i) ∉ registry w) →
     Drop.main args w =
       (Ok tt,
        record_all
          ((Print <$> ((λ i, L_warn_not_loaded i (db_model_name (pick i))) <$>
                         Drop.model_ids args)) ++
           [Print L_nothing_to_drop; Close]) (started w))).
Proof.
  intros Hman Hpw Hreach Hq.
  apply getenv_password_of_environment in Hpw. split.
  - intros args Hall Hlist Hids Hreg.
    rewrite (drop_all_session args config) by done.
    rewrite Hreg, list_to_set_nil. unfold Drop.resolve_all.
    rewrite elements_empty. reflexivity.
  - intros args pick Hall Hlist Hids Hknown.
    rewrite (drop_main_runs_session args config); try done.
    + rewrite try_finally_close. unfold Drop.session.
      rewrite bind_run, get_loaded_models_passes by exact Hq.
      rewrite Hlist. unfold Drop.resolve. rewrite Hall, bind_run.
      rewrite (resolve_unregistered_ids _ _ pick).
      2: { intros i Hi. destruct (Hknown i Hi) as [Hg Hr]. split; [done|].
           simpl. by rewrite elem_of_list_to_set. }
      rewrite record_all_app. reflexivity.
    + rewrite Hlist, Hall. simpl. by apply bool_decide_eq_false_2.
    + by rewrite Hall.
Qed.

Lemma nothing_to_drop_is_no_error_witness :
  let w := Demo.world [] [] [] in
  let all := {| Drop.model_ids := []; Drop.all := true;
                Drop.list_flag := false; Drop.yes := false |} in
  let ids := {| Drop.model_ids := ["c"; "a"]; Drop.all := false;
                Drop.list_flag := false; Drop.yes := false |} in
  Drop.main all w = (Ok tt, record_all [Print L_nothing_to_drop; Close] (started w)) ∧
  Drop.main ids w =
    (Ok tt,
     record_all
       [Print (L_warn_not_loaded "c" "MODEL_C"); Print (L_warn_not_loaded "a" "MODEL_A");
        Print L_nothing_to_drop; Close] (started w)).
Proof.
  intros w all ids.
  destruct (nothing_to_drop_is_no_error Demo.manifest w) as [Hall Hids].
  - reflexivity.
  - reflexivity.
  - reflexivity.
  - discriminate.
  - split.
    + apply Hall; reflexivity.
    + apply (Hids ids (λ i, if String.eqb i "a" then Demo.model_a else Demo.model_c)).
      * reflexivity.
      * reflexivity.
      * discriminate.
      * intros i Hi. simpl in Hi.
        repeat (apply elem_of_cons in Hi as [->|Hi]); try (by apply elem_of_nil in Hi).
        all: split; [reflexivity|apply not_elem_of_nil].
Defined.

(** ** The runs of the download script *)

Lemma download_main_run target config w :
  fs w !! "models.json" = Some (Json config) →
  Download.main target w =
    (if bool_decide (models_to_download target config = []) then
       print (L_not_found target) ;;
       print L_available_models ;;
       for_each (λ m (_ : unit), print (L_available_item (id m) (name m)))
         (models config) tt ;;
       sys_exit 1
     else
       print (L_download_start (length (models_to_download target config))) ;;
       for_each (λ m (_ : unit), Download.download_model m)
         (models_to_download target config) tt ;;
       print L_done) (record (Open "models.json") w).
Proof.
  intros Hman. unfold Download.main.
  rewrite bind_run, (load_config_reads config) by exact Hman. reflexivity.
Qed.

(** X16. A target that no manifest entry carries ends the download script
    before anything is checked or fetched: with an id that is not in the
    manifest (the empty id included) or with an empty manifest, the script
    reads the manifest, prints that the model was not found and the list
    of the available models, and exits with status 1. *)
Theorem download_unknown_target_is_fatal target config w :
  fs w !! "models.json" = Some (Json config) →
  (∀ m, m ∈ models config → Some (id m) ≠ target) →
  (target = None → models config = []) →
  Download.main target w =
    (Exit 1,
     record_all
       ([Open "models.json"; Print (L_not_found target); Print L_available_models] ++
        (Print <$> ((λ m, L_available_item (id m) (name m)) <$> models config))) w).
Proof.
  intros Hman Hnone Hempty.
  rewrite (download_main_run target config) by exact Hman.
  rewrite bool_decide_eq_true_2.
  - do 2 (rewrite bind_run, print_run; cbv beta iota).
    rewrite bind_run, (for_each_print (λ m, L_available_item (id m) (name m))).
    rewrite record_all_app, list_fmap_compose. reflexivity.
  - unfold models_to_download. apply filter_none, Forall_forall.
    intros m Hm [Ht|Ht].
    + rewrite (Hempty Ht) in Hm. by apply elem_of_nil in Hm.
    + by apply (Hnone m).
Qed.

Lemma download_unknown_target_is_fatal_witness :
  let w := Demo.world [] [] [] in
  Download.main (Some "") w =
    (Exit 1,
     record_all
       ([Open "models.json"; Print (L_not_found (Some "")); Print L_available_models] ++
        (Print <$> ((λ m, L_available_item (id m) (name m)) <$> models Demo.manifest))) w).
Proof.
  intros w.
  apply (download_unknown_target_is_fatal (Some "") Demo.manifest w).
  - reflexivity.
  - intros m Hm. simpl in Hm.
    repeat (apply elem_of_cons in Hm as [->|Hm]); try (by apply elem_of_nil in Hm).
    all: discriminate.
  - discriminate.
Defined.

Lemma download_model_skips m w :
  is_Some (fs w !! output m) →
  Download.download_model m w =
    (Ok tt, record_all [Stat (output m); Print (L_skip_exists (output m))] w).
Proof.
  intros H. unfold Download.download_model. rewrite bind_run. unfold exists_file.
  rewrite bool_decide_eq_true_2 by exact H. reflexivity.
Qed.

Lemma download_model_fetches m w :
  fs w !! output m = None →
  Download.download_model m w =
    (if endswith (url m) ".zip" then
       Download.urlretrieve (url m) (Download.zip_path m) ;;
       print L_extracting ;;
       entries ← Download.open_zip (Download.zip_path m);
       for_each (λ (e : string * string) (_ : unit),
           if endswith e.1 ".onnx" then Download.extract entries e.1 else ret tt)
         entries tt ;;
       Download.unlink (Download.zip_path m) ;;
       print (L_ok (output m))
     else
       Download.urlretrieve (url m) (output m) ;;
       print (L_ok (output m)))
      (record_all [Stat (output m); Print (L_downloading (name m))] w).
Proof.
  intros H. unfold Download.download_model. rewrite bind_run. unfold exists_file.
  rewrite H, bool_decide_eq_false_2 by (intros [? ?]; discriminate).
  cbv beta iota. destruct (endswith (url m) ".zip"); by rewrite bind_run, print_run.
Qed.

Lemma download_loop_skips ms w :
  (∀ m, m ∈ ms → is_Some (fs w !! output m)) →
  for_each (λ m (_ : unit), Download.download_model m) ms tt w =
    (Ok tt, record_all (skipped_downloads ms) w).
Proof.
  revert w. induction ms as [|m ms IH]; intros w Hall; [reflexivity|].
  rewrite for_each_cons, bind_run, download_model_skips by (apply Hall; left).
  rewrite IH by (intros m' Hm'; simpl; apply Hall; by right). reflexivity.
Qed.

(** X17. The download script fetches nothing that is already there.  When
    the output file of every selected model exists (whatever it holds),
    the run checks each file, says that it skips it, and ends normally:
    nothing goes over the network and no file is written or deleted. *)
Theorem download_of_present_models_fetches_nothing target config w :
  fs w !! "models.json" = Some (Json config) →
  models_to_download target config ≠ [] →
  (∀ m, m ∈ models_to_download target config → is_Some (fs w !! output m)) →
  Download.main target w =
    (Ok tt,
     record_all
       ([Open "models.json";
         Print (L_download_start (length (models_to_download target config)))] ++
        skipped_downloads (models_to_download target config) ++ [Print L_done]) w).
Proof.
  intros Hman Hne Hall.
  rewrite (download_main_run target config) by exact Hman.
  rewrite bool_decide_eq_false_2 by exact Hne.
  rewrite bind_run, print_run. cbv beta iota.
  rewrite bind_run, download_loop_skips by exact Hall.
  rewrite print_run, !record_all_app. reflexivity.
Qed.

Lemma download_of_present_models_fetches_nothing_witness :
  let w := set_fs (<["a.onnx" := Truncated "part"]>
                     (<["b.onnx" := Binary "b"]>
                        (<["c.onnx" := Garbage]> (fs (Demo.world [] [] [])))))
             (Demo.world [] [] []) in
  Download.main None w =
    (Ok tt,
     record_all
       ([Open "models.json";
         Print (L_download_start (length (models_to_download None Demo.manifest)))] ++
        skipped_downloads (models_to_download None Demo.manifest) ++ [Print L_done]) w).
Proof.
  intros w.
  apply (download_of_present_models_fetches_nothing None Demo.manifest w).
  - reflexivity.
  - discriminate.
  - intros m Hm. apply list_elem_of_filter in Hm as [_ Hm]. simpl in Hm.
    repeat (apply elem_of_cons in Hm as [->|Hm]); try (by apply elem_of_nil in Hm).
    all: eexists; reflexivity.
Defined.

Lemma net_record_all es w : net (record_all es w) = net w.
Proof. revert w. induction es as [|e es IH]; intros w; simpl; [done|by rewrite IH]. Qed.

(** X18. A download that fails ends the run of the download script.
    When the models before [m] in the selection are already there, the
    output file of [m] is not, and the download of [m] does not deliver,
    the run ends with the error of that download: the last thing it did
    is the attempt, no later model is checked or fetched, the closing
    line is not printed, and no file has changed except possibly the one
    the download was going to. *)
Theorem failed_download_ends_the_run target config w pre m post :
  fs w !! "models.json" = Some (Json config) →
  models_to_download target config = pre ++ m :: post →
  (∀ m', m' ∈ pre → is_Some (fs w !! output m')) →
  fs w !! output m = None →
  (∀ c, net w (url m) ≠ Served c) →
  ∃ e w',
    Download.main target w = (Raise e, w') ∧
    log w' = log w ++
      [Open "models.json"; Print (L_download_start (length (pre ++ m :: post)))] ++
      skipped_downloads pre ++
      [Stat (output m); Print (L_downloading (name m));
       Retrieve (url m) (download_target m)] ∧
    ∀ p, p ≠ download_target m → fs w' !! p = fs w !! p.
Proof.
  intros Hman Hsel Hpre Hout Hnet.
  rewrite (download_main_run target config) by exact Hman.
  rewrite Hsel, bool_decide_eq_false_2 by (by destruct pre).
  rewrite bind_run, print_run. cbv beta iota.
  rewrite bind_run, for_each_app, bind_run, download_loop_skips by exact Hpre.
  rewrite for_each_cons, bind_run, download_model_fetches
    by (by rewrite fs_record_all).
  assert (Hrun : ∀ dest w0, net w0 = net w →
            ∃ e w', Download.urlretrieve (url m) dest w0 = (Raise e, w') ∧
                    log w' = log w0 ++ [Retrieve (url m) dest] ∧
                    ∀ p, p ≠ dest → fs w' !! p = fs w0 !! p).
  { intros dest w0 Hw0. unfold Download.urlretrieve. simpl net. rewrite Hw0.
    destruct (net w (url m)) as [c| |partial] eqn:Hn; [by destruct (Hnet c)|..].
    - by eexists _, _.
    - eexists _, _. split; [reflexivity|]. split; [done|].
      intros p Hp. simpl. by rewrite lookup_insert_ne. }
  unfold download_target.
  destruct (Hrun (if endswith (url m) ".zip" then Download.zip_path m else output m)
              (record_all [Stat (output m); Print (L_downloading (name m))]
                 (record_all (skipped_downloads pre)
                    (record (Print (L_download_start (length (pre ++ m :: post))))
                       (record (Open "models.json") w)))))
    as (e & w' & Hget & Hlog & Hfs).
  { by rewrite !net_record_all. }
  exists e, w'.
  destruct (endswith (url m) ".zip"); rewrite bind_run, Hget.
  all: split; [reflexivity|]; split.
  all: try (rewrite Hlog, !log_record_all; simpl; by rewrite <- !app_assoc).
  all: intros p Hp; rewrite (Hfs p Hp), !fs_record_all; reflexivity.
Qed.

Lemma failed_download_ends_the_run_witness :
  let w := set_fs (<["a.onnx" := Binary "a"]> (fs (Demo.world [] [] [])))
             (Demo.world [] [] []) in
  ∃ e w',
    Download.main None w = (Raise e, w') ∧
    log w' = log w ++
      [Open "models.json";
       Print (L_download_start (length ([Demo.model_a] ++ Demo.model_b :: [Demo.model_c])))] ++
      skipped_downloads [Demo.model_a] ++
      [Stat (output Demo.model_b); Print (L_downloading (name Demo.model_b));
       Retrieve (url Demo.model_b) (download_target Demo.model_b)] ∧
    ∀ p, p ≠ download_target Demo.model_b → fs w' !! p = fs w !! p.
Proof.
  intros w.
  apply (failed_download_ends_the_run None Demo.manifest w
           [Demo.model_a] Demo.model_b [Demo.model_c]).
  - reflexivity.
  - reflexivity.
  - intros m Hm. apply list_elem_of_singleton in Hm as ->. eexists. reflexivity.
  - reflexivity.
  - discriminate.
Defined.

(** X19. A direct download that broke off is never repaired.  The
    transfer that breaks off leaves its partial file at the output path
    and fails the fetch; on the next run, whatever the network would
    answer then, the fetch of that model finds the file, says that it
    skips it and succeeds, leaving the partial file where it is. *)
Theorem interrupted_direct_download_is_never_repaired m w partial answers :
  fs w !! output m = None → endswith (url m) ".zip" = false →
  net w (url m) = Interrupted partial →
  let w1 := with_net answers (Download.download_model m w).2 in
  (Download.download_model m w).1 = Raise ContentTooShortError ∧
  fs w1 !! output m = Some (Truncated partial) ∧
  Download.download_model m w1 =
    (Ok tt, record_all [Stat (output m); Print (L_skip_exists (output m))] w1).
Proof.
  intros Hout Hzip Hnet w1.
  assert (Hrun : Download.download_model m w =
            (Raise ContentTooShortError,
             set_fs (<[output m := Truncated partial]> (fs w))
               (record_all [Stat (output m); Print (L_downloading (name m));
                            Retrieve (url m) (output m)] w))).
  { rewrite download_model_fetches, Hzip by exact Hout.
    rewrite bind_run. unfold Download.urlretrieve. simpl net. rewrite Hnet.
    reflexivity. }
  assert (Hfile : fs w1 !! output m = Some (Truncated partial)).
  { unfold w1. rewrite Hrun. simpl. apply lookup_insert_eq. }
  split; [by rewrite Hrun|]. split; [exact Hfile|].
  apply download_model_skips. by rewrite Hfile.
Qed.

Lemma interrupted_direct_download_is_never_repaired_witness :
  let w := with_net (λ _, Interrupted "part") (Demo.world [] [] []) in
  let w1 := with_net (λ _, Served (Binary "whole"))
              (Download.download_model Demo.model_a w).2 in
  (Download.download_model Demo.model_a w).1 = Raise ContentTooShortError ∧
  fs w1 !! output Demo.model_a = Some (Truncated "part") ∧
  Download.download_model Demo.model_a w1 =
    (Ok tt,
     record_all [Stat (output Demo.model_a); Print (L_skip_exists (output Demo.model_a))]
       w1).
Proof.
  intros w.
  apply (interrupted_direct_download_is_never_repaired Demo.model_a w "part"
           (λ _, Served (Binary "whole"))); reflexivity.
Defined.

(** ** Downloads from an archive *)


Lemma string_length_app (s1 s2 : string) :
  String.length (s1 ++ s2)%string = String.length s1 + String.length s2.
Proof. induction s1 as [|a s1 IH]; simpl; [done|by rewrite IH]. Qed.



















(** The files of the witness: the two entries that are cleaned to
    [b.onnx] are both extracted and the later one stays; the entry
    [../up.onnx] is written inside the output directory. *)
Example archive_download_example :
  let entries := [("b.onnx", "old"); ("README.md", "notes"); ("../up.onnx", "more");
                  ("./b.onnx", "new")] in
  let r := Download.download_model Demo.model_b
             (with_net (λ _, Served (Archive entries)) (Demo.world [] [] [])) in
  fs r.2 !! "b.onnx" = Some (Binary "new") ∧
  fs r.2 !! "up.onnx" = Some (Binary "more") ∧
  fs r.2 !! "README.md" = None ∧
  filter is_extract (log r.2) =
    [Extract "b.onnx"; Extract "../up.onnx"; Extract "./b.onnx"].
Proof. vm_compute. repeat split; reflexivity. Qed.

(** Cleaned names: a leading slash, doubled slashes and [.] and [..]
    parts go, directories stay. *)
Example clean_name_examples :
  Download.clean_name "/abs.onnx" = "abs.onnx" ∧
  Download.clean_name "../../up.onnx" = "up.onnx" ∧
  Download.clean_name "a//b/./c.onnx" = "a/b/c.onnx" ∧
  Download.clean_name "model.onnx" = "model.onnx".
Proof. vm_compute. repeat split; reflexivity. Qed.



(** ** What a run of the load script without [--force] leaves *)

(** A turn without [--force] leaves the files alone and adds at most the
    name of its own model, and only when the model's file is present. *)
Lemma load_one_adds_own_name loaded_models model counts w :
  fs (Load.load_one false loaded_models model counts w).2 = fs w ∧
  ∀ n, n ∈ registry (Load.load_one false loaded_models model counts w).2 →
       n ∈ registry w ∨
       (db_model_name model = n ∧ is_Some (fs w !! Load.onnx_file model)).
Proof.
  assert (Hprep : ∀ w1, load_prepared false loaded_models model w w1 →
                        fs w1 = fs w ∧ registry w1 = registry w).
  { intros w1 [Hfresh|Hin Hforce Hq]; [done|discriminate]. }
  destruct (load_one_turn false loaded_models model counts w)
    as [Hin Hforce|Hin Hforce Hq|w1 Hw1 Hf|w1 Hw1 Hf Hq|w1 Hw1 Hf Hq Hfree];
    try discriminate; try destruct (Hprep w1 Hw1) as [Hfs Hreg]; simpl.
  - auto.
  - rewrite Hfs, Hreg. auto.
  - rewrite Hfs, Hreg. auto.
  - rewrite Hfs, Hreg. split; [done|]. intros n Hn.
    apply elem_of_app in Hn as [Hn|Hn]; [by left|].
    apply list_elem_of_singleton in Hn as ->. by right.
Qed.

Lemma load_loop_adds_batch_names loaded_models batch counts w :
  ∀ n, n ∈ registry (for_each (Load.load_one false loaded_models) batch counts w).2 →
    n ∈ registry w ∨
    ∃ m, m ∈ batch ∧ db_model_name m = n ∧ is_Some (fs w !! Load.onnx_file m).
Proof.
  revert counts w. induction batch as [|x batch IH]; intros counts w n Hn; [by left|].
  rewrite for_each_cons, bind_run in Hn.
  destruct (load_one_adds_own_name loaded_models x counts w) as [Hfs Hown].
  assert (Hstep : n ∈ registry (Load.load_one false loaded_models x counts w).2 →
            n ∈ registry w ∨
            ∃ m, m ∈ x :: batch ∧ db_model_name m = n ∧
                 is_Some (fs w !! Load.onnx_file m)).
  { intros H. destruct (Hown n H) as [?|[? ?]]; [by left|].
    right. exists x. split; [left|done]. }
  destruct (Load.load_one false loaded_models x counts w) as [[c1|e|c] w1];
    simpl in *; try by apply Hstep.
  destruct (IH c1 w1 n Hn) as [H|(m & Hm & Hname & Hfile)]; [by apply Hstep|].
  right. exists m. split; [by right|]. split; [done|]. by rewrite <- Hfs.
Qed.

(** X22. What a normal run of the load script without [--force] leaves.
    When such a run (no listing) ends normally, the files are as before
    and the registry holds exactly the names it held before together with
    the registry names of the models of the batch whose artifact file is
    present; no name is listed twice if none was before. *)
Theorem load_without_force_registers_the_batch args w w' :
  Load.force args = false → Load.list_flag args = false →
  Load.main args w = (Ok tt, w') →
  ∃ config,
    fs w !! "models.json" = Some (Json config) ∧
    fs w' = fs w ∧
    (∀ n, n ∈ registry w' ↔
       n ∈ registry w ∨
       ∃ m, m ∈ Load.models_to_load args config ∧ db_model_name m = n ∧
            is_Some (fs w !! Load.onnx_file m)) ∧
    (NoDup (registry w) → NoDup (registry w')).
Proof.
  intros Hforce Hlist Hrun.
  apply load_main_ok_inv in Hrun as (config & counts & w2 & Hman & Hq & Hloop & ->);
    [|exact Hlist].
  rewrite Hforce in Hloop.
  pose proof (settled_load_loop _ _ _ _ _ _ Hloop) as (Hfs & _ & _ & Hsub & Hnd).
  pose proof (load_loop_covers _ _ _ _ _ _ Hloop) as Hcov.
  pose proof (load_loop_adds_batch_names (list_to_set (registry w))
                (Load.models_to_load args config) (0, 0)
                (record (Print (L_load_start (length (Load.models_to_load args config))))
                   (started w))) as Hadd.
  rewrite Hloop in Hadd. simpl in Hfs, Hsub, Hnd, Hcov, Hadd.
  exists config. split; [exact Hman|]. split; [exact Hfs|]. split; [|exact Hnd].
  intros n. split.
  - apply Hadd.
  - intros [Hn|(m & Hm & <- & Hfile)]; [by apply Hsub|].
    destruct (Hcov m Hm) as [H|[H|H]].
    + apply Hsub. by apply elem_of_list_to_set in H.
    + exact H.
    + rewrite H in Hfile. by destruct Hfile.
Qed.

Lemma load_without_force_registers_the_batch_witness :
  let w := Demo.world ["a.onnx"; "c.onnx"] ["MODEL_C"; "ORPHAN"] [] in
  ∃ config,
    fs w !! "models.json" = Some (Json config) ∧
    fs (Load.main Demo.load_all w).2 = fs w ∧
    (∀ n, n ∈ registry (Load.main Demo.load_all w).2 ↔
       n ∈ registry w ∨
       ∃ m, m ∈ Load.models_to_load Demo.load_all config ∧ db_model_name m = n ∧
            is_Some (fs w !! Load.onnx_file m)) ∧
    (NoDup (registry w) → NoDup (registry (Load.main Demo.load_all w).2)).
Proof.
  intros w.
  apply (load_without_force_registers_the_batch Demo.load_all w).
  - reflexivity.
  - reflexivity.
  - vm_compute. reflexivity.
Defined.

(** The registry of the witness afterwards. *)
Example load_without_force_example :
  registry (Load.main Demo.load_all
              (Demo.world ["a.onnx"; "c.onnx"] ["MODEL_C"; "ORPHAN"] [])).2 =
    ["MODEL_C"; "ORPHAN"; "MODEL_A"].
Proof. vm_compute. reflexivity. Qed.

(** ** What a drop of ids leaves *)

Lemma filter_ext_in {A} (P Q : A → Prop) `{!∀ x, Decision (P x), !∀ x, Decision (Q x)}
    (l : list A) :
  (∀ x, x ∈ l → P x ↔ Q x) → filter P l = filter Q l.
Proof.
  induction l as [|a l IH]; intros HPQ; [done|].
  rewrite !filter_cons, IH by (intros x Hx; apply HPQ; by right).
  apply decide_ext, HPQ. left.
Qed.

(** The loop over requested ids that are all known plans the registered
    ones, in order, and prints a warning for each of the others. *)
Lemma resolve_ids_run config loaded_models (pick : string → Model) ids acc w :
  (∀ i, i ∈ ids → Drop.get_model_by_id config i = Some (pick i)) →
  ∃ ls,
    for_each (Drop.resolve_one config loaded_models) ids acc w =
      (Ok (acc ++ ((λ i, (db_model_name (pick i), Some i)) <$>
                     filter (λ i, db_model_name (pick i) ∈ loaded_models) ids)),
       record_all (Print <$> ls) w).
Proof.
  revert acc w. induction ids as [|i ids IH]; intros acc w Hall.
  { exists []. simpl. by rewrite app_nil_r. }
  rewrite for_each_cons, bind_run. unfold Drop.resolve_one at 1.
  rewrite (Hall i) by left.
  destruct (decide (db_model_name (pick i) ∈ loaded_models)) as [Hin|Hout].
  - rewrite bool_decide_eq_true_2 by exact Hin. unfold ret at 1.
    destruct (IH (acc ++ [(db_model_name (pick i), Some i)]) w) as [ls Hrun].
    { intros j Hj. apply Hall. by right. }
    exists ls. rewrite Hrun, filter_cons_True by exact Hin.
    by rewrite fmap_cons, <- app_assoc.
  - rewrite bool_decide_eq_false_2 by exact Hout.
    rewrite bind_run, print_run. cbv beta iota. unfold ret at 1.
    destruct (IH acc (record (Print (L_warn_not_loaded i (db_model_name (pick i)))) w))
      as [ls Hrun].
    { intros j Hj. apply Hall. by right. }
    exists (L_warn_not_loaded i (db_model_name (pick i)) :: ls).
    by rewrite Hrun, filter_cons_False by exact Hout.
Qed.

(** X23. What a drop of ids leaves.  When every requested id is known,
    the drop is confirmed ([-y], or a yes at the prompt) and no backend
    call fails, the run ends normally and the registry afterwards is the
    registry before without the registry names of the requested models:
    the names of the requested models are gone, whether they were
    registered or not, and every other name is still there, in the same
    order.  The files are as before. *)
Theorem drop_of_ids_removes_exactly_the_named_models args config
    (pick : string → Model) w :
  Drop.all args = false → Drop.list_flag args = false → Drop.model_ids args ≠ [] →
  Drop.yes args = true ∨ answer_is_yes w = true →
  fs w !! "models.json" = Some (Json config) →
  truthy_opt (password w) = true → reachable w = true →
  true ∉ faults w →
  (∀ i, i ∈ Drop.model_ids args → Drop.get_model_by_id config i = Some (pick i)) →
  ∃ w',
    Drop.main args w = (Ok tt, w') ∧
    registry w' =
      filter (λ n, n ∉ (λ i, db_model_name (pick i)) <$> Drop.model_ids args)
        (registry w) ∧
    fs w' = fs w.
Proof.
  intros Hall Hlist Hids Hconf Hman Hpw Hreach Hnf Hknown.
  apply getenv_password_of_environment in Hpw.
  destruct (no_fault_pending _ Hnf) as [Hq Hnf'].
  destruct (resolve_ids_run config (list_to_set (registry w)) pick
              (Drop.model_ids args) [] (started w) Hknown) as [ls Hres].
  rewrite app_nil_l in Hres.
  remember ((λ i, (db_model_name (pick i), Some i)) <$>
              filter (λ i, db_model_name (pick i) ∈ (list_to_set (registry w) : gset string))
                (Drop.model_ids args)) as plan eqn:Hplan.
  assert (Hfilter :
    filter (λ n, n ∉ plan.*1) (registry w) =
    filter (λ n, n ∉ (λ i, db_model_name (pick i)) <$> Drop.model_ids args) (registry w)).
  { apply filter_ext_in. intros n Hn. rewrite Hplan, <- list_fmap_compose.
    rewrite !list_elem_of_fmap. split; intros Hno (i & Hi & Hmem); apply Hno; exists i.
    - split; [done|]. apply list_elem_of_filter. split; [|done].
      apply elem_of_list_to_set. simpl in Hi. by rewrite <- Hi.
    - split; [done|]. by apply list_elem_of_filter in Hmem as [_ Hmem]. }
  assert (Hmain : Drop.main args w =
            ((Drop.execute args config plan (record_all (Print <$> ls) (started w))).1,
             record Close
               (Drop.execute args config plan (record_all (Print <$> ls) (started w))).2)).
  { rewrite (drop_main_runs_session args config); try done.
    - rewrite try_finally_close. unfold Drop.session.
      rewrite bind_run, get_loaded_models_passes by exact Hq.
      rewrite Hlist. unfold Drop.resolve. rewrite Hall, bind_run.
      simpl registry. unfold started in Hres. by rewrite Hres.
    - rewrite Hlist, Hall. simpl. by apply bool_decide_eq_false_2.
    - by rewrite Hall. }
  rewrite Hmain, <- Hfilter.
  destruct (decide (plan = [])) as [Hempty|Hne].
  - unfold Drop.execute. rewrite (bool_decide_eq_true_2 _ Hempty), print_run.
    eexists. split; [reflexivity|]. simpl.
    rewrite registry_record_all, fs_record_all, Hempty. simpl.
    split; [|done]. symmetry. apply filter_all, Forall_forall.
    intros n _. apply not_elem_of_nil.
  - destruct (execute_confirmed args config plan (record_all (Print <$> ls) (started w)))
      as (es0 & Hm0 & Hs0 & Hexec); [exact Hne| |].
    { unfold answer_is_yes in *. by rewrite stdin_record_all. }
    destruct (drop_loop_run config plan 0
                (record_all (es0 ++ [Print L_blank])
                   (record_all (Print <$> ls) (started w))))
      as (es & w2 & Hrun & Hlog & Hmut & Hsum & Hreg & Hfl & Hfs).
    { intros t Ht _. rewrite Hplan in Ht.
      apply list_elem_of_fmap in Ht as (i & -> & Hi).
      apply list_elem_of_filter in Hi as [_ Hi]. simpl. rewrite (Hknown i Hi). eauto. }
    { intros i _ Hi. rewrite !faults_record_all in Hi. simpl in Hi.
      apply Hnf'. by eapply list_elem_of_lookup_2. }
    exists (record Close (record (Print (L_drop_done (length plan + 0))) w2)).
    split. { rewrite Hexec, bind_run, Hrun. reflexivity. }
    simpl. rewrite Hreg, Hfs, !registry_record_all, !fs_record_all. by simpl.
Qed.

Lemma drop_of_ids_removes_exactly_the_named_models_witness :
  let args := {| Drop.model_ids := ["c"; "a"; "c"]; Drop.all := false;
                 Drop.list_flag := false; Drop.yes := false |} in
  let pick := λ i, if String.eqb i "a" then Demo.model_a else Demo.model_c in
  let w := with_stdin (Some (text "y")) (Demo.world [] ["ORPHAN"; "MODEL_C"; "MODEL_B"] []) in
  ∃ w',
    Drop.main args w = (Ok tt, w') ∧
    registry w' =
      filter (λ n, n ∉ (λ i, db_model_name (pick i)) <$> Drop.model_ids args)
        (registry w) ∧
    fs w' = fs w.
Proof.
  intros args pick w.
  apply (drop_of_ids_removes_exactly_the_named_models args Demo.manifest pick w).
  - reflexivity.
  - reflexivity.
  - discriminate.
  - right. reflexivity.
  - reflexivity.
  - reflexivity.
  - reflexivity.
  - apply not_elem_of_nil.
  - intros i Hi. simpl in Hi.
    repeat (apply elem_of_cons in Hi as [->|Hi]); try (by apply elem_of_nil in Hi).
    all: reflexivity.
Defined.

(** The registry of the witness afterwards: [MODEL_C] is gone, [MODEL_A]
    was not registered, the others are still there. *)
Example drop_of_ids_example :
  registry (Drop.main {| Drop.model_ids := ["c"; "a"; "c"]; Drop.all := false;
                         Drop.list_flag := false; Drop.yes := false |}
              (with_stdin (Some (text "y"))
                 (Demo.world [] ["ORPHAN"; "MODEL_C"; "MODEL_B"] []))).2 =
    ["ORPHAN"; "MODEL_B"].
Proof. vm_compute. reflexivity. Qed.

(** ** The two scripts and the artifact files *)

Lemma onnx_file_is_elsewhere m : Load.onnx_file m ≠ output m.
Proof.
  unfold Load.onnx_file. intros H. apply (f_equal String.length) in H.
  rewrite string_length_app in H. simpl in H. lia.
Qed.

(** X24. The download script does not put a direct download where the
    load script looks for it.  The download script writes the output file
    of a model next to the scripts; the load script checks for it in the
    directory [onnx] next to the scripts.  So, for a model whose output
    is a relative path and whose URL does not end in [.zip]: after a
    successful download the file is at its output path, the path the load
    script checks is still empty, and the load script skips the model
    with the advice to run the download script. *)
Theorem downloaded_file_is_not_where_load_looks m w c :
  String.prefix "/" (output m) = false →
  fs w !! output m = None → fs w !! Load.onnx_file m = None →
  endswith (url m) ".zip" = false → net w (url m) = Served c →
  let w1 := (Download.download_model m w).2 in
  (Download.download_model m w).1 = Ok tt ∧
  fs w1 !! output m = Some c ∧
  fs w1 !! Load.onnx_file m = None ∧
  Load.load_model m w1 =
    (Ok false,
     record_all [Stat (Load.onnx_file m); Print (L_skip_file_missing (output m));
                 Print (L_advise_download (id m))] w1).
Proof.
  intros _ Hout Honnx Hzip Hnet w1.
  assert (Hrun : Download.download_model m w =
            (Ok tt,
             record (Print (L_ok (output m)))
               (set_fs (<[output m := c]> (fs w))
                  (record_all [Stat (output m); Print (L_downloading (name m));
                               Retrieve (url m) (output m)] w)))).
  { rewrite download_model_fetches, Hzip by exact Hout.
    rewrite bind_run. unfold Download.urlretrieve. simpl net. rewrite Hnet.
    reflexivity. }
  assert (Hfile : fs w1 !! Load.onnx_file m = None).
  { unfold w1. rewrite Hrun. simpl.
    rewrite lookup_insert_ne by (intros H; by apply (onnx_file_is_elsewhere m)).
    exact Honnx. }
  split; [by rewrite Hrun|]. split; [|split; [exact Hfile|]].
  - unfold w1. rewrite Hrun. simpl. apply lookup_insert_eq.
  - by rewrite load_model_missing.
Qed.

Lemma downloaded_file_is_not_where_load_looks_witness :
  let w := with_net (λ _, Served (Binary "weights")) (Demo.world [] [] []) in
  let w1 := (Download.download_model Demo.model_a w).2 in
  (Download.download_model Demo.model_a w).1 = Ok tt ∧
  fs w1 !! output Demo.model_a = Some (Binary "weights") ∧
  fs w1 !! Load.onnx_file Demo.model_a = None ∧
  Load.load_model Demo.model_a w1 =
    (Ok false,
     record_all [Stat (Load.onnx_file Demo.model_a);
                 Print (L_skip_file_missing (output Demo.model_a));
                 Print (L_advise_download (id Demo.model_a))] w1).
Proof.
  intros w.
  apply (downloaded_file_is_not_where_load_looks Demo.model_a w (Binary "weights"));
    reflexivity.
Defined.

(** ** Two models with one registry name *)

Global Instance keeps_preorder n : PreOrder (keeps n).
Proof.
  split.
  - intros w. by split.
  - intros w1 w2 w3 [Hf1 H1] [Hf2 H2]. split; [congruence|auto].
Qed.

(** A turn of the load loop never drops a name that is not in the
    snapshot. *)
Lemma keeps_load_one n force loaded_models model counts :
  n ∉ loaded_models →
  stable (keeps n) (Load.load_one force loaded_models model counts).
Proof.
  intros Hn w.
  assert (Hprep : ∀ w1, load_prepared force loaded_models model w w1 → keeps n w w1).
  { intros w1 [Hfresh|Hin Hforce Hq]; [by split|].
    split; [done|]. simpl. intros Hreg. apply list_elem_of_filter. split; [|done].
    intros ->. by apply Hn. }
  destruct (load_one_turn force loaded_models model counts w)
    as [Hin Hforce|Hin Hforce Hq|w1 Hw1 Hf|w1 Hw1 Hf Hq|w1 Hw1 Hf Hq Hfree].
  - by split.
  - by split.
  - etrans; [exact (Hprep w1 Hw1)|]. by split.
  - etrans; [exact (Hprep w1 Hw1)|]. by split.
  - etrans; [exact (Hprep w1 Hw1)|]. split; [done|]. simpl. intros Hreg.
    apply elem_of_app. by left.
Qed.

(** A normal turn for a model that is not in the snapshot and whose file
    is present found its name free and has registered it. *)
Lemma load_one_fresh_ok force loaded_models model counts w counts' w' :
  db_model_name model ∉ loaded_models →
  is_Some (fs w !! Load.onnx_file model) →
  Load.load_one force loaded_models model counts w = (Ok counts', w') →
  (db_model_name model ∉ registry w) ∧ db_model_name model ∈ registry w'.
Proof.
  intros Hout Hfile Hrun.
  pose proof (load_one_turn force loaded_models model counts w) as Hturn.
  rewrite Hrun in Hturn. cbn [fst snd] in Hturn.
  inversion Hturn as [Hin Hforce|Hin Hforce Hq|w1 Hw1 Hf|w1 Hw1 Hf Hq|w1 Hw1 Hf Hq Hfree];
    subst; try done.
  - rewrite Hf in Hfile. by destruct Hfile.
  - inversion Hw1; subst; [|done]. simpl in *. split; [done|].
    apply elem_of_app. right. left.
Qed.

(** X25. Two models of a batch that share their registry name cannot
    both be loaded.  When the batch holds two models with the same
    registry name, the name is not registered at the start and both
    artifact files are present, the load script, with or without
    [--force], does not end normally: the first of the two is loaded, and
    the load of the second fails on the name. *)
Theorem shared_registry_name_fails_the_load args config pre m1 mid m2 post w :
  fs w !! "models.json" = Some (Json config) →
  Load.list_flag args = false →
  Load.models_to_load args config = pre ++ m1 :: mid ++ m2 :: post →
  db_model_name m1 = db_model_name m2 →
  db_model_name m1 ∉ registry w →
  is_Some (fs w !! Load.onnx_file m1) → is_Some (fs w !! Load.onnx_file m2) →
  fst (Load.main args w) ≠ Ok tt.
Proof.
  intros Hman Hlist Hbatch Hname Hfree Hf1 Hf2 Hok.
  destruct (Load.main args w) as [r w'] eqn:Hrun. simpl in Hok. subst r.
  apply load_main_ok_inv in Hrun as (config' & counts & w2 & Hman' & Hq & Hloop & ->);
    [|exact Hlist].
  assert (config' = config) as -> by congruence.
  assert (Hsnap : db_model_name m1 ∉ (list_to_set (registry w) : gset string)).
  { by rewrite elem_of_list_to_set. }
  assert (Hkeep : ∀ batch c w0 r w1,
            for_each (Load.load_one (Load.force args) (list_to_set (registry w)))
              batch c w0 = (r, w1) → keeps (db_model_name m1) w0 w1).
  { intros batch c w0 r w1 H. change w1 with (r, w1).2. rewrite <- H.
    apply stable_for_each; [apply _|]. intros x a _. by apply keeps_load_one. }
  rewrite Hbatch in Hloop.
  apply for_each_ok_split in Hloop as (c1 & w1 & c2 & w3 & Hpre & Hone & Hrest).
  apply for_each_ok_split in Hrest as (c3 & w4 & c4 & w5 & Hmid & Htwo & _).
  destruct (Hkeep _ _ _ _ _ Hpre) as [Hfs1 _].
  destruct (load_one_fresh_ok _ _ _ _ _ _ _ Hsnap
              ltac:(rewrite Hfs1; exact Hf1) Hone) as [_ Hreg3].
  destruct (Hkeep [m1] c1 w1 (Ok c2) w3) as [Hfs3 _].
  { by rewrite for_each_cons, bind_run, Hone. }
  destruct (Hkeep _ _ _ _ _ Hmid) as [Hfs4 Hreg4].
  rewrite Hname in Hsnap.
  destruct (load_one_fresh_ok _ _ _ _ _ _ _ Hsnap
              ltac:(rewrite Hfs4, Hfs3, Hfs1; exact Hf2) Htwo) as [Hno _].
  apply Hno. rewrite <- Hname. by apply Hreg4.
Qed.

Lemma shared_registry_name_fails_the_load_witness :
  fst (Load.main Demo.load_all_force
         (Demo.world_of twins ["a.onnx"; "a2.onnx"] [] [])) ≠ Ok tt.
Proof.
  apply (shared_registry_name_fails_the_load Demo.load_all_force twins
           [] Demo.model_a []
           {| id := "a"; name := "Model A again"; url := "https://models.example/a2.onnx";
              output := "a2.onnx"; db_model_name := "MODEL_A"; description := "twin" |}
           []).
  - reflexivity.
  - reflexivity.
  - reflexivity.
  - reflexivity.
  - apply not_elem_of_nil.
  - eexists. reflexivity.
  - eexists. reflexivity.
Defined.

(** The run of the witness. *)
Example shared_registry_name_example :
  let r := Load.main Demo.load_all_force
             (Demo.world_of twins ["a.onnx"; "a2.onnx"] [] []) in
  r.1 = Raise DatabaseError ∧ registry r.2 = ["MODEL_A"] ∧
  filter is_mutation (log r.2) =
    [LoadOnnx "a.onnx" "MODEL_A"; LoadOnnx "a2.onnx" "MODEL_A"].
Proof. vm_compute. repeat split; reflexivity. Qed.

(** ** A reload that fails *)

(** X26. A forced reload is not atomic.  In a forced run, for a model
    of the batch that was registered at the start and whose artifact file
    is present, the model is dropped before it is loaded again.  When the
    turns before it have ended normally, its drop passes and its load
    then fails, the run ends there with the database error: after the
    header the log holds the drop, its confirmation, the check of the
    file, the failing load and the close, and nothing else; the later
    models of the batch get no turn; and the model is no longer
    registered. *)
Theorem failed_reload_leaves_the_model_dropped args config pre m post w counts w1 rest :
  fs w !! "models.json" = Some (Json config) →
  truthy_opt (password w) = true → reachable w = true →
  head (faults w) ≠ Some true →
  Load.list_flag args = false → Load.force args = true →
  Load.models_to_load args config = pre ++ m :: post →
  db_model_name m ∈ registry w →
  is_Some (fs w !! Load.onnx_file m) →
  for_each (Load.load_one true (list_to_set (registry w))) pre (0, 0)
    (record (Print (L_load_start (length (pre ++ m :: post)))) (started w)) =
    (Ok counts, w1) →
  faults w1 = false :: true :: rest →
  fst (Load.main args w) = Raise DatabaseError ∧
  log (Load.main args w).2 = log w1 ++
    [Print (L_model_header (id m) (name m)); DropOnnx (db_model_name m);
     Print (L_dropped (db_model_name m)); Stat (Load.onnx_file m);
     LoadOnnx (output m) (db_model_name m); Close] ∧
  registry (Load.main args w).2 =
    filter (λ n, n ≠ db_model_name m) (registry w1) ∧
  db_model_name m ∉ registry (Load.main args w).2.
Proof.
  intros Hman Hpw Hreach Hq Hlist Hforce Hbatch Hreg Hfile Hpre Hf1.
  apply getenv_password_of_environment in Hpw.
  destruct (stays_out_load_loop "" pre _ _ _ _ _ _ _ (reflexivity _) Hpre)
    as (Hfs1 & _ & _). simpl in Hfs1.
  rewrite (load_main_loop args config)
    by (try done; rewrite Hbatch; by destruct pre).
  rewrite Hbatch, Hforce, for_each_app, (bind_ok _ _ _ _ _ Hpre).
  rewrite for_each_cons, bind_run.
  unfold Load.load_one. rewrite bind_run, print_run. cbv beta iota.
  rewrite bool_decide_eq_true_2 by (by rewrite elem_of_list_to_set).
  rewrite bind_run, drop_model_passes by (simpl; by rewrite Hf1).
  cbv beta iota. unfold Load.load_and_count.
  rewrite bind_run, load_model_present by (simpl; rewrite Hfs1; exact Hfile).
  rewrite bind_run. unfold Load.load_onnx.
  rewrite backend_fails by (simpl; by rewrite Hf1).
  cbn [fst snd]. split; [done|]. split; [|split].
  - simpl. by rewrite <- !app_assoc.
  - reflexivity.
  - simpl. intros Hin. by apply list_elem_of_filter in Hin as [Hne _].
Qed.

Lemma failed_reload_leaves_the_model_dropped_witness :
  let w := Demo.world ["a.onnx"; "b.onnx"] ["MODEL_A"; "MODEL_B"]
             [false; false; false; false; true] in
  let w1 := (for_each (Load.load_one true (list_to_set ["MODEL_A"; "MODEL_B"]))
               [Demo.model_a] (0, 0)
               (record (Print (L_load_start 3)) (started w))).2 in
  fst (Load.main Demo.load_all_force w) = Raise DatabaseError ∧
  log (Load.main Demo.load_all_force w).2 = log w1 ++
    [Print (L_model_header "b" "Model B"); DropOnnx "MODEL_B";
     Print (L_dropped "MODEL_B"); Stat "onnx/b.onnx";
     LoadOnnx "b.onnx" "MODEL_B"; Close] ∧
  registry (Load.main Demo.load_all_force w).2 =
    filter (λ n, n ≠ "MODEL_B") (registry w1) ∧
  "MODEL_B" ∉ registry (Load.main Demo.load_all_force w).2.
Proof.
  intros w w1.
  apply (failed_reload_leaves_the_model_dropped Demo.load_all_force Demo.manifest
           [Demo.model_a] Demo.model_b [Demo.model_c] w (1, 0) w1 []).
  - reflexivity.
  - reflexivity.
  - reflexivity.
  - discriminate.
  - reflexivity.
  - reflexivity.
  - reflexivity.
  - by apply (bool_decide_unpack _).
  - eexists. reflexivity.
  - vm_compute. reflexivity.
  - vm_compute. reflexivity.
Defined.

(** The run of the witness: the first model is reloaded, the second is
    dropped and not loaded again, the third gets no turn. *)
Example failed_reload_example :
  let r := Load.main Demo.load_all_force
             (Demo.world ["a.onnx"; "b.onnx"] ["MODEL_A"; "MODEL_B"]
                [false; false; false; false; true]) in
  r.1 = Raise DatabaseError ∧ registry r.2 = ["MODEL_A"] ∧
  filter is_mutation (log r.2) =
    [DropOnnx "MODEL_A"; LoadOnnx "a.onnx" "MODEL_A";
     DropOnnx "MODEL_B"; LoadOnnx "b.onnx" "MODEL_B"].
Proof. vm_compute. repeat split; reflexivity. Qed.

(** ** Unknown ids, at concrete inputs *)

Lemma load_unknown_id_is_fatal_witness :
  let w := Demo.world ["a.onnx"] ["MODEL_B"] [] in
  ∃ w',
    Load.main (Demo.load_only "nobody" true) w = (Exit 1, w') ∧
    registry w' = registry w ∧ fs w' = fs w ∧
    filter is_mutation (log w') = filter is_mutation (log w) ∧
    ∀ m, m ∈ models Demo.manifest →
      ∃ loaded, Print (L_status_row (id m) loaded (description m)) ∈ log w'.
Proof.
  intros w.
  apply (load_unknown_id_is_fatal (Demo.load_only "nobody" true) Demo.manifest w).
  - reflexivity.
  - reflexivity.
  - reflexivity.
  - discriminate.
  - reflexivity.
  - reflexivity.
  - reflexivity.
Defined.

Lemma drop_unknown_id_is_fatal_witness :
  let w := Demo.world [] ["MODEL_A"; "MODEL_B"] [] in
  ∃ w',
    Drop.main (drop_ids ["a"; "nobody"; "b"]) w = (Exit 1, w') ∧
    registry w' = registry w ∧ fs w' = fs w ∧
    filter is_mutation (log w') = filter is_mutation (log w) ∧
    ∀ m, m ∈ models Demo.manifest → Print (L_valid_id (id m)) ∈ log w'.
Proof.
  intros w.
  apply (drop_unknown_id_is_fatal (drop_ids ["a"; "nobody"; "b"]) Demo.manifest w "nobody").
  - reflexivity.
  - reflexivity.
  - reflexivity.
  - reflexivity.
  - reflexivity.
  - discriminate.
  - right. left.
  - reflexivity.
Defined.
